(** * markdown-translator: the batch translation pipeline

    A shallow embedding of [src/markdown-translator.js] and the properties
    of its pipeline: directory traversal, staleness detection, sequential
    dispatch to the translation service, failure isolation and the mirrored
    output tree.

    JavaScript strings are embedded as [string]; a character of the
    embedding is one code unit below 256. *)

From Stdlib Require Import String Ascii List ZArith Lia Bool Arith.
Import ListNotations.
Open Scope string_scope.

(** ** String methods used by the program *)

Module Str.

(** The characters of a string, and back. *)
Fixpoint toChars (s : string) : list ascii :=
  match s with
  | EmptyString => []
  | String c r => c :: toChars r
  end.

Fixpoint ofChars (l : list ascii) : string :=
  match l with
  | [] => EmptyString
  | c :: r => String c (ofChars r)
  end.

(** [s.endsWith(suffix)] *)
Definition endsWith (s suffix : string) : bool :=
  let n := String.length s in
  let k := String.length suffix in
  (k <=? n)%nat && (substring (n - k) k s =? suffix).

(** The character class [\w] of a JavaScript regular expression:
    [A-Za-z0-9_]. *)
Definition isWordChar (c : ascii) : bool :=
  let n := nat_of_ascii c in
  ((65 <=? n) && (n <=? 90) || (97 <=? n) && (n <=? 122)
   || (48 <=? n) && (n <=? 57) || (n =? 95))%nat.

(** [s.replace(/[cls]/g, rep)] for a one-character class [cls]: the string is
    scanned from the left and every character of the class is replaced. *)
Fixpoint replaceAll (cls : ascii -> bool) (rep : string) (s : string) : string :=
  match s with
  | EmptyString => EmptyString
  | String c r =>
      (if cls c then rep else String c EmptyString) ++ replaceAll cls rep r
  end.

End Str.

(** ** The POSIX flavour of Node's [path] module

    The module is a dependency of the program, not part of it; it is modelled
    on the components of a path.  [path.resolve] yields the list of the
    components of the absolute path, which is also the key under which the
    file system stores an entry. *)

Module Path.

Definition slash : ascii := "/"%char.

(** [s.split("/")] *)
Fixpoint split (s : string) : list string :=
  match s with
  | EmptyString => [EmptyString]
  | String c r =>
      if Ascii.eqb c slash then EmptyString :: split r
      else match split r with
           | p :: ps => String c p :: ps
           | [] => [String c EmptyString]
           end
  end.

Definition nonEmpty (s : string) : bool := negb (s =? "").

(** The components of a path: what lies between its separators. *)
Definition segments (s : string) : list string := filter nonEmpty (split s).

Definition isAbsolute (s : string) : bool :=
  match s with
  | String c _ => Ascii.eqb c slash
  | EmptyString => false
  end.

Fixpoint lastChar (s : string) : option ascii :=
  match s with
  | EmptyString => None
  | String c EmptyString => Some c
  | String _ r => lastChar r
  end.

Definition trailingSlash (s : string) : bool :=
  match lastChar s with
  | Some c => Ascii.eqb c slash
  | None => false
  end.

(** One component met by [normalizeString]; [stk] holds the components kept
    so far, the last one first. *)
Definition step (allowAboveRoot : bool) (stk : list string) (seg : string)
  : list string :=
  if seg =? ".." then
    match stk with
    | top :: rest =>
        if top =? ".." then (if allowAboveRoot then ".." :: stk else stk)
        else rest
    | [] => if allowAboveRoot then [".."] else []
    end
  else if (seg =? ".") || (seg =? "") then stk
  else seg :: stk.

Definition normSegs (allowAboveRoot : bool) (segs : list string) : list string :=
  rev (fold_left (step allowAboveRoot) segs []).

(** [path.normalize] *)
Definition normalize (p : string) : string :=
  if p =? "" then "."
  else
    let isAbs := isAbsolute p in
    let trailing := trailingSlash p in
    let body := String.concat "/" (normSegs (negb isAbs) (segments p)) in
    if body =? "" then
      (if isAbs then "/" else if trailing then "./" else ".")
    else
      (if isAbs then "/" else "") ++ body ++ (if trailing then "/" else "").

(** [path.join(...args)] *)
Definition join (args : list string) : string :=
  match filter nonEmpty args with
  | [] => "."
  | used => normalize (String.concat "/" used)
  end.

(** [path.resolve(p)] in the working directory [cwd], as the components of
    the absolute path. *)
Definition resolve (cwd : list string) (p : string) : list string :=
  if isAbsolute p then normSegs false (segments p)
  else normSegs false (cwd ++ segments p).

Fixpoint stripCommon (xs ys : list string) : list string * list string :=
  match xs, ys with
  | x :: xs', y :: ys' => if x =? y then stripCommon xs' ys' else (xs, ys)
  | _, _ => (xs, ys)
  end.

(** [path.relative(from, to)]: one [..] for every component of [from] below
    the common ancestor, then the components of [to] below it. *)
Definition relative (cwd : list string) (from to : string) : string :=
  if from =? to then ""
  else
    let '(up, down) := stripCommon (resolve cwd from) (resolve cwd to) in
    String.concat "/" (map (fun _ => "..") up ++ down).

(** [path.basename(p)]: the last component, trailing separators ignored. *)
Definition basename (p : string) : string := last (segments p) "".

Fixpoint dropWhile {A} (f : A -> bool) (l : list A) : list A :=
  match l with
  | [] => []
  | x :: r => if f x then dropWhile f r else l
  end.

(** [path.dirname(p)]: scanning from the end and never looking at the first
    character, skip the trailing separators and the last component; the
    result is what precedes the separator found there. *)
Definition dirname (p : string) : string :=
  match p with
  | EmptyString => "."
  | String c0 rest =>
      let hasRoot := Ascii.eqb c0 slash in
      let isSlash := fun c => Ascii.eqb c slash in
      let r1 := dropWhile isSlash (rev (Str.toChars rest)) in
      let r2 := dropWhile (fun c => negb (isSlash c)) r1 in
      match r2 with
      | [] => if hasRoot then "/" else "."
      | _ :: r3 =>
          match r3 with
          | [] => if hasRoot then "//" else String c0 EmptyString
          | _ => String c0 (Str.ofChars (rev r3))
          end
      end
  end.

(** A clean component is not empty and holds no separator. *)
Definition noSlash (s : string) : bool :=
  forallb (fun c => negb (Ascii.eqb c slash)) (Str.toChars s).

Definition clean (s : string) : bool := nonEmpty s && noSlash s.

(** A name is what a directory holds an entry under: a clean component
    other than [.] and [..]. *)
Definition isName (s : string) : bool :=
  clean s && negb (s =? ".") && negb (s =? "..").

(** What [normalizeString] keeps: no [.] and no empty component, and no
    [..] when the path may not climb above its root. *)
Definition keeps (a : bool) (stk : list string) : Prop :=
  Forall (fun x => x <> "." /\ x <> "" /\ (a = false -> x <> "..")) stk.

(** The path under which the scanner reaches the entry [rel] levels below
    [dir]: one [path.join] for each level. *)
Definition under (dir : string) (rel : list string) : string :=
  fold_left (fun d n => join [d; n]) rel dir.

End Path.

Open Scope list_scope.

(** ** The file system

    An entry is stored under the components of its absolute path, in the
    order in which the entries were created; that order is the one in which
    [readdir] enumerates a directory.  There are no links other than the
    dangling ones, so a path is resolved on its text. *)

Inductive Inode : Type :=
| IFile (mtime : Z) (content : string)
| IDir (mtime : Z) (listable : bool)
| IOther (mtime : Z)        (* a socket, a device: neither file nor directory *)
| IDangling.                (* a link to nothing: listed, but [stat] fails *)

Definition FS : Type := list (list string * Inode).

Fixpoint keyEqb (k1 k2 : list string) : bool :=
  match k1, k2 with
  | [], [] => true
  | a :: r1, b :: r2 => (a =? b) && keyEqb r1 r2
  | _, _ => false
  end.

Fixpoint assoc (k : list string) (fs : FS) : option Inode :=
  match fs with
  | [] => None
  | (k', v) :: r => if keyEqb k k' then Some v else assoc k r
  end.

(** The root directory always exists. *)
Definition lookup (fs : FS) (k : list string) : option Inode :=
  match k with
  | [] => Some (IDir 0 true)
  | _ => assoc k fs
  end.

Fixpoint insert (k : list string) (v : Inode) (fs : FS) : FS :=
  match fs with
  | [] => [(k, v)]
  | (k', v') :: r =>
      if keyEqb k k' then (k, v) :: r else (k', v') :: insert k v r
  end.

Definition childName (dir key : list string) : option string :=
  match key with
  | [] => None
  | _ => if keyEqb (removelast key) dir then Some (last key "") else None
  end.

Definition children (fs : FS) (dir : list string) : list string :=
  flat_map (fun e => match childName dir (fst e) with
                     | Some n => [n]
                     | None => []
                     end) fs.

(** The non-empty prefixes of a key, shortest first. *)
Fixpoint prefixes (k : list string) : list (list string) :=
  match k with
  | [] => []
  | a :: r => [a] :: map (cons a) (prefixes r)
  end.

(** [mkdir -p]: every missing ancestor is created; an ancestor that is not a
    directory stops it, the directories created before it stay. *)
Fixpoint mkdirs (now : Z) (ks : list (list string)) (fs : FS) : FS * bool :=
  match ks with
  | [] => (fs, true)
  | k :: r =>
      match lookup fs k with
      | None => mkdirs now r (insert k (IDir now true) fs)
      | Some (IDir _ _) => mkdirs now r fs
      | Some _ => (fs, false)
      end
  end.

Inductive Kind : Type := KFile | KDir | KOther.

Record Stats : Type := { kind : Kind; mtime : Z }.

Definition isDirectory (st : Stats) : bool :=
  match kind st with KDir => true | _ => false end.

Definition isFile (st : Stats) : bool :=
  match kind st with KFile => true | _ => false end.

(** What [stat] reports of the entry stored under a key. *)
Definition statOf (fs : FS) (k : list string) : option Stats :=
  match lookup fs k with
  | Some (IFile m _) => Some {| kind := KFile; mtime := m |}
  | Some (IDir m _) => Some {| kind := KDir; mtime := m |}
  | Some (IOther m) => Some {| kind := KOther; mtime := m |}
  | None | Some IDangling => None
  end.

(** What [readFile] finds under a key: the content of a file, or the error
    code. *)
Definition readOf (fs : FS) (k : list string) : string + string :=
  match lookup fs k with
  | Some (IFile _ c) => inl c
  | Some (IDir _ _) => inr "EISDIR"
  | Some (IOther _) => inr "EACCES"
  | None | Some IDangling => inr "ENOENT"
  end.

(** What [readdir] lists under a key, when the key is a directory that may
    be listed. *)
Definition listing (fs : FS) (k : list string) : option (list string) :=
  match lookup fs k with
  | Some (IDir _ true) => Some (children fs k)
  | _ => None
  end.

(** What [access] finds under a key. *)
Definition accessible (fs : FS) (k : list string) : bool :=
  match lookup fs k with
  | None | Some IDangling => false
  | Some _ => true
  end.

(** Entries are stored under names. *)
Definition wellFormed (fs : FS) : bool :=
  forallb (fun e => forallb Path.isName (fst e)) fs.

(** The length of the longest key. *)
Definition depth (fs : FS) : nat :=
  fold_right (fun e d => Nat.max (length (fst e)) d) O fs.

(** ** The machine: state, trace, results *)

(** What the program variables [translatedCount] and [skippedCount] of
    [processBatchWithDelay] hold is part of the state, next to the world:
    the file system, the clock (milliseconds) and the number of requests
    the translation service has received. *)
Record State : Type := {
  fs : FS;
  now : Z;
  calls : nat;
  translatedCount : nat;
  skippedCount : nat
}.

Definition Error : Type := string.   (* [error.message] *)

(** The lines written to the console, one constructor for each call of
    [console.log] and [console.error] in the program. *)
Inductive Msg : Type :=
| MsgDirReadError (directory : string) (e : Error)
| MsgFileReadError (filePath : string) (e : Error)
| MsgTranslateError (e : Error)
| MsgSaved (outputPath : string)
| MsgSaveError (filePath : string) (e : Error)
| MsgProcessing (file : string)
| MsgSkipped (file : string)
| MsgItemError (file : string) (e : Error)
| MsgSearching (dir : string)
| MsgNoneFound
| MsgFound (n : nat)
| MsgModel (name : string)
| MsgOutputDir (dir : string)
| MsgForceNotice
| MsgSummary
| MsgTotal (n : nat)
| MsgTranslated (n : nat)
| MsgSkippedTotal (n : nat)
| MsgDone
| MsgProcessError (e : Error)
| MsgNoSourceDir (dir : string)
| MsgHint
| MsgAppError (e : Error).

(** What the program asks of its environment, in the order it asks. *)
Inductive Event : Type :=
| EvAccess (p : string)
| EvReaddir (p : string)
| EvStat (p : string)
| EvReadFile (p : string)
| EvMkdir (p : string)
| EvWriteFile (p : string) (content : string)
| EvGenerate (model : string) (contents : string)
| EvTimeout (ms : Z)
| EvLog (m : Msg)
| EvError (m : Msg).

Inductive Res (A : Type) : Type :=
| Ok (a : A)
| Throw (e : Error)         (* an exception, or a rejected promise *)
| Exit (code : Z)           (* [process.exit] *)
| Diverge.                  (* the recursion went deeper than the fuel *)

Arguments Ok {A} a.
Arguments Throw {A} e.
Arguments Exit {A} code.
Arguments Diverge {A}.

Definition M (A : Type) : Type := State -> Res A * State * list Event.

Definition ret {A} (a : A) : M A := fun s => (Ok a, s, []).

Definition bind {A B} (m : M A) (k : A -> M B) : M B :=
  fun s =>
    match m s with
    | (Ok a, s1, t1) => let '(r, s2, t2) := k a s1 in (r, s2, t1 ++ t2)
    | (Throw e, s1, t1) => (Throw e, s1, t1)
    | (Exit c, s1, t1) => (Exit c, s1, t1)
    | (Diverge, s1, t1) => (Diverge, s1, t1)
    end.

(** [try { body } catch (error) { handler }] *)
Definition tryCatch {A} (body : M A) (handler : Error -> M A) : M A :=
  fun s =>
    match body s with
    | (Throw e, s1, t1) => let '(r, s2, t2) := handler e s1 in (r, s2, t1 ++ t2)
    | other => other
    end.

Declare Scope js_scope.
Delimit Scope js_scope with js.
Notation "x <- m ;; k" := (bind m (fun x => k))
  (at level 61, m at next level, right associativity) : js_scope.
Notation "m ;; k" := (bind m (fun _ => k))
  (at level 61, right associativity) : js_scope.
Open Scope js_scope.

Definition throw {A} (e : Error) : M A := fun s => (Throw e, s, []).
Definition emit (ev : Event) : M unit := fun s => (Ok tt, s, [ev]).
Definition get : M State := fun s => (Ok s, s, []).
Definition put (s' : State) : M unit := fun _ => (Ok tt, s', []).
Definition diverge {A} : M A := fun s => (Diverge, s, []).

(** [for (const x of l) body] *)
Fixpoint forOf {A} (l : list A) (body : A -> M unit) : M unit :=
  match l with
  | [] => ret tt
  | x :: r => body x ;; forOf r body
  end.

(** A [for ... of] loop that grows a local array. *)
Fixpoint forOfPush {A B} (l : list A) (arr : list B)
    (body : A -> list B -> M (list B)) : M (list B) :=
  match l with
  | [] => ret arr
  | x :: r => arr' <- body x arr ;; forOfPush r arr' body
  end.

Definition console_log (m : Msg) : M unit := emit (EvLog m).
Definition console_error (m : Msg) : M unit := emit (EvError m).
Definition process_exit {A} (code : Z) : M A := fun s => (Exit code, s, []).

Definition withFs (s : State) (f : FS) : State :=
  {| fs := f; now := now s; calls := calls s;
     translatedCount := translatedCount s; skippedCount := skippedCount s |}.

(** [await new Promise((resolve) => setTimeout(resolve, ms))] *)
Definition setTimeout (ms : Z) : M unit :=
  fun s => (Ok tt,
            {| fs := fs s; now := (now s + ms)%Z; calls := calls s;
               translatedCount := translatedCount s;
               skippedCount := skippedCount s |},
            [EvTimeout ms]).

(** What the translation service answers to a request: it rejects it, or it
    responds and the response has a [text] or has none. *)
Inductive Response : Type :=
| Rejected (e : Error)
| Responded (text : option string).

(** The command line. *)
Record Config : Type := {
  MODEL_NAME : string;
  SOURCE_DIR : string;
  BASE_OUTPUT_DIR : string;
  FORCE_TRANSLATE : bool
}.

(** ** The program *)

Section Program.

(** The configuration is read once, when the module is loaded, and every
    function uses it; so are the working directory of the process and the
    translation service, which answers the [n]-th request it receives for a
    model and a prompt. *)
Variable cfg : Config.
Variable cwd : list string.
Variable generateContent : nat -> string -> string -> Response.

(** *** [fs.promises] *)

Definition fs_access (p : string) : M unit :=
  fun s =>
    match lookup (fs s) (Path.resolve cwd p) with
    | None | Some IDangling => (Throw "ENOENT", s, [EvAccess p])
    | Some _ => (Ok tt, s, [EvAccess p])
    end.

Definition fs_readdir (p : string) : M (list string) :=
  fun s =>
    let k := Path.resolve cwd p in
    match lookup (fs s) k with
    | Some (IDir _ true) => (Ok (children (fs s) k), s, [EvReaddir p])
    | Some (IDir _ false) => (Throw "EACCES", s, [EvReaddir p])
    | None | Some IDangling => (Throw "ENOENT", s, [EvReaddir p])
    | Some _ => (Throw "ENOTDIR", s, [EvReaddir p])
    end.

Definition fs_stat (p : string) : M Stats :=
  fun s =>
    match statOf (fs s) (Path.resolve cwd p) with
    | Some st => (Ok st, s, [EvStat p])
    | None => (Throw "ENOENT", s, [EvStat p])
    end.

Definition fs_readFile (p : string) : M string :=
  fun s =>
    match readOf (fs s) (Path.resolve cwd p) with
    | inl c => (Ok c, s, [EvReadFile p])
    | inr e => (Throw e, s, [EvReadFile p])
    end.

(** [fs.mkdir(p, { recursive: true })] *)
Definition fs_mkdir (p : string) : M unit :=
  fun s =>
    let '(f, ok) := mkdirs (now s) (prefixes (Path.resolve cwd p)) (fs s) in
    ((if ok then Ok tt else Throw "EEXIST"), withFs s f, [EvMkdir p]).

(** [fs.writeFile(p, content, "utf8")]: the file is created or replaced
    whole; its directory must exist. *)
Definition fs_writeFile (p : string) (content : string) : M unit :=
  fun s =>
    let k := Path.resolve cwd p in
    let ev := [EvWriteFile p content] in
    match k with
    | [] => (Throw "EISDIR", s, ev)
    | _ =>
        match lookup (fs s) (removelast k) with
        | Some (IDir _ _) =>
            match lookup (fs s) k with
            | None | Some (IFile _ _) =>
                (Ok tt, withFs s (insert k (IFile (now s) content) (fs s)), ev)
            | Some (IDir _ _) => (Throw "EISDIR", s, ev)
            | Some _ => (Throw "EACCES", s, ev)
            end
        | Some (IFile _ _) | Some (IOther _) => (Throw "ENOTDIR", s, ev)
        | None | Some IDangling => (Throw "ENOENT", s, ev)
        end
    end.

(** [ai.models.generateContent({ model, contents })], awaited; the value is
    the [text] of the response. *)
Definition ai_generateContent (model contents : string) : M (option string) :=
  fun s =>
    let s' := {| fs := fs s; now := now s; calls := S (calls s);
                 translatedCount := translatedCount s;
                 skippedCount := skippedCount s |} in
    match generateContent (calls s) model contents with
    | Rejected e => (Throw e, s', [EvGenerate model contents])
    | Responded text => (Ok text, s', [EvGenerate model contents])
    end.

(** *** Configuration (lines 51-58) *)

(** The class [[^\w.-]]. *)
Definition invalidChar (c : ascii) : bool :=
  negb (Str.isWordChar c || Ascii.eqb c "." || Ascii.eqb c "-").

Definition MODEL_DIR_NAME : string :=
  Str.replaceAll invalidChar "_" (MODEL_NAME cfg).

Definition OUTPUT_DIR : string :=
  Path.join [BASE_OUTPUT_DIR cfg; MODEL_DIR_NAME].

(** *** The functions *)

Fixpoint findMarkdownFiles (fuel : nat) (directory : string) : M (list string) :=
  match fuel with
  | O => diverge
  | S fuel' =>
      tryCatch
        (files <- fs_readdir directory ;;
         forOfPush files [] (fun file markdownFiles =>
           let filePath := Path.join [directory; file] in
           stat <- fs_stat filePath ;;
           if isDirectory stat then
             subFiles <- findMarkdownFiles fuel' filePath ;;
             ret (markdownFiles ++ subFiles)
           else if Str.endsWith file ".md" || Str.endsWith file ".markdown" then
             ret (markdownFiles ++ [filePath])
           else ret markdownFiles))
        (fun error =>
           console_error (MsgDirReadError directory error) ;;
           ret [])
  end.

Definition readMarkdownFile (filePath : string) : M string :=
  tryCatch
    (fs_readFile filePath)
    (fun error =>
       console_error (MsgFileReadError filePath error) ;;
       ret "").

Definition isAlreadyTranslated (filePath : string) : M bool :=
  let fileName := Path.basename filePath in
  let outputPath := Path.join [OUTPUT_DIR; fileName] in
  tryCatch
    (outputStat <- fs_stat outputPath ;;
     sourceStat <- fs_stat filePath ;;
     ret (isFile outputStat && (mtime sourceStat <=? mtime outputStat)%Z))
    (fun error => ret false).

(** The instruction that precedes the text in the prompt (the program words
    it in Japanese). *)
Definition instruction : string :=
  "Translate the following Markdown text from English to Japanese. Keep all Markdown formatting, code blocks and special characters. Output only the translated Markdown body, without explanations or code fence marks.

".

(** The value is a string or [undefined]: the [text] of the response. *)
Definition translateToJapanese (text : string) : M (option string) :=
  tryCatch
    (let prompt := (instruction ++ text)%string in
     response_text <- ai_generateContent (MODEL_NAME cfg) prompt ;;
     ret response_text)
    (fun error =>
       console_error (MsgTranslateError error) ;;
       ret (Some "")).

Definition saveTranslatedFile (filePath content : string) : M unit :=
  tryCatch
    (fs_mkdir OUTPUT_DIR ;;
     let relativePath := Path.relative cwd (SOURCE_DIR cfg) filePath in
     let outputPath := Path.join [OUTPUT_DIR; relativePath] in
     fs_mkdir (Path.dirname outputPath) ;;
     fs_writeFile outputPath content ;;
     console_log (MsgSaved outputPath))
    (fun error => console_error (MsgSaveError filePath error)).

(** A string or [undefined] in a condition. *)
Definition truthy (v : option string) : bool :=
  match v with
  | Some c => negb (c =? "")
  | None => false
  end.

Definition toText (v : option string) : string :=
  match v with
  | Some c => c
  | None => ""
  end.

Definition setCounts (t k : nat) : M unit :=
  fun s => (Ok tt,
            {| fs := fs s; now := now s; calls := calls s;
               translatedCount := t; skippedCount := k |}, []).

(** [translatedCount++] *)
Definition incrTranslated : M unit :=
  fun s => setCounts (S (translatedCount s)) (skippedCount s) s.

(** [skippedCount++] *)
Definition incrSkipped : M unit :=
  fun s => setCounts (translatedCount s) (S (skippedCount s)) s.

(** The body of the loop of [processBatchWithDelay]; a branch that ends
    early is a [continue]. *)
Definition processFile (file : string) : M unit :=
  tryCatch
    (console_log (MsgProcessing file) ;;
     skip <- (if negb (FORCE_TRANSLATE cfg) then isAlreadyTranslated file
              else ret false) ;;
     if skip then
       console_log (MsgSkipped file) ;;
       incrSkipped
     else
       content <- readMarkdownFile file ;;
       if content =? "" then ret tt
       else
         translated <- translateToJapanese content ;;
         (if truthy translated then
            saveTranslatedFile file (toText translated) ;;
            incrTranslated
          else ret tt) ;;
         setTimeout 1000)
    (fun error => console_error (MsgItemError file error)).

Definition processBatchWithDelay (files : list string) : M (nat * nat) :=
  setCounts 0 0 ;;
  forOf files processFile ;;
  s <- get ;;
  ret (translatedCount s, skippedCount s).

Definition translateMarkdownFiles (fuel : nat) : M unit :=
  tryCatch
    (console_log (MsgSearching (SOURCE_DIR cfg)) ;;
     markdownFiles <- findMarkdownFiles fuel (SOURCE_DIR cfg) ;;
     if (length markdownFiles =? 0)%nat then
       console_log MsgNoneFound
     else
       console_log (MsgFound (length markdownFiles)) ;;
       console_log (MsgModel (MODEL_NAME cfg)) ;;
       console_log (MsgOutputDir OUTPUT_DIR) ;;
       (if FORCE_TRANSLATE cfg then console_log MsgForceNotice else ret tt) ;;
       counts <- processBatchWithDelay markdownFiles ;;
       console_log MsgSummary ;;
       console_log (MsgTotal (length markdownFiles)) ;;
       console_log (MsgTranslated (fst counts)) ;;
       console_log (MsgSkippedTotal (snd counts)) ;;
       console_log MsgDone)
    (fun error => console_error (MsgProcessError error)).

Definition checkSourceDirectory (fuel : nat) : M unit :=
  tryCatch
    (fs_access (SOURCE_DIR cfg) ;;
     translateMarkdownFiles fuel)
    (fun error =>
       console_error (MsgNoSourceDir (SOURCE_DIR cfg)) ;;
       console_log MsgHint ;;
       process_exit 1).

Definition main (fuel : nat) : M unit :=
  tryCatch
    (checkSourceDirectory fuel)
    (fun error =>
       console_error (MsgAppError error) ;;
       process_exit 1).

End Program.

(** ** Vocabulary for the runs of the program *)

Definition resultOf {A} (x : Res A * State * list Event) : Res A := fst (fst x).
Definition stateOf {A} (x : Res A * State * list Event) : State := snd (fst x).
Definition traceOf {A} (x : Res A * State * list Event) : list Event := snd x.

Definition isStat (e : Event) : bool :=
  match e with EvStat _ => true | _ => false end.
Definition isRead (e : Event) : bool :=
  match e with EvReadFile _ => true | _ => false end.
Definition isGenerate (e : Event) : bool :=
  match e with EvGenerate _ _ => true | _ => false end.
Definition isTimeout (e : Event) : bool :=
  match e with EvTimeout _ => true | _ => false end.
(** A request to change the file system. *)
Definition isWrite (e : Event) : bool :=
  match e with EvMkdir _ | EvWriteFile _ _ => true | _ => false end.
Definition isErrorEv (e : Event) : bool :=
  match e with EvError _ => true | _ => false end.
(** What the scanner asks and says. *)
Definition isScanEvent (e : Event) : bool :=
  match e with
  | EvReaddir _ | EvStat _ | EvError (MsgDirReadError _ _) => true
  | _ => false
  end.
Definition isSkippedMsg (e : Event) : bool :=
  match e with EvLog (MsgSkipped _) => true | _ => false end.
Definition isProcessingMsg (e : Event) : bool :=
  match e with EvLog (MsgProcessing _) => true | _ => false end.
(** The lines of the [catch] blocks of the loop body, of
    [translateMarkdownFiles] and of [main]. *)
Definition isOuterCatchMsg (e : Event) : bool :=
  match e with
  | EvError (MsgItemError _ _) | EvError (MsgProcessError _)
  | EvError (MsgAppError _) => true
  | _ => false
  end.
(** The line that ends a call of [saveTranslatedFile]. *)
Definition isSaveLine (e : Event) : bool :=
  match e with
  | EvLog (MsgSaved _) | EvError (MsgSaveError _ _) => true
  | _ => false
  end.
(** What the processing of an item may ask and say. *)
Definition isItemEvent (e : Event) : bool :=
  match e with
  | EvStat _ | EvReadFile _ | EvGenerate _ _ | EvMkdir _ | EvWriteFile _ _
  | EvTimeout _ => true
  | EvLog (MsgProcessing _) | EvLog (MsgSkipped _) | EvLog (MsgSaved _) => true
  | EvError (MsgFileReadError _ _) | EvError (MsgTranslateError _)
  | EvError (MsgSaveError _ _) => true
  | _ => false
  end.

(** The entry under [out] is a file at least as recent as the one under
    [src]: the comparison of [isAlreadyTranslated]. *)
Definition upToDate (f : FS) (out src : list string) : bool :=
  match statOf f out, statOf f src with
  | Some o, Some i => isFile o && (mtime i <=? mtime o)%Z
  | _, _ => false
  end.

Definition bumpCalls (s : State) : State :=
  {| fs := fs s; now := now s; calls := S (calls s);
     translatedCount := translatedCount s; skippedCount := skippedCount s |}.

Definition bumpClock (ms : Z) (s : State) : State :=
  {| fs := fs s; now := (now s + ms)%Z; calls := calls s;
     translatedCount := translatedCount s; skippedCount := skippedCount s |}.

Definition bumpTranslated (s : State) : State :=
  {| fs := fs s; now := now s; calls := calls s;
     translatedCount := S (translatedCount s); skippedCount := skippedCount s |}.

Definition bumpSkipped (s : State) : State :=
  {| fs := fs s; now := now s; calls := calls s;
     translatedCount := translatedCount s; skippedCount := S (skippedCount s) |}.

(** A run that leaves the state alone and neither throws nor exits. *)
Definition quiet {A} (x : Res A * State * list Event) (s : State) : Prop :=
  stateOf x = s
  /\ match resultOf x with
     | Ok _ | Diverge => True
     | Throw _ | Exit _ => False
     end.

(** The same, but for an exception. *)
Definition calm {A} (x : Res A * State * list Event) (s : State) : Prop :=
  stateOf x = s
  /\ match resultOf x with
     | Exit _ => False
     | _ => True
     end.

(** An answer of the service that gives no translation: a rejection, a
    response without text, an empty text. *)
Definition unusable (r : Response) : bool :=
  match r with
  | Rejected _ => true
  | Responded None => true
  | Responded (Some c) => c =? ""
  end.

(** An item of the batch is paced when its part of the trace opens with the
    line announcing it and, if it holds a request to the service, ends with
    the one delay of the item, of 1000 ms; without a request it holds no
    delay. *)
Definition paced (file : string) (seg : list Event) : Prop :=
  (exists rest, seg = EvLog (MsgProcessing file) :: rest)
  /\ if existsb isGenerate seg
     then exists before,
            seg = before ++ [EvTimeout 1000] /\ filter isTimeout before = []
     else filter isTimeout seg = [].

Section Vocabulary.

Variable cfg : Config.
Variable cwd : list string.
Variable generateContent : nat -> string -> string -> Response.

(** The location [isAlreadyTranslated] looks at for a source path. *)
Definition staleLocation (filePath : string) : string :=
  Path.join [OUTPUT_DIR cfg; Path.basename filePath].

(** The location [saveTranslatedFile] writes to for a source path. *)
Definition outputLocation (filePath : string) : string :=
  Path.join [OUTPUT_DIR cfg; Path.relative cwd (SOURCE_DIR cfg) filePath].

(** What the service answers to the next request for a text. *)
Definition nextResponse (text : string) (s : State) : Response :=
  generateContent (calls s) (MODEL_NAME cfg) (instruction ++ text)%string.

(** What [translateToJapanese] makes of an answer. *)
Definition adapted (r : Response) : option string :=
  match r with
  | Rejected _ => Some ""
  | Responded text => text
  end.

(** What [saveTranslatedFile] may ask and say. *)
Definition isSaveEvent (file content : string) (e : Event) : bool :=
  match e with
  | EvMkdir _ => true
  | EvWriteFile p c => (p =? outputLocation file) && (c =? content)
  | EvLog (MsgSaved p) => p =? outputLocation file
  | EvError (MsgSaveError f _) => f =? file
  | _ => false
  end.

(** The ways an item ends.  [Translated] is the one that is counted: the
    service gave a text and the text was handed to [saveTranslatedFile]. *)
Inductive Outcome : Type := Skipped | Unread | Untranslated | Translated.

(** What [readMarkdownFile] returns for a path. *)
Definition contentOf (file : string) (s : State) : string :=
  match readOf (fs s) (Path.resolve cwd file) with
  | inl c => c
  | inr _ => ""
  end.

(** What [translateToJapanese] returns for the content of a path. *)
Definition translationOf (file : string) (s : State) : option string :=
  adapted (nextResponse (contentOf file s) s).

Definition outcome (file : string) (s : State) : Outcome :=
  if negb (FORCE_TRANSLATE cfg)
     && upToDate (fs s) (Path.resolve cwd (staleLocation file)) (Path.resolve cwd file)
  then Skipped
  else if contentOf file s =? "" then Unread
  else if truthy (translationOf file s) then Translated
  else Untranslated.

Definition checkTrace (file : string) (s : State) : list Event :=
  if FORCE_TRANSLATE cfg then []
  else traceOf (isAlreadyTranslated cfg cwd file s).

Definition readTrace (file : string) (s : State) : list Event :=
  traceOf (readMarkdownFile cwd file s).

Definition translateTrace (file : string) (s : State) : list Event :=
  traceOf (translateToJapanese cfg generateContent (contentOf file s) s).

Definition saveRun (file : string) (s : State) : Res unit * State * list Event :=
  saveTranslatedFile cfg cwd file (toText (translationOf file s)) (bumpCalls s).

(** The body of the loop of [findMarkdownFiles]. *)
Definition visit (fuel : nat) (directory file : string)
    (markdownFiles : list string) : M (list string) :=
  let filePath := Path.join [directory; file] in
  stat <- fs_stat cwd filePath ;;
  if isDirectory stat then
    subFiles <- findMarkdownFiles cwd fuel filePath ;;
    ret (markdownFiles ++ subFiles)
  else if Str.endsWith file ".md" || Str.endsWith file ".markdown" then
    ret (markdownFiles ++ [filePath])
  else ret markdownFiles.

(** The files [findMarkdownFiles] returns for a directory. *)
Definition found (fuel : nat) (directory : string) (s : State) : list string :=
  match resultOf (findMarkdownFiles cwd fuel directory s) with
  | Ok files => files
  | _ => []
  end.

(** What an entry of a directory adds to the files of the directory. *)
Definition contribution (fuel : nat) (directory : string) (s : State)
    (file : string) : list string :=
  let filePath := Path.join [directory; file] in
  match statOf (fs s) (Path.resolve cwd filePath) with
  | Some stat =>
      if isDirectory stat then found fuel filePath s
      else if Str.endsWith file ".md" || Str.endsWith file ".markdown"
           then [filePath]
           else []
  | None => []
  end.

(** The item is not skipped: force-mode is on, or the staleness check does
    not find it translated. *)
Definition due (file : string) (s : State) : bool :=
  FORCE_TRANSLATE cfg
  || negb (upToDate (fs s) (Path.resolve cwd (staleLocation file))
             (Path.resolve cwd file)).

(** The translation of an item fails: the item is due and has content, and
    the answer of the service to the request for it is unusable. *)
Definition translationFails (file : string) (s : State) : Prop :=
  due file s = true
  /\ contentOf file s <> ""
  /\ unusable (nextResponse (contentOf file s) s) = true.

Definition translationSucceeds (file : string) (s : State) : Prop :=
  due file s = true
  /\ contentOf file s <> ""
  /\ unusable (nextResponse (contentOf file s) s) = false.

(** [saveTranslatedFile] reports no error for the item. *)
Definition persisted (file : string) (s : State) : Prop :=
  existsb isErrorEv (traceOf (saveRun file s)) = false.

(** The output location of a document holds a file of a given date and
    content. *)
Definition storedAt (f : FS) (file : string) (date : Z) (text : string) : Prop :=
  lookup f (Path.resolve cwd (outputLocation file)) = Some (IFile date text).

(** The state in which the loop leaves an item, and the batch. *)
Definition afterItem (file : string) (s : State) : State :=
  stateOf (processFile cfg cwd generateContent file s).

Definition afterItems (files : list string) (s : State) : State :=
  fold_left (fun s' file => afterItem file s') files s.

(** What each item of a batch adds to the trace. *)
Fixpoint itemTraces (files : list string) (s : State) : list (list Event) :=
  match files with
  | [] => []
  | file :: rest =>
      traceOf (processFile cfg cwd generateContent file s)
        :: itemTraces rest (afterItem file s)
  end.

(** The state in which [processBatchWithDelay] enters its loop. *)
Definition startBatch (s : State) : State :=
  {| fs := fs s; now := now s; calls := calls s;
     translatedCount := 0; skippedCount := 0 |}.

(** The staleness check finds the document translated. *)
Definition current (f : FS) (file : string) : bool :=
  upToDate f (Path.resolve cwd (staleLocation file)) (Path.resolve cwd file).

(** The document is not more recent than the clock. *)
Definition notFromTheFuture (s : State) (file : string) : Prop :=
  forall i, statOf (fs s) (Path.resolve cwd file) = Some i -> (mtime i <= now s)%Z.

(** The item ends skipped, or translated and saved without error. *)
Definition settled (file : string) (s : State) : Prop :=
  outcome file s = Skipped
  \/ (outcome file s = Translated /\ persisted file s).

Fixpoint allSettled (files : list string) (s : State) : Prop :=
  match files with
  | [] => True
  | file :: rest => settled file s /\ allSettled rest (afterItem file s)
  end.

(** No document of the batch lies where the translation of one is
    written. *)
Definition apart (files : list string) : Prop :=
  forall f g, In f files -> In g files ->
    Path.resolve cwd (outputLocation g) <> Path.resolve cwd f.

(** The request an item makes to the service, when it makes one. *)
Definition requestOf (file : string) (s : State) : list Event :=
  match outcome file s with
  | Skipped | Unread => []
  | Untranslated | Translated =>
      [EvGenerate (MODEL_NAME cfg) (instruction ++ contentOf file s)]
  end.

(** The requests of a batch, item after item. *)
Fixpoint requests (files : list string) (s : State) : list Event :=
  match files with
  | [] => []
  | file :: rest => requestOf file s ++ requests rest (afterItem file s)
  end.

(** The lines [translateMarkdownFiles] writes before the batch and after
    it. *)
Definition header (total : nat) : list Event :=
  [EvLog (MsgFound total); EvLog (MsgModel (MODEL_NAME cfg));
   EvLog (MsgOutputDir (OUTPUT_DIR cfg))]
  ++ (if FORCE_TRANSLATE cfg then [EvLog MsgForceNotice] else []).

Definition summary (total translated skipped : nat) : list Event :=
  [EvLog MsgSummary; EvLog (MsgTotal total); EvLog (MsgTranslated translated);
   EvLog (MsgSkippedTotal skipped); EvLog MsgDone].

(** A directory that can be listed and whose entries can all be examined. *)
Definition examinable (s : State) (directory : string) : Prop :=
  exists names,
    listing (fs s) (Path.resolve cwd directory) = Some names
    /\ forall n, In n names ->
         statOf (fs s) (Path.resolve cwd (Path.join [directory; n])) <> None.

(** The directory lists the entry, and the entry is a directory or is
    not. *)
Definition lists (s : State) (directory n : string) (dir : bool) : Prop :=
  exists names st,
    listing (fs s) (Path.resolve cwd directory) = Some names
    /\ In n names
    /\ statOf (fs s) (Path.resolve cwd (Path.join [directory; n])) = Some st
    /\ isDirectory st = dir.

(** The way down from a directory along [rel]: every directory on the way
    can be examined and lists the next one, a directory. *)
Fixpoint leadsTo (s : State) (directory : string) (rel : list string) : Prop :=
  examinable s directory
  /\ match rel with
     | [] => True
     | n :: r =>
         lists s directory n true /\ leadsTo s (Path.join [directory; n]) r
     end.

End Vocabulary.

(** ** Worlds to run the program in *)

Module World.

Definition cwd : list string := ["home"; "u"].

(** A source root [src] with a document at its top and one in a
    subdirectory. *)
Definition tree : FS :=
  [ (["home"], IDir 0 true);
    (["home"; "u"], IDir 0 true);
    (["home"; "u"; "src"], IDir 1 true);
    (["home"; "u"; "src"; "a"], IDir 2 true);
    (["home"; "u"; "src"; "a"; "doc.md"], IFile 10 "hello");
    (["home"; "u"; "src"; "top.md"], IFile 11 "world");
    (["home"; "u"; "src"; "notes.txt"], IFile 12 "todo") ].

Definition boot (f : FS) : State :=
  {| fs := f; now := 100; calls := 0; translatedCount := 0; skippedCount := 0 |}.

Definition cfg : Config :=
  {| MODEL_NAME := "gemini-2.0-flash"; SOURCE_DIR := "./src";
     BASE_OUTPUT_DIR := "./out"; FORCE_TRANSLATE := false |}.

Definition forced : Config :=
  {| MODEL_NAME := "gemini-2.0-flash"; SOURCE_DIR := "./src";
     BASE_OUTPUT_DIR := "./out"; FORCE_TRANSLATE := true |}.

(** A model named with its collection, as the service lists it. *)
Definition qualified : Config :=
  {| MODEL_NAME := "models/gemini-2.0-flash"; SOURCE_DIR := "src";
     BASE_OUTPUT_DIR := "out"; FORCE_TRANSLATE := false |}.

(** A service that translates everything. *)
Definition obliging (n : nat) (model contents : string) : Response :=
  Responded (Some "JA").

(** A service that rejects its second request and no other. *)
Definition secondFails (n : nat) (model contents : string) : Response :=
  match n with
  | 1 => Rejected "429 Too Many Requests"
  | _ => Responded (Some "JA")
  end.

(** Three documents at the top of the source root. *)
Definition three : FS :=
  [ (["home"], IDir 0 true);
    (["home"; "u"], IDir 0 true);
    (["home"; "u"; "src"], IDir 1 true);
    (["home"; "u"; "src"; "one.md"], IFile 10 "1");
    (["home"; "u"; "src"; "two.md"], IFile 10 "2");
    (["home"; "u"; "src"; "three.md"], IFile 10 "3") ].

(** The tree once [src/top.md] has been translated and nothing else. *)
Definition half : FS :=
  tree ++
  [ (["home"; "u"; "out"], IDir 50 true);
    (["home"; "u"; "out"; "gemini-2.0-flash"], IDir 50 true);
    (["home"; "u"; "out"; "gemini-2.0-flash"; "top.md"], IFile 50 "JA") ].

(** The tree once [src/a/doc.md] has been translated and nothing else. *)
Definition nested : FS :=
  tree ++
  [ (["home"; "u"; "out"], IDir 50 true);
    (["home"; "u"; "out"; "gemini-2.0-flash"], IDir 50 true);
    (["home"; "u"; "out"; "gemini-2.0-flash"; "a"], IDir 50 true);
    (["home"; "u"; "out"; "gemini-2.0-flash"; "a"; "doc.md"], IFile 50 "JA") ].

(** A tree with [src/doc.md] translated, and [src/a/doc.md] not. *)
Definition homonyms : FS :=
  [ (["home"], IDir 0 true);
    (["home"; "u"], IDir 0 true);
    (["home"; "u"; "src"], IDir 1 true);
    (["home"; "u"; "src"; "doc.md"], IFile 10 "top");
    (["home"; "u"; "src"; "a"], IDir 2 true);
    (["home"; "u"; "src"; "a"; "doc.md"], IFile 10 "nested");
    (["home"; "u"; "out"], IDir 50 true);
    (["home"; "u"; "out"; "gemini-2.0-flash"], IDir 50 true);
    (["home"; "u"; "out"; "gemini-2.0-flash"; "doc.md"], IFile 50 "JA") ].

(** A source root with an unreadable directory between two documents, and
    one with a dangling link next to a document. *)
Definition locked : FS :=
  [ (["home"], IDir 0 true);
    (["home"; "u"], IDir 0 true);
    (["home"; "u"; "src"], IDir 1 true);
    (["home"; "u"; "src"; "first.md"], IFile 10 "1");
    (["home"; "u"; "src"; "private"], IDir 2 false);
    (["home"; "u"; "src"; "private"; "secret.md"], IFile 10 "s");
    (["home"; "u"; "src"; "last.markdown"], IFile 10 "2") ].

(** The tree of [three], with a plain file where the output root should
    be. *)
Definition blocked : FS :=
  three ++ [ (["home"; "u"; "out"], IFile 5 "not a directory") ].

(** A source root with a dangling link between two documents. *)
Definition broken : FS :=
  [ (["home"], IDir 0 true);
    (["home"; "u"], IDir 0 true);
    (["home"; "u"; "src"], IDir 1 true);
    (["home"; "u"; "src"; "first.md"], IFile 10 "1");
    (["home"; "u"; "src"; "gone"], IDangling);
    (["home"; "u"; "src"; "last.md"], IFile 10 "2") ].

(** A source root without documents. *)
Definition bare : FS :=
  [ (["home"], IDir 0 true);
    (["home"; "u"], IDir 0 true);
    (["home"; "u"; "src"], IDir 1 true);
    (["home"; "u"; "src"; "notes.txt"], IFile 12 "todo") ].

(** A source root with an empty document. *)
Definition blank : FS :=
  [ (["home"], IDir 0 true);
    (["home"; "u"], IDir 0 true);
    (["home"; "u"; "src"], IDir 1 true);
    (["home"; "u"; "src"; "empty.md"], IFile 10 "") ].

(** A source root that exists and cannot be listed. *)
Definition sealed : FS :=
  [ (["home"], IDir 0 true);
    (["home"; "u"], IDir 0 true);
    (["home"; "u"; "src"], IDir 1 false);
    (["home"; "u"; "src"; "doc.md"], IFile 10 "hello") ].

(** The tree of [half], the content of [src/top.md] changed and its date
    kept. *)
Definition edited : FS :=
  insert ["home"; "u"; "src"; "top.md"] (IFile 11 "world, again") half.

End World.

(** * Properties *)

(** ** Paths *)

Module PathFacts.
Import Path.

Lemma append_nil_r (s : string) : (s ++ "")%string = s.
Proof. induction s; simpl; congruence. Qed.

Lemma append_assoc (a b c : string) :
  ((a ++ b) ++ c)%string = (a ++ (b ++ c))%string.
Proof. induction a; simpl; congruence. Qed.

Lemma split_not_nil (s : string) : split s <> [].
Proof.
  induction s as [|c r IH]; simpl; [discriminate|].
  destruct (Ascii.eqb c slash); [discriminate|].
  destruct (split r); discriminate.
Qed.

Lemma split_app_slash (x y : string) :
  split (x ++ String slash y) = split x ++ split y.
Proof.
  induction x as [|c r IH]; simpl.
  - reflexivity.
  - destruct (Ascii.eqb c slash).
    + rewrite IH. reflexivity.
    + rewrite IH. destruct (split r) eqn:E.
      * now apply split_not_nil in E.
      * reflexivity.
Qed.

Lemma segments_app_slash (x y : string) :
  segments (x ++ String slash y) = segments x ++ segments y.
Proof. unfold segments. rewrite split_app_slash. apply filter_app. Qed.

Lemma segments_leading_slash (s : string) :
  segments (String slash s) = segments s.
Proof.
  unfold segments. simpl. reflexivity.
Qed.

Lemma segments_trailing_slash (s : string) :
  segments (s ++ "/") = segments s.
Proof.
  change "/" with (String slash "").
  rewrite segments_app_slash. unfold segments at 2. simpl.
  apply app_nil_r.
Qed.

Lemma split_noSlash (s : string) : noSlash s = true -> split s = [s].
Proof.
  unfold noSlash. induction s as [|c r IH]; simpl; intros H; [reflexivity|].
  apply andb_true_iff in H as [Hc Hr].
  apply negb_true_iff in Hc. rewrite Hc, (IH Hr). reflexivity.
Qed.

Lemma split_all_noSlash (s : string) : Forall (fun p => noSlash p = true) (split s).
Proof.
  induction s as [|c r IH]; simpl.
  - constructor; [reflexivity|constructor].
  - destruct (Ascii.eqb c slash) eqn:E.
    + constructor; [reflexivity|exact IH].
    + destruct (split r) as [|p ps]; inversion IH; subst.
      * constructor; [|constructor]. unfold noSlash. simpl. now rewrite E.
      * constructor; [|assumption]. unfold noSlash in *. simpl. now rewrite E.
Qed.

Lemma segments_clean (s : string) : Forall (fun p => clean p = true) (segments s).
Proof.
  unfold segments. apply Forall_forall. intros p Hp.
  apply filter_In in Hp as [Hin Hne].
  unfold clean. rewrite Hne. simpl.
  pose proof (split_all_noSlash s) as H.
  rewrite Forall_forall in H. now apply H.
Qed.

Lemma segments_of_clean (s : string) : clean s = true -> segments s = [s].
Proof.
  unfold clean. intros H. apply andb_true_iff in H as [Hne Hns].
  unfold segments. rewrite (split_noSlash _ Hns). simpl. now rewrite Hne.
Qed.

Lemma concat_cons2 (x y : string) (r : list string) :
  String.concat "/" (x :: y :: r) = (x ++ String slash (String.concat "/" (y :: r)))%string.
Proof. reflexivity. Qed.

Lemma segments_concat (l : list string) :
  Forall (fun p => clean p = true) l -> segments (String.concat "/" l) = l.
Proof.
  induction l as [|x r IH]; intros H; [reflexivity|].
  inversion H as [|? ? Hx Hr]; subst.
  destruct r as [|y r].
  - simpl. now apply segments_of_clean.
  - rewrite concat_cons2, segments_app_slash, (IH Hr).
    now rewrite (segments_of_clean _ Hx).
Qed.

Lemma concat_cons_ne (x : string) (l : list string) :
  l <> [] ->
  String.concat "/" (x :: l) = (x ++ String slash (String.concat "/" l))%string.
Proof. destruct l; [congruence|reflexivity]. Qed.

Lemma isAbsolute_app (x y : string) :
  x <> "" -> isAbsolute (x ++ y) = isAbsolute x.
Proof. destruct x; [congruence|reflexivity]. Qed.

Lemma lastChar_app (x y : string) :
  y <> "" -> lastChar (x ++ y) = lastChar y.
Proof.
  intros Hy. induction x as [|c r IH]; [reflexivity|].
  simpl. rewrite IH. destruct (r ++ y)%string eqn:E; [|reflexivity].
  destruct r; simpl in E; [congruence|discriminate].
Qed.

Lemma trailingSlash_app (x y : string) :
  y <> "" -> trailingSlash (x ++ y) = trailingSlash y.
Proof. intros H. unfold trailingSlash. now rewrite lastChar_app. Qed.

(** *** Normalisation of the components *)

Lemma step_keeps (a : bool) (stk : list string) (x : string) :
  keeps a stk -> keeps a (step a stk x).
Proof.
  intros H. unfold step.
  destruct (x =? "..") eqn:E1.
  - destruct stk as [|top rest].
    + destruct a; [|constructor].
      constructor; [|constructor]. repeat split; try discriminate.
    + inversion H; subst.
      destruct (top =? ".."); [|assumption].
      destruct a; [|assumption].
      constructor; [|assumption]. repeat split; try discriminate.
  - destruct (x =? ".") eqn:E2; [assumption|].
    destruct (x =? "") eqn:E3; [assumption|]. simpl.
    apply String.eqb_neq in E1, E2, E3.
    constructor; [|assumption]. repeat split; auto.
Qed.

Lemma fold_keeps (a : bool) (xs stk : list string) :
  keeps a stk -> keeps a (fold_left (step a) xs stk).
Proof.
  revert stk. induction xs as [|x r IH]; intros stk H; [exact H|].
  simpl. apply IH. now apply step_keeps.
Qed.

Lemma step_push (b : bool) (stk : list string) (x : string) :
  x <> "." -> x <> "" -> x <> ".." -> step b stk x = x :: stk.
Proof.
  intros H1 H2 H3. unfold step.
  apply String.eqb_neq in H1, H2, H3. now rewrite H3, H1, H2.
Qed.

Lemma step_pop (b : bool) (stk : list string) (top : string) :
  top <> ".." -> step b (top :: stk) ".." = stk.
Proof.
  intros H. unfold step. simpl. apply String.eqb_neq in H. now rewrite H.
Qed.

Lemma renorm_step (a b : bool) (st stk : list string) (x : string) :
  keeps a stk ->
  a = true \/ (b = false /\ st = []) ->
  fold_left (step b) (rev (step a stk x)) st
  = step b (fold_left (step b) (rev stk) st) x.
Proof.
  intros K Hab.
  destruct (x =? "..") eqn:E1.
  - apply String.eqb_eq in E1. subst x.
    destruct stk as [|top rest].
    + destruct a; simpl; [reflexivity|].
      destruct Hab as [Ha|[Hb Hst]]; [discriminate|]. now subst.
    + inversion K as [|? ? (T1 & T2 & T3) K']; subst.
      destruct (top =? "..") eqn:Et.
      * apply String.eqb_eq in Et. subst top.
        destruct a; [|now exfalso; apply T3].
        unfold step at 2. simpl String.eqb.
        cbn [rev]. rewrite fold_left_app. reflexivity.
      * apply String.eqb_neq in Et.
        rewrite (step_pop a rest top Et).
        cbn [rev]. rewrite fold_left_app. cbn [fold_left].
        rewrite (step_push b _ top T1 T2 Et).
        now rewrite step_pop.
  - unfold step at 2. rewrite E1.
    destruct ((x =? ".") || (x =? "")) eqn:E2.
    + unfold step. now rewrite E1, E2.
    + cbn [rev]. rewrite fold_left_app. reflexivity.
Qed.

(** Normalising again changes nothing, and the components of a normalised
    relative path act on any stack as the path itself does. *)
Lemma renorm (a b : bool) (st xs : list string) :
  a = true \/ (b = false /\ st = []) ->
  fold_left (step b) (rev (fold_left (step a) xs [])) st
  = fold_left (step b) xs st.
Proof.
  intros Hab. induction xs as [|x ys IH] using rev_ind; [reflexivity|].
  rewrite !fold_left_app. cbn [fold_left].
  rewrite renorm_step; [now rewrite IH| |exact Hab].
  apply fold_keeps. constructor.
Qed.

Lemma isName_spec (n : string) :
  isName n = true -> clean n = true /\ n <> "." /\ n <> ".." /\ n <> "".
Proof.
  unfold isName. intros H.
  apply andb_true_iff in H as [H H3]. apply andb_true_iff in H as [H1 H2].
  apply negb_true_iff, String.eqb_neq in H2, H3.
  repeat split; auto.
  intros ->. discriminate.
Qed.

Lemma fold_names (b : bool) (ns st : list string) :
  Forall (fun n => isName n = true) ns ->
  fold_left (step b) ns st = rev ns ++ st.
Proof.
  revert st. induction ns as [|n r IH]; intros st H; [reflexivity|].
  inversion H as [|? ? Hn Hr]; subst.
  apply isName_spec in Hn as (_ & N1 & N2 & N3).
  cbn [fold_left rev]. rewrite step_push by assumption.
  rewrite (IH _ Hr), <- app_assoc. reflexivity.
Qed.

Lemma normSegs_app_names (a : bool) (l ns : list string) :
  Forall (fun n => isName n = true) ns ->
  normSegs a (l ++ ns) = normSegs a l ++ ns.
Proof.
  intros H. unfold normSegs. rewrite fold_left_app, (fold_names _ _ _ H).
  now rewrite rev_app_distr, rev_involutive.
Qed.

Lemma step_clean (a : bool) (stk : list string) (x : string) :
  Forall (fun p => clean p = true) stk -> clean x = true ->
  Forall (fun p => clean p = true) (step a stk x).
Proof.
  intros H Hx. unfold step.
  destruct (x =? "..").
  - destruct stk as [|top rest].
    + destruct a; repeat constructor.
    + inversion H; subst.
      destruct (top =? ".."); [|assumption].
      destruct a; [|assumption]. now constructor.
  - destruct ((x =? ".") || (x =? "")); [assumption|now constructor].
Qed.

Lemma fold_clean (a : bool) (xs stk : list string) :
  Forall (fun p => clean p = true) stk ->
  Forall (fun p => clean p = true) xs ->
  Forall (fun p => clean p = true) (fold_left (step a) xs stk).
Proof.
  revert stk. induction xs as [|x r IH]; intros stk H Hx; [exact H|].
  inversion Hx; subst. simpl. apply IH; [|assumption]. now apply step_clean.
Qed.

Lemma normSegs_clean (a : bool) (xs : list string) :
  Forall (fun p => clean p = true) xs ->
  Forall (fun p => clean p = true) (normSegs a xs).
Proof.
  intros H. unfold normSegs. apply Forall_rev. apply fold_clean; [constructor|exact H].
Qed.

(** *** [normalize] and [join] *)

Lemma clean_not_absolute (x : string) : clean x = true -> isAbsolute x = false.
Proof.
  unfold clean, noSlash. destruct x as [|c r]; [reflexivity|]. simpl.
  intros H. apply andb_true_iff in H as [H _].
  now apply negb_true_iff in H.
Qed.

Lemma clean_not_empty (x : string) : clean x = true -> x <> "".
Proof. intros H ->. discriminate. Qed.

Lemma concat_clean_not_empty (x : string) (r : list string) :
  clean x = true -> String.concat "/" (x :: r) <> "".
Proof.
  intros H. destruct r; [now apply clean_not_empty|].
  rewrite concat_cons2. destruct x; [discriminate H|discriminate].
Qed.

Lemma concat_clean_not_absolute (x : string) (r : list string) :
  clean x = true -> isAbsolute (String.concat "/" (x :: r)) = false.
Proof.
  intros H. destruct r; [now apply clean_not_absolute|].
  rewrite concat_cons2, isAbsolute_app; [now apply clean_not_absolute|].
  now apply clean_not_empty.
Qed.

(** The two shapes of a normalised path. *)
Lemma normalize_cases (p : string) :
  let segs := normSegs (negb (isAbsolute p)) (segments p) in
  ((p = "" \/ segs = []) /\
   ((isAbsolute p = false /\ (normalize p = "." \/ normalize p = "./")) \/
    (isAbsolute p = true /\ normalize p = "/")))
  \/
  (p <> "" /\ (exists x r, segs = x :: r /\ clean x = true) /\
   normalize p = ((if isAbsolute p then "/" else "")
                  ++ String.concat "/" segs
                  ++ (if trailingSlash p then "/" else ""))%string).
Proof.
  intros segs. unfold normalize. fold segs.
  destruct (p =? "") eqn:Ep.
  - left. apply String.eqb_eq in Ep. subst p. auto.
  - apply String.eqb_neq in Ep.
    assert (C : Forall (fun q => clean q = true) segs)
      by (apply normSegs_clean, segments_clean).
    destruct segs as [|x r] eqn:Es.
    + left. split; [now right|]. simpl.
      destruct (isAbsolute p); [auto|]. destruct (trailingSlash p); auto.
    + right. inversion C; subst.
      pose proof (concat_clean_not_empty x r H1) as Hne.
      apply String.eqb_neq in Hne. rewrite Hne.
      repeat split; [assumption|now exists x, r].
Qed.

Lemma normalize_not_empty (p : string) : normalize p <> "".
Proof.
  destruct (normalize_cases p) as [[_ [[_ [H|H]]|[_ H]]]|(_ & (x & r & E & C) & H)];
    rewrite H; try discriminate.
  rewrite E.
  pose proof (concat_clean_not_empty x r C) as Hne.
  destruct (String.concat "/" (x :: r)) as [|c body]; [congruence|].
  destruct (isAbsolute p); cbn; discriminate.
Qed.

Lemma isAbsolute_normalize (p : string) :
  isAbsolute (normalize p) = isAbsolute p.
Proof.
  destruct (normalize_cases p) as [[_ [[Ha [H|H]]|[Ha H]]]|(_ & (x & r & E & C) & H)];
    rewrite H; try (now rewrite Ha).
  rewrite E.
  destruct (isAbsolute p) eqn:Ea; [reflexivity|].
  cbn [append]. rewrite isAbsolute_app; [now apply concat_clean_not_absolute|].
  now apply concat_clean_not_empty.
Qed.

Lemma normalize_segments (p : string) :
  normSegs (negb (isAbsolute p)) (segments p) <> [] ->
  segments (normalize p) = normSegs (negb (isAbsolute p)) (segments p).
Proof.
  intros Hne.
  destruct (normalize_cases p) as [[Hp _]|(Hp & Hs & H)].
  - destruct Hp as [->|Hs]; [now elim Hne|congruence].
  - rewrite H.
    assert (C : Forall (fun q => clean q = true)
                  (normSegs (negb (isAbsolute p)) (segments p)))
      by (apply normSegs_clean, segments_clean).
    assert (S1 : forall body,
               segments ((if isAbsolute p then "/" else "") ++ body)
               = segments body).
    { intros body. destruct (isAbsolute p); [|reflexivity].
      apply segments_leading_slash. }
    rewrite S1.
    assert (S2 : forall body,
               segments (body ++ (if trailingSlash p then "/" else ""))
               = segments body).
    { intros body. destruct (trailingSlash p).
      - apply segments_trailing_slash.
      - now rewrite append_nil_r. }
    rewrite S2. apply segments_concat, C.
Qed.

(** The components of a normalised path act on a stack as the normalised
    components of the path do. *)
Lemma normalize_fold (p : string) (b : bool) (st : list string) :
  fold_left (step b) (segments (normalize p)) st
  = fold_left (step b) (normSegs (negb (isAbsolute p)) (segments p)) st.
Proof.
  destruct (normSegs (negb (isAbsolute p)) (segments p)) as [|x r] eqn:E.
  - destruct (normalize_cases p) as [[_ H]|(_ & (x & r & E' & _) & _)];
      [|congruence].
    destruct H as [[_ [H|H]]|[_ H]]; rewrite H; reflexivity.
  - rewrite normalize_segments; rewrite E; [reflexivity|discriminate].
Qed.

Lemma normalize_fold_segments (p : string) (st : list string) :
  isAbsolute p = false \/ st = [] ->
  fold_left (step false) (segments (normalize p)) st
  = fold_left (step false) (segments p) st.
Proof.
  intros H. rewrite normalize_fold. unfold normSegs. apply renorm.
  destruct H as [-> | ->]; [now left|].
  destruct (isAbsolute p); [now right|now left].
Qed.

(** [path.resolve] sees through [path.normalize]. *)
Lemma resolve_normalize (cwd : list string) (p : string) :
  resolve cwd (normalize p) = resolve cwd p.
Proof.
  unfold resolve. rewrite isAbsolute_normalize.
  destruct (isAbsolute p) eqn:Ea; unfold normSegs.
  - now rewrite normalize_fold_segments by now right.
  - rewrite !fold_left_app. now rewrite normalize_fold_segments by now left.
Qed.

Lemma join_two (d n : string) :
  n <> "" ->
  join [d; n] = normalize (if d =? "" then n else d ++ String slash n).
Proof.
  intros Hn. unfold join. simpl. unfold nonEmpty.
  apply String.eqb_neq in Hn. rewrite Hn.
  destruct (d =? ""); reflexivity.
Qed.

(** A name joined to a directory is one component below it. *)
Lemma resolve_join_name (cwd : list string) (d n : string) :
  isName n = true ->
  resolve cwd (join [d; n]) = resolve cwd d ++ [n].
Proof.
  intros Hn. pose proof (isName_spec n Hn) as (C & _ & _ & Ne).
  rewrite (join_two d n Ne), resolve_normalize.
  assert (F : Forall (fun x => isName x = true) [n]) by now constructor.
  destruct (d =? "") eqn:Ed.
  - apply String.eqb_eq in Ed. subst d.
    unfold resolve. rewrite (clean_not_absolute n C). simpl isAbsolute.
    rewrite (segments_of_clean n C). cbn [segments split filter nonEmpty].
    simpl. rewrite app_nil_r. now apply normSegs_app_names.
  - apply String.eqb_neq in Ed.
    unfold resolve. rewrite (isAbsolute_app d _ Ed), segments_app_slash.
    rewrite (segments_of_clean n C).
    destruct (isAbsolute d).
    + now apply normSegs_app_names.
    + rewrite app_assoc. now apply normSegs_app_names.
Qed.

Lemma last_app_one {A} (l : list A) (x d : A) : last (l ++ [x]) d = x.
Proof.
  induction l as [|y r IH]; [reflexivity|].
  simpl. destruct (r ++ [x]) eqn:E; [|exact IH].
  destruct r; discriminate.
Qed.

Lemma basename_join_name (d n : string) :
  isName n = true -> basename (join [d; n]) = n.
Proof.
  intros Hn. pose proof (isName_spec n Hn) as (C & _ & _ & Ne).
  rewrite (join_two d n Ne). unfold basename.
  assert (F : Forall (fun x => isName x = true) [n]) by now constructor.
  set (p := if d =? "" then n else (d ++ String slash n)%string).
  assert (S : exists l, segments p = l ++ [n]).
  { unfold p. destruct (d =? "").
    - exists []. now apply segments_of_clean.
    - exists (segments d). now rewrite segments_app_slash, (segments_of_clean n C). }
  destruct S as [l Hl].
  assert (E : normSegs (negb (isAbsolute p)) (segments p)
              = normSegs (negb (isAbsolute p)) l ++ [n]).
  { rewrite Hl. now apply normSegs_app_names. }
  rewrite normalize_segments; rewrite E; [apply last_app_one|].
  intros H. now apply app_eq_nil in H as [_ H].
Qed.

(** *** Paths below a directory *)

Lemma resolve_under (cwd : list string) (dir : string) (rel : list string) :
  Forall (fun n => isName n = true) rel ->
  resolve cwd (under dir rel) = resolve cwd dir ++ rel.
Proof.
  unfold under. revert dir. induction rel as [|n r IH]; intros dir H.
  - simpl. now rewrite app_nil_r.
  - inversion H; subst. cbn [fold_left]. rewrite IH by assumption.
    rewrite resolve_join_name by assumption. now rewrite <- app_assoc.
Qed.

Lemma stripCommon_prefix (l r : list string) : stripCommon l (l ++ r) = ([], r).
Proof.
  induction l as [|x l IH]; [now destruct r|].
  simpl. now rewrite String.eqb_refl.
Qed.

Lemma relative_under (cwd : list string) (dir : string) (rel : list string) :
  Forall (fun n => isName n = true) rel ->
  relative cwd dir (under dir rel) = String.concat "/" rel.
Proof.
  intros H. unfold relative.
  destruct (dir =? under dir rel) eqn:E.
  - apply String.eqb_eq in E.
    pose proof (resolve_under cwd dir rel H) as R. rewrite <- E in R.
    rewrite <- (app_nil_r (resolve cwd dir)) in R at 1.
    apply app_inv_head in R. now subst rel.
  - now rewrite (resolve_under cwd dir rel H), stripCommon_prefix.
Qed.

Lemma normalize_ext (p q : string) :
  p <> "" -> q <> "" ->
  isAbsolute p = isAbsolute q ->
  trailingSlash p = trailingSlash q ->
  fold_left (step (negb (isAbsolute p))) (segments p) []
  = fold_left (step (negb (isAbsolute p))) (segments q) [] ->
  normalize p = normalize q.
Proof.
  intros Hp Hq Ha Ht Hs. unfold normalize, normSegs.
  apply String.eqb_neq in Hp, Hq. rewrite Hp, Hq, <- Ha, <- Ht, Hs.
  reflexivity.
Qed.

Lemma normalize_fold_same (p : string) :
  fold_left (step (negb (isAbsolute p))) (segments (normalize p)) []
  = fold_left (step (negb (isAbsolute p))) (segments p) [].
Proof.
  rewrite normalize_fold. unfold normSegs. apply renorm.
  destruct (isAbsolute p); [now right|now left].
Qed.

Lemma filter_nonEmpty_names (rel : list string) :
  Forall (fun n => isName n = true) rel -> filter nonEmpty rel = rel.
Proof.
  induction 1 as [|n r Hn Hr IH]; [reflexivity|].
  apply isName_spec in Hn as (_ & _ & _ & Ne).
  simpl. unfold nonEmpty at 1. apply String.eqb_neq in Ne. rewrite Ne. simpl.
  now rewrite IH.
Qed.

Lemma concat_app (l1 l2 : list string) :
  l1 <> [] -> l2 <> [] ->
  String.concat "/" (l1 ++ l2)
  = (String.concat "/" l1 ++ String slash (String.concat "/" l2))%string.
Proof.
  intros H1 H2. induction l1 as [|x r IH]; [congruence|].
  destruct r as [|z r].
  - simpl app. now apply concat_cons_ne.
  - cbn [app] in *.
    rewrite (concat_cons_ne x (z :: r ++ l2)) by discriminate.
    rewrite IH by discriminate.
    rewrite (concat_cons_ne x (z :: r)) by discriminate.
    now rewrite append_assoc.
Qed.

Lemma filter_nonEmpty_all (l : list string) :
  Forall (fun x => x <> "") (filter nonEmpty l).
Proof.
  apply Forall_forall. intros x Hx. apply filter_In in Hx as [_ Hx].
  unfold nonEmpty in Hx. apply negb_true_iff in Hx. now apply String.eqb_neq.
Qed.

Lemma concat_not_empty (x : string) (r : list string) :
  x <> "" -> String.concat "/" (x :: r) <> "".
Proof.
  intros H. destruct r; [exact H|].
  rewrite concat_cons2. destruct x; [congruence|discriminate].
Qed.

(** Joining the components of a relative path to a joined path is joining
    everything at once. *)
Lemma join_join_names (xs rel : list string) :
  Forall (fun n => isName n = true) rel -> rel <> [] ->
  join [join xs; String.concat "/" rel] = join (xs ++ rel).
Proof.
  intros H Hne. set (y := String.concat "/" rel).
  assert (Hy : y <> "").
  { unfold y. destruct rel as [|n r]; [congruence|].
    inversion H; subst. apply concat_clean_not_empty.
    now apply isName_spec in H2. }
  assert (Hya : isAbsolute y = false).
  { unfold y. destruct rel as [|n r]; [congruence|].
    inversion H; subst. apply concat_clean_not_absolute.
    now apply isName_spec in H2. }
  rewrite (join_two _ y Hy).
  assert (Hj : join xs <> "").
  { unfold join. destruct (filter nonEmpty xs); [discriminate|].
    apply normalize_not_empty. }
  apply String.eqb_neq in Hj. rewrite Hj.
  unfold join at 2. rewrite filter_app, (filter_nonEmpty_names rel H).
  unfold join.
  destruct (filter nonEmpty xs) as [|x r] eqn:Ex.
  - simpl app. destruct rel as [|n rel']; [congruence|]. fold y.
    apply normalize_ext; try discriminate; try assumption.
    + now rewrite Hya.
    + exact (trailingSlash_app "./" y Hy).
    + exact (f_equal (fun l => fold_left (step (negb (isAbsolute ("." ++ String slash y))))
                                 l []) (segments_app_slash "." y)).
  - assert (Hx : x <> "").
    { pose proof (filter_nonEmpty_all xs) as F. rewrite Ex in F. now inversion F. }
    set (X := String.concat "/" (x :: r)).
    assert (HX : X <> "") by now apply concat_not_empty.
    destruct ((x :: r) ++ rel) as [|u v] eqn:Eu; [discriminate|].
    rewrite <- Eu. rewrite concat_app; [|discriminate|assumption].
    fold X. fold y.
    apply normalize_ext.
    + intros E. destruct (normalize X) eqn:En; [|discriminate].
      now apply normalize_not_empty in En.
    + destruct X; [congruence|discriminate].
    + rewrite !isAbsolute_app; [apply isAbsolute_normalize|assumption|].
      apply normalize_not_empty.
    + rewrite !trailingSlash_app; [reflexivity|discriminate|discriminate].
    + rewrite !segments_app_slash, !fold_left_app.
      rewrite isAbsolute_app by apply normalize_not_empty.
      rewrite isAbsolute_normalize. now rewrite normalize_fold_same.
Qed.

End PathFacts.

(** ** The file system *)

Lemma keyEqb_refl (k : list string) : keyEqb k k = true.
Proof. induction k as [|a r IH]; [reflexivity|]. cbn. now rewrite String.eqb_refl. Qed.

Lemma keyEqb_eq (k1 k2 : list string) : keyEqb k1 k2 = true <-> k1 = k2.
Proof.
  split; [|intros ->; apply keyEqb_refl].
  revert k2. induction k1 as [|a r IH]; intros [|b r2] H; try discriminate; [reflexivity|].
  cbn in H. apply andb_true_iff in H as [H1 H2].
  apply String.eqb_eq in H1. apply IH in H2. now subst.
Qed.

Lemma assoc_insert_same (k : list string) (v : Inode) (f : FS) :
  assoc k (insert k v f) = Some v.
Proof.
  induction f as [|[k' v'] r IH]; cbn.
  - now rewrite keyEqb_refl.
  - destruct (keyEqb k k') eqn:E; cbn.
    + now rewrite keyEqb_refl.
    + now rewrite E.
Qed.

Lemma assoc_insert_other (k k' : list string) (v : Inode) (f : FS) :
  keyEqb k k' = false -> assoc k (insert k' v f) = assoc k f.
Proof.
  intros N. induction f as [|[k1 v1] r IH]; cbn.
  - now rewrite N.
  - destruct (keyEqb k' k1) eqn:E; cbn.
    + apply keyEqb_eq in E. subst k1. now rewrite N.
    + now rewrite IH.
Qed.

Lemma lookup_insert_other (k k' : list string) (v : Inode) (f : FS) :
  keyEqb k k' = false -> lookup (insert k' v f) k = lookup f k.
Proof.
  intros N. destruct k; [reflexivity|]. cbn [lookup].
  now apply assoc_insert_other.
Qed.

Lemma lookup_insert_same (k : list string) (v : Inode) (f : FS) :
  k <> [] -> lookup (insert k v f) k = Some v.
Proof.
  intros N. destruct k; [congruence|]. cbn [lookup]. apply assoc_insert_same.
Qed.

(** [mkdir -p] leaves what exists as it is, and what it creates is a
    directory of the day. *)
Lemma mkdirs_lookup (date : Z) (ks : list (list string)) (f : FS) (k : list string) :
  lookup (fst (mkdirs date ks f)) k = lookup f k
  \/ (lookup f k = None /\ lookup (fst (mkdirs date ks f)) k = Some (IDir date true)).
Proof.
  revert f. induction ks as [|k1 r IH]; intros f; [now left|].
  cbn [mkdirs].
  destruct (lookup f k1) as [[m c|m l|m|]|] eqn:E1; try (now left); [apply IH|].
  assert (N1 : k1 <> []) by (intros ->; discriminate E1).
  destruct (IH (insert k1 (IDir date true) f)) as [H|[H1 H2]].
  - rewrite H. destruct (keyEqb k k1) eqn:E.
    + apply keyEqb_eq in E. subst k1. right.
      now rewrite lookup_insert_same.
    + left. now apply lookup_insert_other.
  - destruct (keyEqb k k1) eqn:E.
    + apply keyEqb_eq in E. subst k1.
      rewrite lookup_insert_same in H1 by assumption. discriminate H1.
    + right. rewrite lookup_insert_other in H1 by assumption. now split.
Qed.

Lemma childName_some (dir key : list string) (n : string) :
  childName dir key = Some n -> key = dir ++ [n].
Proof.
  unfold childName. destruct key as [|a r]; [discriminate|].
  destruct (keyEqb (removelast (a :: r)) dir) eqn:E; [|discriminate].
  intros H. injection H as <-. apply keyEqb_eq in E. subst dir.
  apply (@app_removelast_last _ (a :: r) ""). discriminate.
Qed.

Lemma children_in (f : FS) (dir : list string) (n : string) :
  In n (children f dir) -> exists v, In (dir ++ [n], v) f.
Proof.
  unfold children. intros H. apply in_flat_map in H as ([k v] & Hin & Hn).
  cbn [fst] in Hn. destruct (childName dir k) as [n'|] eqn:E; [|contradiction].
  destruct Hn as [->|[]]. apply childName_some in E. subst k. now exists v.
Qed.

Lemma wellFormed_in (f : FS) (k : list string) (v : Inode) :
  wellFormed f = true -> In (k, v) f -> forallb Path.isName k = true.
Proof.
  unfold wellFormed. intros H Hin. rewrite forallb_forall in H.
  exact (H (k, v) Hin).
Qed.

Lemma depth_in (f : FS) (k : list string) (v : Inode) :
  In (k, v) f -> length k <= depth f.
Proof.
  induction f as [|[k' v'] r IH]; [contradiction|].
  intros [H|H]; cbn.
  - injection H as -> ->. apply Nat.le_max_l.
  - etransitivity; [now apply IH|apply Nat.le_max_r].
Qed.

(** ** Runs of the program *)

Section Runs.

Variable cfg : Config.
Variable cwd : list string.
Variable generateContent : nat -> string -> string -> Response.

Lemma isAlreadyTranslated_run (p : string) (s : State) :
  isAlreadyTranslated cfg cwd p s
  = (Ok (upToDate (fs s) (Path.resolve cwd (staleLocation cfg p)) (Path.resolve cwd p)),
     s,
     EvStat (staleLocation cfg p)
       :: match statOf (fs s) (Path.resolve cwd (staleLocation cfg p)) with
          | Some _ => [EvStat p]
          | None => []
          end).
Proof.
  unfold isAlreadyTranslated, staleLocation, upToDate, tryCatch, bind, fs_stat, ret.
  destruct (statOf (fs s) (Path.resolve cwd (Path.join [OUTPUT_DIR cfg; Path.basename p]))) as [o|];
    [|reflexivity].
  destruct (statOf (fs s) (Path.resolve cwd p)) as [i|]; reflexivity.
Qed.

Lemma readMarkdownFile_run (p : string) (s : State) :
  readMarkdownFile cwd p s
  = match readOf (fs s) (Path.resolve cwd p) with
    | inl c => (Ok c, s, [EvReadFile p])
    | inr e => (Ok "", s, [EvReadFile p; EvError (MsgFileReadError p e)])
    end.
Proof.
  unfold readMarkdownFile, tryCatch, fs_readFile.
  destruct (readOf (fs s) (Path.resolve cwd p)); reflexivity.
Qed.

Lemma translateToJapanese_run (text : string) (s : State) :
  translateToJapanese cfg generateContent text s
  = (Ok (adapted (nextResponse cfg generateContent text s)), bumpCalls s,
     EvGenerate (MODEL_NAME cfg) (instruction ++ text)
       :: match nextResponse cfg generateContent text s with
          | Rejected e => [EvError (MsgTranslateError e)]
          | Responded _ => []
          end).
Proof.
  unfold translateToJapanese, tryCatch, bind, ai_generateContent, nextResponse, adapted.
  destruct (generateContent (calls s) (MODEL_NAME cfg) (instruction ++ text));
    reflexivity.
Qed.

Lemma saveTranslatedFile_run (file content : string) (s : State) :
  exists f' t,
    saveTranslatedFile cfg cwd file content s = (Ok tt, withFs s f', t)
    /\ forallb (isSaveEvent cfg cwd file content) t = true.
Proof.
  unfold saveTranslatedFile, tryCatch, bind, fs_mkdir, fs_writeFile,
    console_log, console_error, emit.
  fold (outputLocation cfg cwd file).
  destruct (mkdirs (now s) (prefixes (Path.resolve cwd (OUTPUT_DIR cfg))) (fs s))
    as [f1 ok1].
  destruct ok1.
  2:{ exists f1, [EvMkdir (OUTPUT_DIR cfg); EvError (MsgSaveError file "EEXIST")].
      split; [reflexivity|]. simpl. now rewrite String.eqb_refl. }
  cbn [withFs fs now].
  destruct (mkdirs (now s) (prefixes (Path.resolve cwd (Path.dirname (outputLocation cfg cwd file)))) f1)
    as [f2 ok2].
  destruct ok2.
  2:{ eexists f2, _. split; [reflexivity|]. simpl. now rewrite String.eqb_refl. }
  cbn [withFs fs now].
  destruct (Path.resolve cwd (outputLocation cfg cwd file)) as [|k0 kr] eqn:Ek.
  { eexists f2, _. split; [reflexivity|]. simpl. now rewrite !String.eqb_refl. }
  destruct (lookup f2 (removelast (k0 :: kr))) as [[m c|m l|m|]|];
    try (eexists f2, _; split; [reflexivity|]; simpl; now rewrite !String.eqb_refl).
  destruct (lookup f2 (k0 :: kr)) as [[m' c'|m' l'|m'|]|];
    try (eexists _, _; split; [reflexivity|]; simpl; now rewrite !String.eqb_refl).
Qed.

Lemma saveTranslatedFile_starts (file content : string) (s : State) :
  exists rest,
    traceOf (saveTranslatedFile cfg cwd file content s)
    = EvMkdir (OUTPUT_DIR cfg) :: rest.
Proof.
  unfold saveTranslatedFile, tryCatch, bind, fs_mkdir, fs_writeFile,
    console_log, console_error, emit.
  fold (outputLocation cfg cwd file).
  destruct (mkdirs (now s) (prefixes (Path.resolve cwd (OUTPUT_DIR cfg))) (fs s))
    as [f1 [|]]; [|eexists; reflexivity].
  cbn [withFs fs now].
  destruct (mkdirs (now s)
              (prefixes (Path.resolve cwd (Path.dirname (outputLocation cfg cwd file)))) f1)
    as [f2 [|]]; [|eexists; reflexivity].
  cbn [withFs fs now].
  destruct (Path.resolve cwd (outputLocation cfg cwd file)) as [|k0 kr];
    [eexists; reflexivity|].
  destruct (lookup f2 (removelast (k0 :: kr))) as [[m c|m l|m|]|];
    try (eexists; reflexivity).
  destruct (lookup f2 (k0 :: kr)) as [[m' c'|m' l'|m'|]|];
    eexists; reflexivity.
Qed.

(** When [saveTranslatedFile] reports no error, the file is there, with
    the content and the date of the write. *)
Lemma saveTranslatedFile_persisted (file content : string) (s : State) :
  let run := saveTranslatedFile cfg cwd file content s in
  existsb isErrorEv (traceOf run) = false ->
  lookup (fs (stateOf run)) (Path.resolve cwd (outputLocation cfg cwd file))
  = Some (IFile (now s) content)
  /\ In (EvWriteFile (outputLocation cfg cwd file) content) (traceOf run)
  /\ In (EvLog (MsgSaved (outputLocation cfg cwd file))) (traceOf run).
Proof.
  unfold saveTranslatedFile, tryCatch, bind, fs_mkdir, fs_writeFile,
    console_log, console_error, emit.
  fold (outputLocation cfg cwd file).
  destruct (mkdirs (now s) (prefixes (Path.resolve cwd (OUTPUT_DIR cfg))) (fs s))
    as [f1 ok1].
  destruct ok1; [|cbn; discriminate].
  cbn [withFs fs now].
  destruct (mkdirs (now s)
              (prefixes (Path.resolve cwd (Path.dirname (outputLocation cfg cwd file)))) f1)
    as [f2 ok2].
  destruct ok2; [|cbn; discriminate].
  cbn [withFs fs now].
  destruct (Path.resolve cwd (outputLocation cfg cwd file)) as [|k0 kr] eqn:Ek;
    [cbn; discriminate|].
  destruct (lookup f2 (removelast (k0 :: kr))) as [[m c|m l|m|]|];
    try (cbn; discriminate).
  destruct (lookup f2 (k0 :: kr)) as [[m' c'|m' l'|m'|]|];
    try (cbn; discriminate);
    intros _; cbn [stateOf traceOf fst snd withFs fs lookup];
    (split; [apply assoc_insert_same|]); cbn; tauto.
Qed.

(** The loop body, case by case. *)
Lemma processFile_run (file : string) (s : State) :
  processFile cfg cwd generateContent file s
  = match outcome cfg cwd generateContent file s with
    | Skipped =>
        (Ok tt, bumpSkipped s,
         EvLog (MsgProcessing file) :: checkTrace cfg cwd file s
           ++ [EvLog (MsgSkipped file)])
    | Unread =>
        (Ok tt, s,
         EvLog (MsgProcessing file) :: checkTrace cfg cwd file s ++ readTrace cwd file s)
    | Untranslated =>
        (Ok tt, bumpClock 1000 (bumpCalls s),
         EvLog (MsgProcessing file) :: checkTrace cfg cwd file s ++ readTrace cwd file s
           ++ translateTrace cfg cwd generateContent file s ++ [EvTimeout 1000])
    | Translated =>
        (Ok tt, bumpClock 1000 (bumpTranslated (stateOf (saveRun cfg cwd generateContent file s))),
         EvLog (MsgProcessing file) :: checkTrace cfg cwd file s ++ readTrace cwd file s
           ++ translateTrace cfg cwd generateContent file s ++ traceOf (saveRun cfg cwd generateContent file s)
           ++ [EvTimeout 1000])
    end.
Proof.
  unfold outcome, checkTrace, readTrace, translateTrace, saveRun, translationOf.
  unfold processFile, tryCatch.
  set (K := (content <- readMarkdownFile cwd file ;;
        if content =? "" then ret tt
        else
          translated <- translateToJapanese cfg generateContent content ;;
          (if truthy translated then
             saveTranslatedFile cfg cwd file (toText translated) ;;
             incrTranslated
           else ret tt) ;;
          setTimeout 1000)).
  assert (Rest : K s
    = if contentOf cwd file s =? "" then
        (Ok tt, s, traceOf (readMarkdownFile cwd file s))
      else if truthy (adapted (nextResponse cfg generateContent (contentOf cwd file s) s)) then
        (Ok tt,
         bumpClock 1000 (bumpTranslated (stateOf
           (saveTranslatedFile cfg cwd file
              (toText (adapted (nextResponse cfg generateContent (contentOf cwd file s) s))) (bumpCalls s)))),
         traceOf (readMarkdownFile cwd file s)
            ++ traceOf (translateToJapanese cfg generateContent (contentOf cwd file s) s)
            ++ traceOf (saveTranslatedFile cfg cwd file
                 (toText (adapted (nextResponse cfg generateContent (contentOf cwd file s) s))) (bumpCalls s))
            ++ [EvTimeout 1000])
      else
        (Ok tt, bumpClock 1000 (bumpCalls s),
         traceOf (readMarkdownFile cwd file s)
            ++ traceOf (translateToJapanese cfg generateContent (contentOf cwd file s) s)
            ++ [EvTimeout 1000])).
  { unfold K. unfold bind at 1.
    assert (Rd : readMarkdownFile cwd file s
                 = (Ok (contentOf cwd file s), s, traceOf (readMarkdownFile cwd file s))).
    { rewrite readMarkdownFile_run. unfold contentOf.
      destruct (readOf (fs s) (Path.resolve cwd file)); reflexivity. }
    rewrite Rd at 1.
    destruct (contentOf cwd file s =? "") eqn:Ec.
    { unfold ret. cbn. now rewrite app_nil_r. }
    unfold bind at 1. rewrite translateToJapanese_run at 1.
    destruct (truthy (adapted (nextResponse cfg generateContent (contentOf cwd file s) s))) eqn:Et.
    - destruct (saveTranslatedFile_run file
                  (toText (adapted (nextResponse cfg generateContent (contentOf cwd file s) s)))
                  (bumpCalls s)) as (f' & ts & Es & _).
      unfold bind, incrTranslated, setCounts, setTimeout. rewrite Es.
      rewrite translateToJapanese_run. cbn [traceOf stateOf fst snd].
      rewrite ?app_nil_r, <- ?app_assoc. reflexivity.
    - unfold bind, ret, setTimeout. rewrite translateToJapanese_run.
      cbn [traceOf stateOf fst snd]. rewrite ?app_nil_r, <- ?app_assoc.
      reflexivity. }
  clearbody K.
  unfold bind at 1. unfold console_log at 1, emit at 1.
  destruct (FORCE_TRANSLATE cfg) eqn:Ef; cbn [negb andb].
  - unfold bind, ret. rewrite Rest.
    destruct (contentOf cwd file s =? "");
      [|destruct (truthy (adapted (nextResponse cfg generateContent (contentOf cwd file s) s)))];
      reflexivity.
  - unfold bind at 1. rewrite isAlreadyTranslated_run at 1.
    rewrite isAlreadyTranslated_run. cbn [traceOf snd].
    destruct (upToDate (fs s) (Path.resolve cwd (staleLocation cfg file))
                (Path.resolve cwd file)).
    + unfold bind, console_log, emit, incrSkipped, setCounts.
      cbn -[staleLocation]. rewrite ?app_nil_r. reflexivity.
    + rewrite Rest.
      destruct (contentOf cwd file s =? "");
        [|destruct (truthy (adapted (nextResponse cfg generateContent (contentOf cwd file s) s)))];
        reflexivity.
Qed.

(** The shape of the trace of an item. *)
Lemma processFile_shape (file : string) (s : State) :
  exists tc e1 e2 ts f',
    forallb isStat tc = true
    /\ (FORCE_TRANSLATE cfg = true -> tc = [])
    /\ forallb isErrorEv e1 = true
    /\ forallb isErrorEv e2 = true
    /\ forallb (isSaveEvent cfg cwd file
                  (toText (translationOf cfg cwd generateContent file s))) ts = true
    /\ saveRun cfg cwd generateContent file s = (Ok tt, withFs (bumpCalls s) f', ts)
    /\ processFile cfg cwd generateContent file s
       = match outcome cfg cwd generateContent file s with
         | Skipped =>
             (Ok tt, bumpSkipped s,
              EvLog (MsgProcessing file) :: tc ++ [EvLog (MsgSkipped file)])
         | Unread =>
             (Ok tt, s,
              EvLog (MsgProcessing file) :: tc ++ EvReadFile file :: e1)
         | Untranslated =>
             (Ok tt, bumpClock 1000 (bumpCalls s),
              EvLog (MsgProcessing file) :: tc ++ EvReadFile file :: e1
                ++ EvGenerate (MODEL_NAME cfg)
                     (instruction ++ contentOf cwd file s) :: e2
                ++ [EvTimeout 1000])
         | Translated =>
             (Ok tt,
              bumpClock 1000 (bumpTranslated (withFs (bumpCalls s) f')),
              EvLog (MsgProcessing file) :: tc ++ EvReadFile file :: e1
                ++ EvGenerate (MODEL_NAME cfg)
                     (instruction ++ contentOf cwd file s) :: e2
                ++ ts ++ [EvTimeout 1000])
         end.
Proof.
  destruct (saveTranslatedFile_run file
              (toText (translationOf cfg cwd generateContent file s))
              (bumpCalls s)) as (f' & ts & Es & Hs).
  exists (checkTrace cfg cwd file s).
  exists (match readOf (fs s) (Path.resolve cwd file) with
          | inl _ => []
          | inr e => [EvError (MsgFileReadError file e)]
          end).
  exists (match nextResponse cfg generateContent (contentOf cwd file s) s with
          | Rejected e => [EvError (MsgTranslateError e)]
          | Responded _ => []
          end).
  exists ts, f'.
  repeat split.
  - unfold checkTrace. destruct (FORCE_TRANSLATE cfg); [reflexivity|].
    rewrite isAlreadyTranslated_run. cbn [traceOf snd].
    destruct (statOf _ _); reflexivity.
  - intros F. unfold checkTrace. now rewrite F.
  - destruct (readOf _ _); reflexivity.
  - destruct (nextResponse _ _ _ _); reflexivity.
  - exact Hs.
  - exact Es.
  - rewrite processFile_run. unfold readTrace, translateTrace, saveRun.
    rewrite Es, readMarkdownFile_run, translateToJapanese_run.
    cbn [traceOf stateOf fst snd].
    assert (R : traceOf
                  match readOf (fs s) (Path.resolve cwd file) with
                  | inl c => (@Ok string c, s, [EvReadFile file])
                  | inr e => (Ok "", s,
                              [EvReadFile file; EvError (MsgFileReadError file e)])
                  end
                = EvReadFile file
                    :: match readOf (fs s) (Path.resolve cwd file) with
                       | inl _ => []
                       | inr e => [EvError (MsgFileReadError file e)]
                       end).
    { destruct (readOf _ _); reflexivity. }
    rewrite R.
    destruct (outcome cfg cwd generateContent file s); reflexivity.
Qed.

(** *** The loop *)

Lemma processFile_total (file : string) (s : State) :
  processFile cfg cwd generateContent file s
  = (Ok tt, afterItem cfg cwd generateContent file s,
     traceOf (processFile cfg cwd generateContent file s)).
Proof.
  unfold afterItem.
  destruct (processFile_shape file s) as (tc & e1 & e2 & ts & f' & _ & _ & _ & _ & _ & _ & E).
  rewrite E. destruct (outcome cfg cwd generateContent file s); reflexivity.
Qed.

Lemma forOf_processFile (files : list string) (s : State) :
  forOf files (processFile cfg cwd generateContent) s
  = (Ok tt, afterItems cfg cwd generateContent files s,
     concat (itemTraces cfg cwd generateContent files s)).
Proof.
  revert s. induction files as [|file rest IH]; intros s; [reflexivity|].
  cbn [forOf]. unfold bind. rewrite processFile_total, IH. reflexivity.
Qed.

Lemma processBatchWithDelay_run (files : list string) (s : State) :
  processBatchWithDelay cfg cwd generateContent files s
  = (Ok (translatedCount (afterItems cfg cwd generateContent files (startBatch s)),
         skippedCount (afterItems cfg cwd generateContent files (startBatch s))),
     afterItems cfg cwd generateContent files (startBatch s),
     concat (itemTraces cfg cwd generateContent files (startBatch s))).
Proof.
  unfold processBatchWithDelay, bind at 1. unfold setCounts at 1.
  fold (startBatch s). unfold bind at 1. rewrite forOf_processFile.
  unfold bind, get, ret. cbn. now rewrite !app_nil_r.
Qed.

End Runs.

(** ** The output directory and the output path *)

Lemma forallb_ext {A} (f g : A -> bool) (l : list A) :
  (forall x, f x = g x) -> forallb f l = forallb g l.
Proof. intros H. induction l; simpl; [reflexivity|]. now rewrite H, IHl. Qed.

Lemma replaceAll_chars (cls : ascii -> bool) (c0 : ascii) (s : string) :
  Str.toChars (Str.replaceAll cls (String c0 "") s)
  = map (fun c => if cls c then c0 else c) (Str.toChars s).
Proof.
  induction s as [|c r IH]; [reflexivity|].
  cbn [Str.replaceAll Str.toChars map]. destruct (cls c); cbn; now rewrite IH.
Qed.

Lemma replaceAll_fixed (cls : ascii -> bool) (c0 : ascii) (s : string) :
  cls c0 = false ->
  (Str.replaceAll cls (String c0 "") s = s
   <-> forallb (fun c => negb (cls c)) (Str.toChars s) = true).
Proof.
  intros H0. induction s as [|c r IH]; [now split|].
  cbn [Str.replaceAll Str.toChars forallb].
  destruct (cls c) eqn:Ec; cbn.
  - split; [|discriminate]. intros E. inversion E; subst. congruence.
  - rewrite <- IH. split; intros E; [now injection E|now f_equal].
Qed.

(** C10. The directory of a model under the output root is the model name
    with every character other than a word character, a dot or a hyphen
    replaced by an underscore, one for one; it is the model name itself
    exactly when the name holds no such character; and it is the component
    that [OUTPUT_DIR] joins to the output root. *)
Theorem model_dir_name_sanitized (cfg : Config) :
  let valid := fun c => Str.isWordChar c || Ascii.eqb c "." || Ascii.eqb c "-" in
  Str.toChars (MODEL_DIR_NAME cfg)
  = map (fun c => if valid c then c else "_"%char) (Str.toChars (MODEL_NAME cfg))
  /\ (MODEL_DIR_NAME cfg = MODEL_NAME cfg
      <-> forallb valid (Str.toChars (MODEL_NAME cfg)) = true)
  /\ OUTPUT_DIR cfg = Path.join [BASE_OUTPUT_DIR cfg; MODEL_DIR_NAME cfg].
Proof.
  intros valid. unfold MODEL_DIR_NAME. repeat split.
  - rewrite replaceAll_chars. apply map_ext. intros c.
    unfold invalidChar. fold (valid c). now destruct (valid c).
  - intros E. apply (replaceAll_fixed invalidChar "_") in E; [|reflexivity].
    rewrite <- E. apply forallb_ext. intros c. unfold invalidChar.
    now rewrite negb_involutive.
  - intros E. apply (replaceAll_fixed invalidChar "_"); [reflexivity|].
    rewrite <- E. apply forallb_ext. intros c. unfold invalidChar.
    now rewrite negb_involutive.
Qed.


Lemma forallb_In {A} (f : A -> bool) (l : list A) (x : A) :
  forallb f l = true -> In x l -> f x = true.
Proof. intros H Hin. rewrite forallb_forall in H. now apply H. Qed.

(** For a document directly under the source root, the staleness check
    looks where [saveTranslatedFile] writes. *)
Lemma top_level_locations (cfg : Config) (cwd : list string) (n : string) :
  Path.isName n = true ->
  staleLocation cfg (Path.join [SOURCE_DIR cfg; n])
  = outputLocation cfg cwd (Path.join [SOURCE_DIR cfg; n]).
Proof.
  intros Hn. unfold staleLocation, outputLocation.
  rewrite PathFacts.basename_join_name by assumption.
  change (Path.join [SOURCE_DIR cfg; n]) with (Path.under (SOURCE_DIR cfg) [n]).
  rewrite PathFacts.relative_under by (now constructor). reflexivity.
Qed.

(** C3, as the program has it. For a document [rel] levels below the source
    root (at [S/a/b/doc.md], [rel] is [a; b; doc.md]), whatever the source
    root, the output root and the model name, [saveTranslatedFile] writes to
    one path only, the join of the output root, the directory name of the
    model (the model name with its invalid characters replaced, not the name
    as given) and the components of [rel]; what it writes there is the
    content it was given; and when it reports no error, that path holds a
    file of that content in the file system it leaves. *)
Theorem output_path_mirrors_source
    (cfg : Config) (cwd : list string) (rel : list string)
    (content : string) (s : State) :
  Forall (fun n => Path.isName n = true) rel ->
  rel <> [] ->
  let file := Path.under (SOURCE_DIR cfg) rel in
  let out := Path.join ([BASE_OUTPUT_DIR cfg; MODEL_DIR_NAME cfg] ++ rel) in
  let run := saveTranslatedFile cfg cwd file content s in
  outputLocation cfg cwd file = out
  /\ (forall p c, In (EvWriteFile p c) (traceOf run) -> p = out /\ c = content)
  /\ (existsb isErrorEv (traceOf run) = false ->
      In (EvWriteFile out content) (traceOf run)
      /\ lookup (fs (stateOf run)) (Path.resolve cwd out)
         = Some (IFile (now s) content)).
Proof.
  intros Hrel Hne file out run.
  assert (E : outputLocation cfg cwd file = out).
  { unfold outputLocation, file, out, OUTPUT_DIR.
    rewrite PathFacts.relative_under by assumption.
    now apply PathFacts.join_join_names. }
  split; [exact E|]. split.
  - intros p c Hin. subst run.
    destruct (saveTranslatedFile_run cfg cwd file content s) as (f' & t & Es & Ht).
    rewrite Es in Hin. cbn [traceOf snd] in Hin.
    pose proof (forallb_In _ _ _ Ht Hin) as H. cbn in H.
    apply andb_true_iff in H as [H1 H2].
    apply String.eqb_eq in H1, H2. now rewrite <- E.
  - intros Hok.
    destruct (saveTranslatedFile_persisted cfg cwd file content s Hok)
      as (L & W & _).
    rewrite E in L, W. now split.
Qed.

(** C9. [isAlreadyTranslated] asks for the entry at [OUTPUT_DIR] joined with
    the base name of the source path, then for the source, and answers from
    these two alone; so two documents of one name, in whatever directories,
    are checked against one location, the one of that name directly under
    [OUTPUT_DIR]. *)
Theorem staleness_location_is_basename (cfg : Config) (cwd : list string) :
  (forall p s,
     let consulted := Path.join [OUTPUT_DIR cfg; Path.basename p] in
     exists rest,
       isAlreadyTranslated cfg cwd p s
       = (Ok (upToDate (fs s) (Path.resolve cwd consulted) (Path.resolve cwd p)),
          s, EvStat consulted :: rest)
       /\ (rest = [] \/ rest = [EvStat p]))
  /\ (forall d1 d2 n,
        Path.isName n = true ->
        staleLocation cfg (Path.join [d1; n]) = Path.join [OUTPUT_DIR cfg; n]
        /\ staleLocation cfg (Path.join [d2; n]) = Path.join [OUTPUT_DIR cfg; n]).
Proof.
  split.
  - intros p s consulted. rewrite isAlreadyTranslated_run.
    fold (staleLocation cfg p). eexists. split; [reflexivity|].
    destruct (statOf _ _); auto.
  - intros d1 d2 n Hn. unfold staleLocation.
    now rewrite !PathFacts.basename_join_name.
Qed.

(** ** Traces, sifted *)

Lemma filter_none {A} (P Q : A -> bool) (l : list A) :
  forallb P l = true -> (forall x, P x = true -> Q x = false) ->
  filter Q l = [].
Proof.
  intros H HPQ. induction l as [|x r IH]; [reflexivity|].
  cbn in H. apply andb_true_iff in H as [Hx Hr].
  cbn. rewrite (HPQ x Hx). now apply IH.
Qed.

Lemma existsb_filter {A} (Q : A -> bool) (l : list A) :
  existsb Q l = negb (match filter Q l with [] => true | _ => false end).
Proof.
  induction l as [|x r IH]; [reflexivity|].
  cbn. destruct (Q x); [reflexivity|exact IH].
Qed.

Ltac absurd_class :=
  let e := fresh "e" in
  let H := fresh "H" in
  intros e H; destruct e; cbn in *; try reflexivity; try discriminate H.

Ltac sift :=
  repeat (progress cbn [filter app isStat isRead isGenerate isTimeout isWrite
                        isSkippedMsg isErrorEv]
          || rewrite filter_app).

Section Batch.

Variable cfg : Config.
Variable cwd : list string.
Variable generateContent : nat -> string -> string -> Response.

Lemma afterItems_app (l1 l2 : list string) (s : State) :
  afterItems cfg cwd generateContent (l1 ++ l2) s
  = afterItems cfg cwd generateContent l2
      (afterItems cfg cwd generateContent l1 s).
Proof. unfold afterItems. apply fold_left_app. Qed.

Lemma itemTraces_app (l1 l2 : list string) (s : State) :
  itemTraces cfg cwd generateContent (l1 ++ l2) s
  = itemTraces cfg cwd generateContent l1 s
    ++ itemTraces cfg cwd generateContent l2
         (afterItems cfg cwd generateContent l1 s).
Proof.
  revert s. induction l1 as [|x r IH]; intros s; [reflexivity|].
  cbn [app itemTraces]. now rewrite IH.
Qed.

Lemma outcome_forced (file : string) (s : State) :
  FORCE_TRANSLATE cfg = true ->
  outcome cfg cwd generateContent file s <> Skipped.
Proof.
  intros F. unfold outcome. rewrite F. cbn [negb andb].
  destruct (contentOf cwd file s =? ""); [discriminate|].
  destruct (truthy _); discriminate.
Qed.

(** With force-mode, an item asks for no [stat], is read once, and is not
    skipped. *)
Lemma processFile_forced (file : string) (s : State) :
  FORCE_TRANSLATE cfg = true ->
  let t := traceOf (processFile cfg cwd generateContent file s) in
  skippedCount (afterItem cfg cwd generateContent file s) = skippedCount s
  /\ filter isStat t = []
  /\ filter isRead t = [EvReadFile file]
  /\ filter isSkippedMsg t = [].
Proof.
  intros F t. subst t. unfold afterItem.
  destruct (processFile_shape cfg cwd generateContent file s)
    as (tc & e1 & e2 & ts & f' & _ & Hf & H1 & H2 & Hs & _ & E).
  rewrite (Hf F) in E. rewrite E.
  pose proof (outcome_forced file s F) as NS.
  assert (A1 : forall Q, (forall e, isErrorEv e = true -> Q e = false) ->
                         filter Q e1 = [] /\ filter Q e2 = []).
  { intros Q HQ. split; eapply filter_none; eauto. }
  assert (A2 : forall Q,
             (forall e, isSaveEvent cfg cwd file
                          (toText (translationOf cfg cwd generateContent file s)) e
                        = true -> Q e = false) ->
             filter Q ts = []).
  { intros Q HQ. eapply filter_none; eauto. }
  destruct (A1 isStat) as [S1 S2]; [absurd_class|].
  destruct (A1 isRead) as [R1 R2]; [absurd_class|].
  destruct (A1 isSkippedMsg) as [K1 K2]; [absurd_class|].
  assert (S3 : filter isStat ts = []) by (apply A2; absurd_class).
  assert (R3 : filter isRead ts = []) by (apply A2; absurd_class).
  assert (K3 : filter isSkippedMsg ts = []).
  { apply A2. intros e H. destruct e; cbn in *; try reflexivity; try discriminate H.
    destruct m; cbn in *; try reflexivity; discriminate H. }
  destruct (outcome cfg cwd generateContent file s); [congruence| | |];
    cbn [traceOf stateOf fst snd skippedCount bumpClock bumpCalls bumpTranslated withFs];
    sift; rewrite ?S1, ?S2, ?S3, ?R1, ?R2, ?R3, ?K1, ?K2, ?K3; auto.
Qed.

Lemma batch_forced (files : list string) (s : State) :
  FORCE_TRANSLATE cfg = true ->
  let t := concat (itemTraces cfg cwd generateContent files s) in
  skippedCount (afterItems cfg cwd generateContent files s) = skippedCount s
  /\ filter isStat t = []
  /\ filter isRead t = map EvReadFile files
  /\ filter isSkippedMsg t = [].
Proof.
  intros F. revert s. induction files as [|file rest IH]; intros s; [now cbn|].
  cbn [itemTraces concat afterItems fold_left map].
  destruct (processFile_forced file s F) as (C1 & S1 & R1 & K1).
  destruct (IH (afterItem cfg cwd generateContent file s)) as (C2 & S2 & R2 & K2).
  cbv zeta. rewrite !filter_app, S1, R1, K1, S2, R2, K2.
  unfold afterItems in C2. rewrite C2, C1. auto.
Qed.

Lemma unusable_truthy (r : Response) : unusable r = negb (truthy (adapted r)).
Proof.
  destruct r as [e|[c|]]; cbn; [reflexivity| |reflexivity].
  now rewrite negb_involutive.
Qed.

Lemma outcome_fails (file : string) (s : State) :
  translationFails cfg cwd generateContent file s ->
  outcome cfg cwd generateContent file s = Untranslated.
Proof.
  intros (D & C & U). unfold outcome, due, translationOf in *.
  rewrite unusable_truthy in U. apply negb_true_iff in U.
  apply String.eqb_neq in C. rewrite C, U.
  destruct (FORCE_TRANSLATE cfg); cbn in *; [reflexivity|].
  apply negb_true_iff in D. now rewrite D.
Qed.

Lemma outcome_succeeds (file : string) (s : State) :
  translationSucceeds cfg cwd generateContent file s ->
  outcome cfg cwd generateContent file s = Translated.
Proof.
  intros (D & C & U). unfold outcome, due, translationOf in *.
  rewrite unusable_truthy in U. apply negb_false_iff in U.
  apply String.eqb_neq in C. rewrite C, U.
  destruct (FORCE_TRANSLATE cfg); cbn in *; [reflexivity|].
  apply negb_true_iff in D. now rewrite D.
Qed.

(** A failed translation changes neither the file system nor the
    counters, and asks for no change of the file system. *)
Lemma processFile_fails (file : string) (s : State) :
  translationFails cfg cwd generateContent file s ->
  afterItem cfg cwd generateContent file s = bumpClock 1000 (bumpCalls s)
  /\ filter isWrite (traceOf (processFile cfg cwd generateContent file s)) = [].
Proof.
  intros H. apply outcome_fails in H. unfold afterItem.
  destruct (processFile_shape cfg cwd generateContent file s)
    as (tc & e1 & e2 & ts & f' & Hc & _ & H1 & H2 & _ & _ & E).
  rewrite E, H. cbn [stateOf traceOf fst snd]. split; [reflexivity|].
  assert (W0 : filter isWrite tc = [])
    by (eapply filter_none; [exact Hc|absurd_class]).
  assert (W1 : filter isWrite e1 = [])
    by (eapply filter_none; [exact H1|absurd_class]).
  assert (W2 : filter isWrite e2 = [])
    by (eapply filter_none; [exact H2|absurd_class]).
  sift. now rewrite W0, W1, W2.
Qed.

(** A translation that succeeds is counted, and is stored when
    [saveTranslatedFile] reports no error. *)
Lemma processFile_succeeds (file : string) (s : State) :
  translationSucceeds cfg cwd generateContent file s ->
  let s' := afterItem cfg cwd generateContent file s in
  translatedCount s' = S (translatedCount s)
  /\ skippedCount s' = skippedCount s
  /\ fs s' = fs (stateOf (saveRun cfg cwd generateContent file s))
  /\ forall e, In e (traceOf (saveRun cfg cwd generateContent file s)) ->
               In e (traceOf (processFile cfg cwd generateContent file s)).
Proof.
  intros H s'. subst s'. apply outcome_succeeds in H. unfold afterItem.
  destruct (processFile_shape cfg cwd generateContent file s)
    as (tc & e1 & e2 & ts & f' & _ & _ & _ & _ & _ & Es & E).
  rewrite E, H, Es. cbn [stateOf traceOf fst snd].
  repeat split.
  intros e He. repeat (rewrite in_app_iff || cbn [In]). tauto.
Qed.

(** An item is followed by the delay when, and only when, the service was
    asked for its translation. *)
Lemma processFile_paced (file : string) (s : State) :
  paced file (traceOf (processFile cfg cwd generateContent file s)).
Proof.
  destruct (processFile_shape cfg cwd generateContent file s)
    as (tc & e1 & e2 & ts & f' & Hc & _ & H1 & H2 & Hs & _ & E).
  rewrite E. clear E.
  assert (A1 : forall Q, (forall e, isErrorEv e = true -> Q e = false) ->
                         filter Q e1 = [] /\ filter Q e2 = []).
  { intros Q HQ. split; eapply filter_none; eauto. }
  assert (A2 : forall Q,
             (forall e, isSaveEvent cfg cwd file
                          (toText (translationOf cfg cwd generateContent file s)) e
                        = true -> Q e = false) ->
             filter Q ts = []).
  { intros Q HQ. eapply filter_none; eauto. }
  assert (A3 : forall Q, (forall e, isStat e = true -> Q e = false) ->
                         filter Q tc = []).
  { intros Q HQ. eapply filter_none; eauto. }
  destruct (A1 isGenerate) as [G1 G2]; [absurd_class|].
  destruct (A1 isTimeout) as [T1 T2]; [absurd_class|].
  assert (G3 : filter isGenerate ts = []) by (apply A2; absurd_class).
  assert (T3 : filter isTimeout ts = []) by (apply A2; absurd_class).
  assert (G0 : filter isGenerate tc = []) by (apply A3; absurd_class).
  assert (T0 : filter isTimeout tc = []) by (apply A3; absurd_class).
  unfold paced.
  destruct (outcome cfg cwd generateContent file s); cbn [traceOf snd];
    (split; [eexists; reflexivity|]); rewrite existsb_filter; sift;
    rewrite ?G0, ?G1, ?G2, ?G3; cbn [app negb].
  - sift. now rewrite T0.
  - sift. now rewrite T0, T1.
  - exists (EvLog (MsgProcessing file) :: tc ++ EvReadFile file :: e1
              ++ EvGenerate (MODEL_NAME cfg) (instruction ++ contentOf cwd file s)
              :: e2).
    split.
    + repeat (progress cbn [app] || rewrite <- app_assoc). reflexivity.
    + sift. now rewrite T0, T1, T2.
  - exists (EvLog (MsgProcessing file) :: tc ++ EvReadFile file :: e1
              ++ EvGenerate (MODEL_NAME cfg) (instruction ++ contentOf cwd file s)
              :: e2 ++ ts).
    split.
    + repeat (progress cbn [app] || rewrite <- app_assoc). reflexivity.
    + sift. now rewrite T0, T1, T2, T3.
Qed.

(** The service is asked for a translation unless the item is skipped or
    its content is read as empty. *)
Lemma processFile_asks (file : string) (s : State) :
  existsb isGenerate (traceOf (processFile cfg cwd generateContent file s))
  = match outcome cfg cwd generateContent file s with
    | Skipped | Unread => false
    | Untranslated | Translated => true
    end.
Proof.
  destruct (processFile_shape cfg cwd generateContent file s)
    as (tc & e1 & e2 & ts & f' & Hc & _ & H1 & H2 & Hs & _ & E).
  rewrite E. clear E.
  assert (G0 : filter isGenerate tc = [])
    by (eapply filter_none; [exact Hc|absurd_class]).
  assert (G1 : filter isGenerate e1 = [])
    by (eapply filter_none; [exact H1|absurd_class]).
  destruct (outcome cfg cwd generateContent file s); cbn [traceOf snd];
    rewrite existsb_filter; sift; rewrite ?G0, ?G1; reflexivity.
Qed.

Lemma batch_paced (files : list string) (s : State) :
  Forall2 paced files (itemTraces cfg cwd generateContent files s).
Proof.
  revert s. induction files as [|file rest IH]; intros s; [constructor|].
  cbn [itemTraces]. constructor; [apply processFile_paced|apply IH].
Qed.

(** C5, as the program has it. The trace of a batch is made of one part for
    each document, in order; the part of a document for which the service
    was asked a translation, whether the document ends saved or failed,
    ends with the delay of 1000 ms, the only one of the part, so that the
    delay comes after all that is done for the document and before the next
    one is announced; the part of a document that is skipped, or whose
    content is read as empty, holds no delay. *)
Theorem pacing_follows_requests (files : list string) (s : State) :
  (exists counts s' parts,
     processBatchWithDelay cfg cwd generateContent files s
     = (Ok counts, s', concat parts)
     /\ Forall2 paced files parts)
  /\ (forall file s0,
        let part := traceOf (processFile cfg cwd generateContent file s0) in
        paced file part
        /\ existsb isGenerate part
           = match outcome cfg cwd generateContent file s0 with
             | Skipped | Unread => false
             | Untranslated | Translated => true
             end).
Proof.
  split.
  - rewrite processBatchWithDelay_run.
    eexists _, _, _. split; [reflexivity|]. apply batch_paced.
  - intros file s0 part. split; [apply processFile_paced|apply processFile_asks].
Qed.

(** C4. An unusable answer of the service (a rejection, a response with no
    text or an empty one) makes [translateToJapanese] return a value that
    counts as empty, never throw.  In a batch, an item whose translation
    fails asks for no change of the file system and leaves it and the two
    counters as they were, and the items before and after it are processed
    as the loop processes them, to the end of the batch.  With three items
    of which the second fails to translate while the first and the third
    translate and are saved without error, the batch returns
    [translatedCount] 2 and [skippedCount] 0, and the translations of the
    first and the third are stored at their output locations. *)
Theorem failed_translation_is_isolated :
  (forall text s,
     unusable (nextResponse cfg generateContent text s) = true ->
     exists v t,
       translateToJapanese cfg generateContent text s = (Ok v, bumpCalls s, t)
       /\ truthy v = false)
  /\ (forall pre file post s,
        let s1 := afterItems cfg cwd generateContent pre (startBatch s) in
        translationFails cfg cwd generateContent file s1 ->
        let s2 := afterItem cfg cwd generateContent file s1 in
        let s3 := afterItems cfg cwd generateContent post s2 in
        let part := traceOf (processFile cfg cwd generateContent file s1) in
        filter isWrite part = []
        /\ fs s2 = fs s1
        /\ translatedCount s2 = translatedCount s1
        /\ skippedCount s2 = skippedCount s1
        /\ processBatchWithDelay cfg cwd generateContent (pre ++ file :: post) s
           = (Ok (translatedCount s3, skippedCount s3), s3,
              concat (itemTraces cfg cwd generateContent pre (startBatch s))
                ++ part
                ++ concat (itemTraces cfg cwd generateContent post s2)))
  /\ (forall f1 f2 f3 s,
        let s0 := startBatch s in
        let s1 := afterItem cfg cwd generateContent f1 s0 in
        let s2 := afterItem cfg cwd generateContent f2 s1 in
        let s3 := afterItem cfg cwd generateContent f3 s2 in
        translationSucceeds cfg cwd generateContent f1 s0 ->
        persisted cfg cwd generateContent f1 s0 ->
        translationFails cfg cwd generateContent f2 s1 ->
        translationSucceeds cfg cwd generateContent f3 s2 ->
        persisted cfg cwd generateContent f3 s2 ->
        exists t,
          processBatchWithDelay cfg cwd generateContent [f1; f2; f3] s
          = (Ok (2, 0), s3, t)
          /\ storedAt cfg cwd (fs s1) f1 (now s0)
               (toText (translationOf cfg cwd generateContent f1 s0))
          /\ fs s2 = fs s1
          /\ storedAt cfg cwd (fs s3) f3 (now s2)
               (toText (translationOf cfg cwd generateContent f3 s2))
          /\ In (EvLog (MsgSaved (outputLocation cfg cwd f1))) t
          /\ In (EvLog (MsgSaved (outputLocation cfg cwd f3))) t).
Proof.
  split; [|split].
  - intros text s U. rewrite translateToJapanese_run. eexists _, _.
    split; [reflexivity|].
    rewrite unusable_truthy in U. now apply negb_true_iff in U.
  - intros pre file post s s1 F s2 s3 part.
    destruct (processFile_fails file s1 F) as [E W].
    fold s2 in E. fold part in W.
    split; [exact W|]. do 3 (split; [now rewrite E|]).
    rewrite processBatchWithDelay_run.
    rewrite afterItems_app, itemTraces_app. fold s1.
    cbn [afterItems fold_left itemTraces]. fold s2.
    change (fold_left _ post s2) with s3.
    rewrite concat_app. cbn [concat]. reflexivity.
  - intros f1 f2 f3 s s0 s1 s2 s3 T1 P1 F2 T3 P3.
    destruct (processFile_succeeds f1 s0 T1) as (C1 & K1 & Fs1 & In1).
    destruct (processFile_fails f2 s1 F2) as [E2 _].
    destruct (processFile_succeeds f3 s2 T3) as (C3 & K3 & Fs3 & In3).
    fold s1 in C1, K1, Fs1. fold s2 in E2. fold s3 in C3, K3, Fs3.
    destruct (saveTranslatedFile_persisted cfg cwd f1
                (toText (translationOf cfg cwd generateContent f1 s0))
                (bumpCalls s0) P1) as (L1 & _ & M1).
    destruct (saveTranslatedFile_persisted cfg cwd f3
                (toText (translationOf cfg cwd generateContent f3 s2))
                (bumpCalls s2) P3) as (L3 & _ & M3).
    rewrite processBatchWithDelay_run. fold s0.
    cbn [afterItems fold_left itemTraces concat]. fold s1. fold s2. fold s3.
    assert (C2 : translatedCount s2 = translatedCount s1) by now rewrite E2.
    assert (K2 : skippedCount s2 = skippedCount s1) by now rewrite E2.
    eexists. split; [|repeat split].
    + rewrite C3, K3, C2, K2, C1, K1. reflexivity.
    + unfold storedAt. rewrite Fs1. exact L1.
    + now rewrite E2.
    + unfold storedAt. rewrite Fs3. exact L3.
    + apply in_or_app. left. apply In1. exact M1.
    + apply in_or_app. right. apply in_or_app. right.
      apply in_or_app. left. apply In3. exact M3.
Qed.

End Batch.

(** ** The scanner *)

Section Scanner.

Variable cwd : list string.

Lemma findMarkdownFiles_unfold (fuel : nat) (directory : string) :
  findMarkdownFiles cwd (S fuel) directory
  = tryCatch
      (files <- fs_readdir cwd directory ;;
       forOfPush files [] (visit cwd fuel directory))
      (fun error =>
         console_error (MsgDirReadError directory error) ;;
         ret []).
Proof. reflexivity. Qed.

Lemma fs_readdir_run (directory : string) (s : State) :
  fs_readdir cwd directory s
  = match listing (fs s) (Path.resolve cwd directory) with
    | Some names => (Ok names, s, [EvReaddir directory])
    | None =>
        (Throw match lookup (fs s) (Path.resolve cwd directory) with
               | Some (IDir _ _) => "EACCES"
               | None | Some IDangling => "ENOENT"
               | Some _ => "ENOTDIR"
               end, s, [EvReaddir directory])
    end.
Proof.
  unfold fs_readdir, listing.
  destruct (lookup (fs s) (Path.resolve cwd directory)) as [[m c|m [|]|m|]|];
    reflexivity.
Qed.

Lemma loop_calm (fuel : nat) (directory : string) :
  (forall d s, quiet (findMarkdownFiles cwd fuel d s) s) ->
  forall names acc s,
    calm (forOfPush names acc (visit cwd fuel directory) s) s.
Proof.
  intros IH names. induction names as [|n r IHr]; intros acc s.
  - now split.
  - cbn [forOfPush]. unfold bind at 1. unfold visit at 1.
    unfold bind at 1. unfold fs_stat at 1.
    destruct (statOf (fs s) (Path.resolve cwd (Path.join [directory; n])))
      as [st|]; [|now split].
    destruct (isDirectory st).
    + unfold bind at 1.
      destruct (IH (Path.join [directory; n]) s) as [Hs Hr].
      destruct (findMarkdownFiles cwd fuel (Path.join [directory; n]) s)
        as [[[l|e|c|] s1] t1]; cbn in Hs, Hr; try contradiction; subst s1;
        [|now split].
      unfold ret. cbn [app].
      destruct (IHr (acc ++ l) s) as [Hs' Hr'].
      destruct (forOfPush r (acc ++ l) (visit cwd fuel directory) s)
        as [[r2 s2] t2]. cbn in *. now split.
    + destruct (Str.endsWith n ".md" || Str.endsWith n ".markdown");
        unfold ret;
        match goal with
        | |- context [forOfPush r ?a _ s] =>
            destruct (IHr a s) as [Hs' Hr'];
            destruct (forOfPush r a (visit cwd fuel directory) s)
              as [[r2 s2] t2]; cbn in *; now split
        end.
Qed.

(** The scanner changes nothing and neither throws nor exits. *)
Lemma findMarkdownFiles_quiet (fuel : nat) :
  forall directory s, quiet (findMarkdownFiles cwd fuel directory s) s.
Proof.
  induction fuel as [|fuel IH]; intros directory s; [now split|].
  rewrite findMarkdownFiles_unfold. unfold tryCatch, bind at 1.
  rewrite fs_readdir_run.
  destruct (listing (fs s) (Path.resolve cwd directory)) as [names|];
    [|now split].
  destruct (loop_calm fuel directory IH names [] s) as [Hs Hr].
  destruct (forOfPush names [] (visit cwd fuel directory) s)
    as [[[l|e|c|] s1] t1]; cbn in Hs, Hr; try contradiction; subst s1;
    now split.
Qed.

(** A directory that cannot be read gives no file, and a diagnostic. *)
Lemma findMarkdownFiles_unreadable (fuel : nat) (directory : string) (s : State) :
  listing (fs s) (Path.resolve cwd directory) = None ->
  exists e,
    findMarkdownFiles cwd (S fuel) directory s
    = (Ok [], s, [EvReaddir directory; EvError (MsgDirReadError directory e)]).
Proof.
  intros H. rewrite findMarkdownFiles_unfold. unfold tryCatch, bind at 1.
  rewrite fs_readdir_run, H. eexists. reflexivity.
Qed.

(** Each entry adds its own files to those of the entries before it. *)
Lemma loop_contributions (fuel : nat) (directory : string) :
  forall names acc s v,
    (forall n, In n names ->
       statOf (fs s) (Path.resolve cwd (Path.join [directory; n])) <> None) ->
    resultOf (forOfPush names acc (visit cwd fuel directory) s) = Ok v ->
    v = acc ++ flat_map (contribution cwd fuel directory s) names.
Proof.
  induction names as [|n r IHr]; intros acc s v Hst Hv.
  - cbn in Hv. injection Hv as <-. cbn. now rewrite app_nil_r.
  - cbn [forOfPush] in Hv. unfold bind at 1 in Hv. unfold visit at 1 in Hv.
    unfold bind at 1 in Hv. unfold fs_stat at 1 in Hv.
    cbn [flat_map]. unfold contribution at 1.
    pose proof (Hst n (or_introl eq_refl)) as Hn.
    destruct (statOf (fs s) (Path.resolve cwd (Path.join [directory; n])))
      as [st|]; [|congruence].
    assert (Hr : forall n0, In n0 r ->
               statOf (fs s) (Path.resolve cwd (Path.join [directory; n0])) <> None)
      by (intros n0 H0; apply Hst; now right).
    destruct (isDirectory st).
    + unfold bind at 1 in Hv. unfold found.
      destruct (findMarkdownFiles_quiet fuel (Path.join [directory; n]) s)
        as [Hs Hq].
      destruct (findMarkdownFiles cwd fuel (Path.join [directory; n]) s)
        as [[[l|e|c|] s1] t1]; cbn in Hs, Hq; try contradiction; subst s1;
        [|discriminate Hv].
      unfold ret in Hv. cbn [app resultOf fst] in *.
      destruct (forOfPush r (acc ++ l) (visit cwd fuel directory) s)
        as [[r2 s2] t2] eqn:E. cbn in Hv. subst r2.
      rewrite app_assoc. apply IHr; [exact Hr|]. now rewrite E.
    + destruct (Str.endsWith n ".md" || Str.endsWith n ".markdown");
        unfold ret in Hv; cbn [app] in Hv.
      * destruct (forOfPush r (acc ++ [Path.join [directory; n]])
                    (visit cwd fuel directory) s) as [[r2 s2] t2] eqn:E.
        cbn in Hv. subst r2.
        rewrite app_assoc. apply IHr; [exact Hr|]. now rewrite E.
      * destruct (forOfPush r acc (visit cwd fuel directory) s)
          as [[r2 s2] t2] eqn:E.
        cbn in Hv. subst r2. apply IHr; [exact Hr|]. now rewrite E.
Qed.

Lemma findMarkdownFiles_contributions (fuel : nat) (directory : string)
    (s : State) (names v : list string) :
  listing (fs s) (Path.resolve cwd directory) = Some names ->
  (forall n, In n names ->
     statOf (fs s) (Path.resolve cwd (Path.join [directory; n])) <> None) ->
  resultOf (findMarkdownFiles cwd (S fuel) directory s) = Ok v ->
  v = flat_map (contribution cwd fuel directory s) names.
Proof.
  intros Hl Hst Hv. rewrite findMarkdownFiles_unfold in Hv.
  unfold tryCatch, bind at 1 in Hv. rewrite fs_readdir_run, Hl in Hv.
  destruct (forOfPush names [] (visit cwd fuel directory) s)
    as [[[l|e|c|] s1] t1] eqn:E; cbn in Hv; try discriminate Hv.
  - injection Hv as <-.
    apply (loop_contributions fuel directory names [] s l Hst).
    now rewrite E.
  - exfalso.
    assert (N : forall names acc e0,
              (forall n, In n names ->
                 statOf (fs s) (Path.resolve cwd (Path.join [directory; n])) <> None) ->
              resultOf (forOfPush names acc (visit cwd fuel directory) s)
              <> Throw e0).
    { clear. intros names. induction names as [|n r IHr]; intros acc e0 Hst;
        [discriminate|].
      cbn [forOfPush]. unfold bind at 1. unfold visit at 1.
      unfold bind at 1. unfold fs_stat at 1.
      pose proof (Hst n (or_introl eq_refl)) as Hn.
      destruct (statOf (fs s) (Path.resolve cwd (Path.join [directory; n])))
        as [st|]; [|congruence].
      assert (Hr : forall n0, In n0 r ->
                 statOf (fs s) (Path.resolve cwd (Path.join [directory; n0])) <> None)
        by (intros n0 H0; apply Hst; now right).
      destruct (isDirectory st).
      - unfold bind at 1.
        destruct (findMarkdownFiles_quiet fuel (Path.join [directory; n]) s)
          as [Hs Hq].
        destruct (findMarkdownFiles cwd fuel (Path.join [directory; n]) s)
          as [[[l|e|c|] s1] t1]; cbn in Hs, Hq; try contradiction; subst s1;
          [|discriminate].
        unfold ret.
        pose proof (IHr (acc ++ l) e0 Hr) as IHa.
        destruct (forOfPush r (acc ++ l) (visit cwd fuel directory) s)
          as [[r2 s2] t2]. exact IHa.
      - destruct (Str.endsWith n ".md" || Str.endsWith n ".markdown");
          unfold ret;
          match goal with
          | |- context [forOfPush r ?a _ s] =>
              pose proof (IHr a e0 Hr) as IHa;
              destruct (forOfPush r a (visit cwd fuel directory) s)
                as [[r2 s2] t2]; exact IHa
          end. }
    apply (N names [] e Hst). now rewrite E.
Qed.

(** *** The scanner returns *)

Lemma child_of_listed (s : State) (directory n : string) :
  wellFormed (fs s) = true ->
  In n (children (fs s) (Path.resolve cwd directory)) ->
  Path.resolve cwd (Path.join [directory; n]) = Path.resolve cwd directory ++ [n]
  /\ S (length (Path.resolve cwd directory)) <= depth (fs s).
Proof.
  intros W Hin. apply children_in in Hin as [v Hv].
  pose proof (wellFormed_in _ _ _ W Hv) as Hk.
  pose proof (depth_in _ _ _ Hv) as Hd.
  rewrite forallb_app in Hk. apply andb_true_iff in Hk as [_ Hn].
  cbn in Hn. rewrite andb_true_r in Hn.
  split; [now apply PathFacts.resolve_join_name|].
  rewrite length_app in Hd. cbn in Hd. lia.
Qed.

Lemma loop_returns (fuel : nat) (directory : string) (s : State) :
  wellFormed (fs s) = true ->
  depth (fs s) < S fuel + length (Path.resolve cwd directory) ->
  (forall d,
     0 < fuel ->
     depth (fs s) < fuel + length (Path.resolve cwd d) ->
     resultOf (findMarkdownFiles cwd fuel d s) <> Diverge) ->
  forall names acc,
    (forall n, In n names -> In n (children (fs s) (Path.resolve cwd directory))) ->
    resultOf (forOfPush names acc (visit cwd fuel directory) s) <> Diverge.
Proof.
  intros W D IH names. induction names as [|n r IHr]; intros acc Hin;
    [discriminate|].
  cbn [forOfPush]. unfold bind at 1. unfold visit at 1.
  unfold bind at 1. unfold fs_stat at 1.
  destruct (statOf (fs s) (Path.resolve cwd (Path.join [directory; n])))
    as [st|]; [|discriminate].
  assert (Hr : forall n0, In n0 r ->
             In n0 (children (fs s) (Path.resolve cwd directory)))
    by (intros n0 H0; apply Hin; now right).
  destruct (isDirectory st).
  - unfold bind at 1.
    destruct (child_of_listed s directory n W (Hin n (or_introl eq_refl)))
      as [Ek Hd].
    assert (N : resultOf (findMarkdownFiles cwd fuel (Path.join [directory; n]) s)
                <> Diverge).
    { apply IH; [lia|]. rewrite Ek, length_app. cbn. lia. }
    destruct (findMarkdownFiles_quiet fuel (Path.join [directory; n]) s)
      as [Hs Hq].
    destruct (findMarkdownFiles cwd fuel (Path.join [directory; n]) s)
      as [[[l|e|c|] s1] t1]; cbn in Hs, Hq, N; try contradiction;
      try congruence; subst s1.
    unfold ret.
    pose proof (IHr (acc ++ l) Hr) as IHa.
    destruct (forOfPush r (acc ++ l) (visit cwd fuel directory) s)
      as [[r2 s2] t2]. exact IHa.
  - destruct (Str.endsWith n ".md" || Str.endsWith n ".markdown");
      unfold ret;
      match goal with
      | |- context [forOfPush r ?a _ s] =>
          pose proof (IHr a Hr) as IHa;
          destruct (forOfPush r a (visit cwd fuel directory) s)
            as [[r2 s2] t2]; exact IHa
      end.
Qed.

(** With fuel for the depth of the tree below the directory, the recursion
    ends. *)
Lemma findMarkdownFiles_returns (fuel : nat) :
  forall directory s,
    wellFormed (fs s) = true ->
    0 < fuel ->
    depth (fs s) < fuel + length (Path.resolve cwd directory) ->
    resultOf (findMarkdownFiles cwd fuel directory s) <> Diverge.
Proof.
  induction fuel as [|fuel IH]; intros directory s W F D; [lia|].
  rewrite findMarkdownFiles_unfold. unfold tryCatch, bind at 1.
  rewrite fs_readdir_run.
  destruct (listing (fs s) (Path.resolve cwd directory)) as [names|] eqn:L;
    [|discriminate].
  assert (N : resultOf (forOfPush names [] (visit cwd fuel directory) s)
              <> Diverge).
  { apply loop_returns; try assumption.
    - intros d F' D'. now apply IH.
    - intros n Hn. unfold listing in L.
      destruct (lookup (fs s) (Path.resolve cwd directory)) as [[?|? [|]|?|]|];
        try discriminate. now injection L as <-. }
  destruct (forOfPush names [] (visit cwd fuel directory) s)
    as [[[l|e|c|] s1] t1]; cbn in N |- *; congruence.
Qed.

(** More fuel changes nothing to a recursion that ends. *)
Lemma visit_more_fuel (fuel : nat) (directory n : string)
    (acc : list string) (s : State) :
  (forall d s,
     resultOf (findMarkdownFiles cwd fuel d s) <> Diverge ->
     findMarkdownFiles cwd (S fuel) d s = findMarkdownFiles cwd fuel d s) ->
  resultOf (visit cwd fuel directory n acc s) <> Diverge ->
  visit cwd (S fuel) directory n acc s = visit cwd fuel directory n acc s.
Proof.
  intros IH N. unfold visit, bind, fs_stat in *.
  destruct (statOf (fs s) (Path.resolve cwd (Path.join [directory; n])))
    as [st|]; [|reflexivity].
  destruct (isDirectory st); [|reflexivity].
  rewrite IH; [reflexivity|].
  intros Hd. apply N.
  destruct (findMarkdownFiles cwd fuel (Path.join [directory; n]) s)
    as [[[l|e|c|] s1] t1]; cbn in Hd; try discriminate. reflexivity.
Qed.

Lemma loop_more_fuel (fuel : nat) (directory : string) :
  (forall d s,
     resultOf (findMarkdownFiles cwd fuel d s) <> Diverge ->
     findMarkdownFiles cwd (S fuel) d s = findMarkdownFiles cwd fuel d s) ->
  forall names acc s,
    resultOf (forOfPush names acc (visit cwd fuel directory) s) <> Diverge ->
    forOfPush names acc (visit cwd (S fuel) directory) s
    = forOfPush names acc (visit cwd fuel directory) s.
Proof.
  intros IH names. induction names as [|n r IHr]; intros acc s N;
    [reflexivity|].
  cbn [forOfPush] in *. unfold bind in *.
  assert (V : resultOf (visit cwd fuel directory n acc s) <> Diverge).
  { intros Hd. apply N.
    destruct (visit cwd fuel directory n acc s) as [[[a|e|c|] s1] t1];
      cbn in Hd; try discriminate. reflexivity. }
  rewrite (visit_more_fuel fuel directory n acc s IH V).
  destruct (visit cwd fuel directory n acc s) as [[[a|e|c|] s1] t1];
    try reflexivity.
  rewrite IHr; [reflexivity|].
  destruct (forOfPush r a (visit cwd fuel directory) s1) as [[r2 s2] t2].
  exact N.
Qed.

Lemma findMarkdownFiles_more_fuel (fuel : nat) :
  forall directory s,
    resultOf (findMarkdownFiles cwd fuel directory s) <> Diverge ->
    findMarkdownFiles cwd (S fuel) directory s
    = findMarkdownFiles cwd fuel directory s.
Proof.
  induction fuel as [|fuel IH]; intros directory s N; [now elim N|].
  rewrite (findMarkdownFiles_unfold (S fuel)).
  rewrite (findMarkdownFiles_unfold fuel) in N |- *.
  unfold tryCatch, bind in N |- *.
  rewrite fs_readdir_run in N |- *.
  destruct (listing (fs s) (Path.resolve cwd directory)) as [names|];
    [|reflexivity].
  rewrite (loop_more_fuel fuel directory IH); [reflexivity|].
  destruct (forOfPush names [] (visit cwd fuel directory) s)
    as [[[l|e|c|] s1] t1]; cbn in N |- *; congruence.
Qed.

Lemma findMarkdownFiles_fuel_enough (fuel extra : nat) (directory : string)
    (s : State) :
  resultOf (findMarkdownFiles cwd fuel directory s) <> Diverge ->
  findMarkdownFiles cwd (extra + fuel) directory s
  = findMarkdownFiles cwd fuel directory s.
Proof.
  intros N. induction extra as [|k IH]; [reflexivity|].
  cbn [Nat.add]. rewrite findMarkdownFiles_more_fuel; [exact IH|].
  now rewrite IH.
Qed.

(** C7. The scanner never throws and changes nothing.  With fuel for the
    depth of the file system it returns a list of files, the same with any
    more fuel.  A directory that cannot be read (missing, not a directory,
    not listable), the root included, gives the empty list and a
    diagnostic.  The files of a directory whose entries can all be examined
    are the files its entries contribute, one entry after the other, each
    contribution depending on that entry alone; a subdirectory that cannot
    be read contributes nothing, and the entries before and after it
    contribute what they contribute anyway. *)
Theorem scanner_contains_read_errors :
  (forall fuel directory s,
     stateOf (findMarkdownFiles cwd fuel directory s) = s
     /\ (forall e, resultOf (findMarkdownFiles cwd fuel directory s) <> Throw e)
     /\ (forall c, resultOf (findMarkdownFiles cwd fuel directory s) <> Exit c))
  /\ (forall fuel directory s,
        wellFormed (fs s) = true ->
        depth (fs s) < fuel ->
        exists files,
          resultOf (findMarkdownFiles cwd fuel directory s) = Ok files
          /\ forall extra,
               findMarkdownFiles cwd (extra + fuel) directory s
               = findMarkdownFiles cwd fuel directory s)
  /\ (forall fuel directory s,
        listing (fs s) (Path.resolve cwd directory) = None ->
        exists e,
          findMarkdownFiles cwd (S fuel) directory s
          = (Ok [], s,
             [EvReaddir directory; EvError (MsgDirReadError directory e)]))
  /\ (forall fuel directory s names files,
        listing (fs s) (Path.resolve cwd directory) = Some names ->
        (forall n, In n names ->
           statOf (fs s) (Path.resolve cwd (Path.join [directory; n])) <> None) ->
        resultOf (findMarkdownFiles cwd (S fuel) directory s) = Ok files ->
        files = flat_map (contribution cwd fuel directory s) names)
  /\ (forall fuel directory s n st,
        statOf (fs s) (Path.resolve cwd (Path.join [directory; n])) = Some st ->
        isDirectory st = true ->
        listing (fs s) (Path.resolve cwd (Path.join [directory; n])) = None ->
        contribution cwd (S fuel) directory s n = []).
Proof.
  split; [|split; [|split; [|split]]].
  - intros fuel directory s.
    destruct (findMarkdownFiles_quiet fuel directory s) as [Hs H].
    split; [exact Hs|].
    split; [intros e E|intros c E]; now rewrite E in H.
  - intros fuel directory s W D.
    assert (N : resultOf (findMarkdownFiles cwd fuel directory s) <> Diverge)
      by (apply findMarkdownFiles_returns; [assumption|lia|lia]).
    destruct (findMarkdownFiles_quiet fuel directory s) as [_ H].
    destruct (resultOf (findMarkdownFiles cwd fuel directory s)) as [l|e|c|] eqn:E;
      try contradiction; try congruence.
    exists l. split; [reflexivity|].
    intros extra. apply findMarkdownFiles_fuel_enough. congruence.
  - intros fuel directory s. apply findMarkdownFiles_unreadable.
  - intros fuel directory s names files.
    apply findMarkdownFiles_contributions.
  - intros fuel directory s n st Hst Hd Hl. unfold contribution.
    rewrite Hst, Hd. unfold found.
    destruct (findMarkdownFiles_unreadable fuel _ s Hl) as [e E].
    now rewrite E.
Qed.

End Scanner.

(** ** The whole run *)

Section Run.

Variable cfg : Config.
Variable cwd : list string.
Variable generateContent : nat -> string -> string -> Response.

(** Once the scanner has returned, nothing stops [translateMarkdownFiles]. *)
Lemma translateMarkdownFiles_result (fuel : nat) (s : State) :
  resultOf (translateMarkdownFiles cfg cwd generateContent fuel s)
  = match resultOf (findMarkdownFiles cwd fuel (SOURCE_DIR cfg) s) with
    | Diverge => Diverge
    | _ => Ok tt
    end.
Proof.
  unfold translateMarkdownFiles, tryCatch, bind, console_log, emit.
  destruct (findMarkdownFiles_quiet cwd fuel (SOURCE_DIR cfg) s) as [Hs Hq].
  destruct (findMarkdownFiles cwd fuel (SOURCE_DIR cfg) s)
    as [[[l|e|c|] s1] t1]; cbn in Hs, Hq; try contradiction; [|reflexivity].
  destruct (length l =? 0)%nat; [reflexivity|].
  destruct (FORCE_TRANSLATE cfg); unfold ret;
    rewrite processBatchWithDelay_run; reflexivity.
Qed.

(** C6. When the source root cannot be accessed, the run exits with code 1
    having asked for nothing else than that access and having written two
    lines to the console: no request to the translation service, no change
    to the file system, no item processed.  When it can be accessed, the
    run does not exit: it ends normally, provided the recursion of the
    scanner has fuel for the depth of the file system. *)
Theorem missing_root_aborts (fuel : nat) (s : State) :
  (accessible (fs s) (Path.resolve cwd (SOURCE_DIR cfg)) = false ->
   main cfg cwd generateContent fuel s
   = (Exit 1, s,
      [EvAccess (SOURCE_DIR cfg);
       EvError (MsgNoSourceDir (SOURCE_DIR cfg));
       EvLog MsgHint]))
  /\ (accessible (fs s) (Path.resolve cwd (SOURCE_DIR cfg)) = true ->
      (forall c, resultOf (main cfg cwd generateContent fuel s) <> Exit c)
      /\ (forall e, resultOf (main cfg cwd generateContent fuel s) <> Throw e)
      /\ (wellFormed (fs s) = true -> depth (fs s) < fuel ->
          resultOf (main cfg cwd generateContent fuel s) = Ok tt)).
Proof.
  assert (R : accessible (fs s) (Path.resolve cwd (SOURCE_DIR cfg)) = true ->
              resultOf (main cfg cwd generateContent fuel s)
              = resultOf (translateMarkdownFiles cfg cwd generateContent fuel s)).
  { intros A. unfold main, checkSourceDirectory, tryCatch, bind, fs_access.
    unfold accessible in A.
    destruct (lookup (fs s) (Path.resolve cwd (SOURCE_DIR cfg)))
      as [[m c|m l|m|]|]; try discriminate A;
      destruct (translateMarkdownFiles cfg cwd generateContent fuel s)
        as [[[u|e|c0|] s1] t1] eqn:E;
      try reflexivity;
      pose proof (translateMarkdownFiles_result fuel s) as T;
      rewrite E in T; cbn in T;
      destruct (resultOf (findMarkdownFiles cwd fuel (SOURCE_DIR cfg) s));
      discriminate T. }
  split.
  - intros A. unfold main, checkSourceDirectory, tryCatch, bind, fs_access.
    unfold accessible in A.
    destruct (lookup (fs s) (Path.resolve cwd (SOURCE_DIR cfg)))
      as [[m c|m l|m|]|]; try discriminate A; reflexivity.
  - intros A. rewrite (R A), translateMarkdownFiles_result.
    split; [|split].
    + intros c. destruct (resultOf (findMarkdownFiles _ _ _ _)); discriminate.
    + intros e. destruct (resultOf (findMarkdownFiles _ _ _ _)); discriminate.
    + intros W D.
      pose proof (findMarkdownFiles_returns cwd fuel (SOURCE_DIR cfg) s W) as N.
      destruct (resultOf (findMarkdownFiles cwd fuel (SOURCE_DIR cfg) s));
        try reflexivity.
      exfalso. apply N; [lia|lia|reflexivity].
Qed.

End Run.

(** ** The properties at work *)

(** C1. The tree of [World.tree] is translated twice in a row, without
    force-mode and with the same output root and model.  The first run
    translates the two documents and stores the translation of
    [src/a/doc.md] at [out/gemini-2.0-flash/a/doc.md].  The second run,
    over the unchanged sources, skips [src/top.md] and translates
    [src/a/doc.md] again: the staleness check looks for its translation at
    [out/gemini-2.0-flash/doc.md], where no run wrote it. *)
Lemma second_run_retranslates_nested :
  let first := main World.cfg World.cwd World.obliging 5 (World.boot World.tree) in
  let second := main World.cfg World.cwd World.obliging 5 (stateOf first) in
  resultOf first = Ok tt
  /\ translatedCount (stateOf first) = 2
  /\ storedAt World.cfg World.cwd (fs (stateOf first)) "src/a/doc.md" 100 "JA"
  /\ statOf (fs (stateOf first)) ["home"; "u"; "src"; "a"; "doc.md"]
     = Some {| kind := KFile; mtime := 10 |}
  /\ resultOf second = Ok tt
  /\ translatedCount (stateOf second) = 1
  /\ skippedCount (stateOf second) = 1
  /\ In (EvStat "out/gemini-2.0-flash/doc.md") (traceOf second)
  /\ In (EvWriteFile "out/gemini-2.0-flash/a/doc.md" "JA") (traceOf second)
  /\ In (EvLog (MsgSkipped "src/top.md")) (traceOf second).
Proof.
  vm_compute. repeat split; tauto.
Qed.

(** C2. In [World.nested] the output location of [src/a/doc.md] holds a
    file more recent than the source, and [isAlreadyTranslated] answers
    [false]; in [World.homonyms] it holds nothing, and
    [isAlreadyTranslated] answers [true], on the strength of the
    translation of [src/doc.md]. *)
Lemma staleness_check_misses_output_location :
  outputLocation World.cfg World.cwd "src/a/doc.md"
  = "out/gemini-2.0-flash/a/doc.md"
  /\ statOf World.nested
       (Path.resolve World.cwd (outputLocation World.cfg World.cwd "src/a/doc.md"))
     = Some {| kind := KFile; mtime := 50 |}
  /\ statOf World.nested (Path.resolve World.cwd "src/a/doc.md")
     = Some {| kind := KFile; mtime := 10 |}
  /\ resultOf (isAlreadyTranslated World.cfg World.cwd "src/a/doc.md"
                 (World.boot World.nested)) = Ok false
  /\ statOf World.homonyms
       (Path.resolve World.cwd (outputLocation World.cfg World.cwd "src/a/doc.md"))
     = None
  /\ resultOf (isAlreadyTranslated World.cfg World.cwd "src/a/doc.md"
                 (World.boot World.homonyms)) = Ok true.
Proof.
  vm_compute. repeat split.
Qed.

(** C3, as the claim has it, fails for a model named
    [models/gemini-2.0-flash]: the document at [src/a/b/doc.md] is written to
    [out/models_gemini-2.0-flash/a/b/doc.md], and nothing is written to the
    path made of the output root, the model name as given and the relative
    path. *)
Lemma output_path_verbatim_counterexample :
  let run := saveTranslatedFile World.qualified World.cwd
               (Path.under (SOURCE_DIR World.qualified) ["a"; "b"; "doc.md"])
               "JA" (World.boot World.tree) in
  let claimed := (BASE_OUTPUT_DIR World.qualified ++ "/"
                  ++ MODEL_NAME World.qualified ++ "/a/b/doc.md")%string in
  In (EvWriteFile "out/models_gemini-2.0-flash/a/b/doc.md" "JA") (traceOf run)
  /\ ~ In (EvWriteFile claimed "JA") (traceOf run)
  /\ storedAt World.qualified World.cwd (fs (stateOf run)) "src/a/b/doc.md" 100 "JA"
  /\ lookup (fs (stateOf run)) (Path.resolve World.cwd claimed) = None.
Proof.
  vm_compute. repeat split; try tauto.
  intros [H|[H|[H|[H|[]]]]]; discriminate H.
Qed.

Lemma output_path_mirrors_source_witness :
  let run := saveTranslatedFile World.qualified World.cwd "src/a/b/doc.md"
               "JA" (World.boot World.tree) in
  Forall (fun n => Path.isName n = true) ["a"; "b"; "doc.md"]
  /\ ["a"; "b"; "doc.md"] <> []
  /\ existsb isErrorEv (traceOf run) = false
  /\ outputLocation World.qualified World.cwd "src/a/b/doc.md"
     = "out/models_gemini-2.0-flash/a/b/doc.md"
  /\ (forall p c,
        In (EvWriteFile p c) (traceOf run) ->
        p = "out/models_gemini-2.0-flash/a/b/doc.md" /\ c = "JA")
  /\ In (EvWriteFile "out/models_gemini-2.0-flash/a/b/doc.md" "JA") (traceOf run)
  /\ lookup (fs (stateOf run))
       ["home"; "u"; "out"; "models_gemini-2.0-flash"; "a"; "b"; "doc.md"]
     = Some (IFile 100 "JA").
Proof.
  intros run.
  assert (N : Forall (fun n => Path.isName n = true) ["a"; "b"; "doc.md"])
    by (repeat constructor).
  assert (E : ["a"; "b"; "doc.md"] <> []) by discriminate.
  assert (K : existsb isErrorEv (traceOf run) = false) by reflexivity.
  split; [exact N|]. split; [exact E|]. split; [exact K|].
  destruct (output_path_mirrors_source World.qualified World.cwd
              ["a"; "b"; "doc.md"] "JA" (World.boot World.tree) N E)
    as (A & B & C).
  split; [exact A|]. split; [exact B|]. exact (C K).
Defined.

Lemma staleness_location_is_basename_witness :
  Path.isName "doc.md" = true
  /\ staleLocation World.cfg "src/doc.md" = "out/gemini-2.0-flash/doc.md"
  /\ staleLocation World.cfg "src/a/doc.md" = "out/gemini-2.0-flash/doc.md".
Proof.
  split; [reflexivity|].
  exact (proj2 (staleness_location_is_basename World.cfg World.cwd)
           "src" "src/a" "doc.md" eq_refl).
Defined.

(** C5, as the claim has it, fails for a skipped item: the batch made of
    the one document [src/top.md], already translated, skips it and ends
    without any delay. *)
Lemma pacing_after_skipped_counterexample :
  let run := processBatchWithDelay World.cfg World.cwd World.obliging
               ["src/top.md"] (World.boot World.half) in
  resultOf run = Ok (0, 1)
  /\ In (EvLog (MsgSkipped "src/top.md")) (traceOf run)
  /\ filter isTimeout (traceOf run) = [].
Proof.
  vm_compute. repeat split; tauto.
Qed.

Lemma failed_translation_is_isolated_witness :
  let s0 := startBatch (World.boot World.three) in
  let s1 := afterItem World.cfg World.cwd World.secondFails "src/one.md" s0 in
  let s2 := afterItem World.cfg World.cwd World.secondFails "src/two.md" s1 in
  translationSucceeds World.cfg World.cwd World.secondFails "src/one.md" s0
  /\ persisted World.cfg World.cwd World.secondFails "src/one.md" s0
  /\ translationFails World.cfg World.cwd World.secondFails "src/two.md" s1
  /\ translationSucceeds World.cfg World.cwd World.secondFails "src/three.md" s2
  /\ persisted World.cfg World.cwd World.secondFails "src/three.md" s2
  /\ resultOf (processBatchWithDelay World.cfg World.cwd World.secondFails
                 ["src/one.md"; "src/two.md"; "src/three.md"]
                 (World.boot World.three)) = Ok (2, 0)
  /\ filter isWrite
       (traceOf (processFile World.cfg World.cwd World.secondFails
                   "src/two.md" s1)) = []
  /\ (exists v t,
        translateToJapanese World.cfg World.secondFails "2" s1
        = (Ok v, bumpCalls s1, t) /\ truthy v = false).
Proof.
  intros s0 s1 s2.
  assert (T1 : translationSucceeds World.cfg World.cwd World.secondFails
                 "src/one.md" s0)
    by (vm_compute; repeat split; discriminate).
  assert (P1 : persisted World.cfg World.cwd World.secondFails "src/one.md" s0)
    by (vm_compute; reflexivity).
  assert (F2 : translationFails World.cfg World.cwd World.secondFails
                 "src/two.md" s1)
    by (vm_compute; repeat split; discriminate).
  assert (T3 : translationSucceeds World.cfg World.cwd World.secondFails
                 "src/three.md" s2)
    by (vm_compute; repeat split; discriminate).
  assert (P3 : persisted World.cfg World.cwd World.secondFails "src/three.md" s2)
    by (vm_compute; reflexivity).
  pose proof (failed_translation_is_isolated World.cfg World.cwd World.secondFails)
    as (A & B & C).
  do 5 (split; [assumption|]).
  split; [|split].
  - destruct (C "src/one.md" "src/two.md" "src/three.md" (World.boot World.three)
               T1 P1 F2 T3 P3) as (t & E & _).
    rewrite E. reflexivity.
  - exact (proj1 (B ["src/one.md"] "src/two.md" ["src/three.md"]
                    (World.boot World.three) F2)).
  - apply A. vm_compute. reflexivity.
Defined.

Lemma missing_root_aborts_witness :
  accessible [] (Path.resolve World.cwd (SOURCE_DIR World.cfg)) = false
  /\ main World.cfg World.cwd World.obliging 5 (World.boot [])
     = (Exit 1, World.boot [],
        [EvAccess "./src"; EvError (MsgNoSourceDir "./src"); EvLog MsgHint])
  /\ accessible World.tree (Path.resolve World.cwd (SOURCE_DIR World.cfg)) = true
  /\ wellFormed World.tree = true
  /\ depth World.tree < 6
  /\ resultOf (main World.cfg World.cwd World.obliging 6 (World.boot World.tree))
     = Ok tt.
Proof.
  assert (A0 : accessible [] (Path.resolve World.cwd (SOURCE_DIR World.cfg)) = false)
    by reflexivity.
  assert (A1 : accessible World.tree (Path.resolve World.cwd (SOURCE_DIR World.cfg))
               = true) by reflexivity.
  assert (W : wellFormed World.tree = true) by reflexivity.
  assert (D : depth World.tree < 6) by (vm_compute; lia).
  split; [exact A0|].
  split; [exact (proj1 (missing_root_aborts World.cfg World.cwd World.obliging 5
                          (World.boot [])) A0)|].
  do 3 (split; [assumption|]).
  exact (proj2 (proj2 (proj2 (missing_root_aborts World.cfg World.cwd
                                World.obliging 6 (World.boot World.tree)) A1))
           W D).
Defined.

Lemma scanner_contains_read_errors_witness :
  wellFormed World.locked = true
  /\ depth World.locked < 6
  /\ listing World.locked (Path.resolve World.cwd "src/private") = None
  /\ (exists files,
        resultOf (findMarkdownFiles World.cwd 6 "./src" (World.boot World.locked))
        = Ok files)
  /\ (exists e,
        findMarkdownFiles World.cwd 5 "src/private" (World.boot World.locked)
        = (Ok [], World.boot World.locked,
           [EvReaddir "src/private";
            EvError (MsgDirReadError "src/private" e)]))
  /\ contribution World.cwd 5 "./src" (World.boot World.locked) "private" = []
  /\ found World.cwd 6 "./src" (World.boot World.locked)
     = ["src/first.md"; "src/last.markdown"].
Proof.
  assert (W : wellFormed World.locked = true) by reflexivity.
  assert (D : depth World.locked < 6) by (vm_compute; lia).
  assert (L : listing World.locked (Path.resolve World.cwd "src/private") = None)
    by reflexivity.
  pose proof (scanner_contains_read_errors World.cwd) as (_ & R & U & C & N).
  do 3 (split; [assumption|]).
  split; [|split; [|split]].
  - destruct (R 6 "./src" (World.boot World.locked) W D) as (files & E & _).
    now exists files.
  - exact (U 4 "src/private" (World.boot World.locked) L).
  - exact (N 4 "./src" (World.boot World.locked) "private"
             {| kind := KDir; mtime := 2 |} eq_refl eq_refl L).
  - assert (E : resultOf (findMarkdownFiles World.cwd 6 "./src"
                            (World.boot World.locked))
                = Ok (found World.cwd 6 "./src" (World.boot World.locked)))
      by (vm_compute; reflexivity).
    rewrite (C 5 "./src" (World.boot World.locked)
               ["first.md"; "private"; "last.markdown"] _ eq_refl
               ltac:(intros n [<-|[<-|[<-|[]]]]; vm_compute; discriminate) E).
    vm_compute. reflexivity.
Defined.

(** ** Further properties of the program *)

Section Further.

Variable cfg : Config.
Variable cwd : list string.
Variable generateContent : nat -> string -> string -> Response.

Lemma processFile_counts (file : string) (s : State) :
  let s' := afterItem cfg cwd generateContent file s in
  translatedCount s' + skippedCount s' <= S (translatedCount s + skippedCount s)
  /\ translatedCount s <= translatedCount s'
  /\ skippedCount s <= skippedCount s'.
Proof.
  unfold afterItem.
  destruct (processFile_shape cfg cwd generateContent file s)
    as (tc & e1 & e2 & ts & f' & _ & _ & _ & _ & _ & _ & E).
  rewrite E. destruct (outcome cfg cwd generateContent file s); cbn; lia.
Qed.

Lemma batch_counts (files : list string) (s : State) :
  let s' := afterItems cfg cwd generateContent files s in
  translatedCount s' + skippedCount s'
  <= length files + (translatedCount s + skippedCount s)
  /\ translatedCount s <= translatedCount s'
  /\ skippedCount s <= skippedCount s'.
Proof.
  revert s. induction files as [|file rest IH]; intros s; [cbn; lia|].
  cbn [afterItems fold_left length].
  pose proof (processFile_counts file s) as H.
  pose proof (IH (afterItem cfg cwd generateContent file s)) as H'.
  cbv zeta in *. unfold afterItems in H'. lia.
Qed.

(** X2. The batch always returns, and its two counters together count no
    more than the documents of the batch: a document is counted at most
    once. *)
Theorem counters_bounded_by_batch (files : list string) (s : State) :
  exists t k s' tr,
    processBatchWithDelay cfg cwd generateContent files s = (Ok (t, k), s', tr)
    /\ t + k <= length files.
Proof.
  rewrite processBatchWithDelay_run. eexists _, _, _, _.
  split; [reflexivity|].
  pose proof (batch_counts files (startBatch s)) as H. cbn in H. lia.
Qed.

(** What [readMarkdownFile] returns, and what it asks when it returns a
    content. *)
Lemma readMarkdownFile_content (file : string) (s : State) (content : string) :
  resultOf (readMarkdownFile cwd file s) = Ok content ->
  content = contentOf cwd file s
  /\ (content <> "" -> traceOf (readMarkdownFile cwd file s) = [EvReadFile file]).
Proof.
  rewrite readMarkdownFile_run. unfold contentOf.
  destruct (readOf (fs s) (Path.resolve cwd file)) as [c|e]; cbn;
    intros E; injection E as <-; split; auto.
  intros N. now elim N.
Qed.

(** An item that is due, whose content is not empty and for which the
    service gives a text: the text is handed to [saveTranslatedFile] and the
    item is counted. *)
Lemma processFile_translated (file : string) (s : State) (content text : string) :
  due cfg cwd file s = true ->
  resultOf (readMarkdownFile cwd file s) = Ok content ->
  content <> "" ->
  generateContent (calls s) (MODEL_NAME cfg) (instruction ++ content)
  = Responded (Some text) ->
  text <> "" ->
  processFile cfg cwd generateContent file s
  = (Ok tt,
     bumpClock 1000
       (bumpTranslated (stateOf (saveTranslatedFile cfg cwd file text (bumpCalls s)))),
     EvLog (MsgProcessing file) :: checkTrace cfg cwd file s
       ++ [EvReadFile file;
           EvGenerate (MODEL_NAME cfg) (instruction ++ content)]
       ++ traceOf (saveTranslatedFile cfg cwd file text (bumpCalls s))
       ++ [EvTimeout 1000]).
Proof.
  intros D R Nc G Nt.
  destruct (readMarkdownFile_content file s content R) as [Ec Rt].
  specialize (Rt Nc). subst content.
  assert (Nx : nextResponse cfg generateContent (contentOf cwd file s) s
               = Responded (Some text)) by exact G.
  assert (O : outcome cfg cwd generateContent file s = Translated).
  { unfold outcome, translationOf. rewrite Nx. cbn [adapted truthy].
    apply String.eqb_neq in Nc, Nt. rewrite Nc, Nt. cbn [negb].
    unfold due in D. destruct (FORCE_TRANSLATE cfg); cbn in *; [reflexivity|].
    apply negb_true_iff in D. now rewrite D. }
  rewrite processFile_run, O. unfold readTrace, translateTrace, saveRun, translationOf.
  rewrite Rt, translateToJapanese_run, Nx. cbn [adapted toText traceOf snd].
  repeat (progress cbn [app] || rewrite <- app_assoc). reflexivity.
Qed.

(** The same, when the service gives no text. *)
Lemma processFile_untranslated (file : string) (s : State) (content : string) :
  due cfg cwd file s = true ->
  resultOf (readMarkdownFile cwd file s) = Ok content ->
  content <> "" ->
  unusable (generateContent (calls s) (MODEL_NAME cfg) (instruction ++ content))
  = true ->
  exists e2,
    forallb isErrorEv e2 = true
    /\ processFile cfg cwd generateContent file s
       = (Ok tt, bumpClock 1000 (bumpCalls s),
          EvLog (MsgProcessing file) :: checkTrace cfg cwd file s
            ++ [EvReadFile file;
                EvGenerate (MODEL_NAME cfg) (instruction ++ content)]
            ++ e2 ++ [EvTimeout 1000]).
Proof.
  intros D R Nc U.
  destruct (readMarkdownFile_content file s content R) as [Ec Rt].
  specialize (Rt Nc). subst content.
  assert (F : translationFails cfg cwd generateContent file s)
    by (repeat split; assumption).
  rewrite processFile_run, (outcome_fails cfg cwd generateContent file s F).
  unfold readTrace, translateTrace. rewrite Rt, translateToJapanese_run.
  cbn [traceOf snd].
  exists (match nextResponse cfg generateContent (contentOf cwd file s) s with
          | Rejected e => [EvError (MsgTranslateError e)]
          | Responded _ => []
          end).
  split; [destruct (nextResponse _ _ _ _); reflexivity|].
  repeat (progress cbn [app] || rewrite <- app_assoc). reflexivity.
Qed.

(** X3. When a document is due, has content and gets a text from the
    service, the loop body calls [saveTranslatedFile] with that text, right
    after the request and before the delay: the part of the trace between
    the request and the delay is the trace of that call, which opens with
    the [mkdir] of [OUTPUT_DIR]; and the document is counted once in
    [translatedCount], and not in [skippedCount], whatever the call
    reports, an error included. *)
Theorem translation_counted_once_handed_over (file : string) (s : State) :
  translationSucceeds cfg cwd generateContent file s ->
  exists text tc,
    generateContent (calls s) (MODEL_NAME cfg) (instruction ++ contentOf cwd file s)
    = Responded (Some text)
    /\ forallb isStat tc = true
    /\ processFile cfg cwd generateContent file s
       = (Ok tt,
          bumpClock 1000
            (bumpTranslated
               (stateOf (saveTranslatedFile cfg cwd file text (bumpCalls s)))),
          EvLog (MsgProcessing file) :: tc
            ++ [EvReadFile file;
                EvGenerate (MODEL_NAME cfg) (instruction ++ contentOf cwd file s)]
            ++ traceOf (saveTranslatedFile cfg cwd file text (bumpCalls s))
            ++ [EvTimeout 1000])
    /\ (exists rest,
          traceOf (saveTranslatedFile cfg cwd file text (bumpCalls s))
          = EvMkdir (OUTPUT_DIR cfg) :: rest)
    /\ translatedCount (afterItem cfg cwd generateContent file s)
       = S (translatedCount s)
    /\ skippedCount (afterItem cfg cwd generateContent file s) = skippedCount s.
Proof.
  intros T. pose proof T as (D & Nc & U).
  unfold nextResponse in U.
  destruct (generateContent (calls s) (MODEL_NAME cfg)
              (instruction ++ contentOf cwd file s)) as [e|[text|]] eqn:G;
    try discriminate U.
  cbn in U. apply String.eqb_neq in U.
  assert (R : resultOf (readMarkdownFile cwd file s) = Ok (contentOf cwd file s)).
  { rewrite readMarkdownFile_run. unfold contentOf.
    destruct (readOf (fs s) (Path.resolve cwd file)); reflexivity. }
  pose proof (processFile_translated file s _ text D R Nc G U) as E.
  exists text, (checkTrace cfg cwd file s).
  split; [reflexivity|]. split.
  { unfold checkTrace. destruct (FORCE_TRANSLATE cfg); [reflexivity|].
    rewrite isAlreadyTranslated_run. cbn [traceOf snd].
    destruct (statOf _ _); reflexivity. }
  split; [exact E|]. split; [apply saveTranslatedFile_starts|].
  destruct (processFile_succeeds cfg cwd generateContent file s T)
    as (C & K & _ & _).
  split; [exact C|exact K].
Qed.

End Further.

Section Listing.

Variable cfg : Config.
Variable cwd : list string.
Variable generateContent : nat -> string -> string -> Response.

Lemma loop_unstatable (fuel : nat) (directory : string) (s : State) :
  forall names acc,
    (exists n, In n names
               /\ statOf (fs s) (Path.resolve cwd (Path.join [directory; n])) = None) ->
    match resultOf (forOfPush names acc (visit cwd fuel directory) s) with
    | Throw _ | Diverge => True
    | Ok _ | Exit _ => False
    end.
Proof.
  induction names as [|n0 r IHr]; intros acc (n & Hin & Hn); [contradiction|].
  cbn [forOfPush]. unfold bind at 1. unfold visit at 1.
  unfold bind at 1. unfold fs_stat at 1.
  destruct (statOf (fs s) (Path.resolve cwd (Path.join [directory; n0])))
    as [st|] eqn:E0; [|exact I].
  assert (Hr : exists n, In n r
               /\ statOf (fs s) (Path.resolve cwd (Path.join [directory; n])) = None).
  { destruct Hin as [->|Hin]; [congruence|]. now exists n. }
  destruct (isDirectory st).
  - unfold bind at 1.
    destruct (findMarkdownFiles_quiet cwd fuel (Path.join [directory; n0]) s)
      as [Hs Hq].
    destruct (findMarkdownFiles cwd fuel (Path.join [directory; n0]) s)
      as [[[l|e|c|] s1] t1]; cbn in Hs, Hq; try contradiction; subst s1;
      [|exact I].
    unfold ret.
    pose proof (IHr (acc ++ l) Hr) as IHa.
    destruct (forOfPush r (acc ++ l) (visit cwd fuel directory) s)
      as [[r2 s2] t2]. exact IHa.
  - destruct (Str.endsWith n0 ".md" || Str.endsWith n0 ".markdown");
      unfold ret;
      match goal with
      | |- context [forOfPush r ?a _ s] =>
          pose proof (IHr a Hr) as IHa;
          destruct (forOfPush r a (visit cwd fuel directory) s)
            as [[r2 s2] t2]; exact IHa
      end.
Qed.

(** X4. A directory that lists an entry which cannot be examined (a
    dangling link) gives no file at all, whatever its other entries hold:
    the failure is caught by the call that reads the directory. *)
Theorem unexaminable_entry_empties_directory
    (fuel : nat) (directory : string) (s : State) (names : list string) :
  listing (fs s) (Path.resolve cwd directory) = Some names ->
  (exists n, In n names
             /\ statOf (fs s) (Path.resolve cwd (Path.join [directory; n])) = None) ->
  resultOf (findMarkdownFiles cwd (S fuel) directory s) <> Diverge ->
  resultOf (findMarkdownFiles cwd (S fuel) directory s) = Ok [].
Proof.
  intros L H N. rewrite findMarkdownFiles_unfold in N |- *.
  unfold tryCatch, bind in N |- *. rewrite fs_readdir_run, L in N |- *.
  pose proof (loop_unstatable fuel directory s names [] H) as U.
  destruct (forOfPush names [] (visit cwd fuel directory) s)
    as [[[l|e|c|] s1] t1]; cbn in U, N |- *; try contradiction; congruence.
Qed.

Lemma loop_scan_events (fuel : nat) (directory : string) :
  (forall d s, forallb isScanEvent (traceOf (findMarkdownFiles cwd fuel d s)) = true) ->
  forall names acc s,
    forallb isScanEvent
      (traceOf (forOfPush names acc (visit cwd fuel directory) s)) = true.
Proof.
  intros IH names. induction names as [|n r IHr]; intros acc s; [reflexivity|].
  cbn [forOfPush]. unfold bind at 1. unfold visit at 1.
  unfold bind at 1. unfold fs_stat at 1.
  destruct (statOf (fs s) (Path.resolve cwd (Path.join [directory; n])))
    as [st|]; [|reflexivity].
  destruct (isDirectory st).
  - unfold bind at 1.
    pose proof (IH (Path.join [directory; n]) s) as Hd.
    destruct (findMarkdownFiles cwd fuel (Path.join [directory; n]) s)
      as [[[l|e|c|] s1] t1]; cbn [traceOf snd] in Hd |- *;
      try (cbn; exact Hd).
    unfold ret.
    pose proof (IHr (acc ++ l) s1) as IHa.
    destruct (forOfPush r (acc ++ l) (visit cwd fuel directory) s1)
      as [[r2 s2] t2]. cbn [traceOf snd] in IHa |- *.
    cbn [app forallb isScanEvent andb]. rewrite app_nil_r, forallb_app.
    now rewrite Hd, IHa.
  - destruct (Str.endsWith n ".md" || Str.endsWith n ".markdown");
      unfold ret;
      match goal with
      | |- context [forOfPush r ?a _ s] =>
          pose proof (IHr a s) as IHa;
          destruct (forOfPush r a (visit cwd fuel directory) s)
            as [[r2 s2] t2]; cbn [traceOf snd] in IHa |- *;
          cbn; exact IHa
      end.
Qed.

Lemma findMarkdownFiles_scan_events (fuel : nat) :
  forall directory s,
    forallb isScanEvent (traceOf (findMarkdownFiles cwd fuel directory s)) = true.
Proof.
  induction fuel as [|fuel IH]; intros directory s; [reflexivity|].
  rewrite findMarkdownFiles_unfold. unfold tryCatch, bind at 1.
  rewrite fs_readdir_run.
  destruct (listing (fs s) (Path.resolve cwd directory)) as [names|];
    [|reflexivity].
  pose proof (loop_scan_events fuel directory IH names [] s) as H.
  destruct (forOfPush names [] (visit cwd fuel directory) s)
    as [[[l|e|c|] s1] t1]; cbn [traceOf snd] in H |- *; cbn;
    try exact H.
  rewrite forallb_app, H. reflexivity.
Qed.

(** X5. When the scanner finds no document, the run says so and stops: the
    state is left as it was, the service is asked nothing and no change of
    the file system is asked for. *)
Theorem empty_tree_completes (fuel : nat) (s : State) :
  resultOf (findMarkdownFiles cwd fuel (SOURCE_DIR cfg) s) = Ok [] ->
  exists t,
    translateMarkdownFiles cfg cwd generateContent fuel s = (Ok tt, s, t)
    /\ In (EvLog MsgNoneFound) t
    /\ filter isGenerate t = []
    /\ filter isWrite t = [].
Proof.
  intros E. unfold translateMarkdownFiles, tryCatch, bind, console_log, emit.
  destruct (findMarkdownFiles_quiet cwd fuel (SOURCE_DIR cfg) s) as [Hs _].
  pose proof (findMarkdownFiles_scan_events fuel (SOURCE_DIR cfg) s) as Hev.
  destruct (findMarkdownFiles cwd fuel (SOURCE_DIR cfg) s) as [[r s1] t1].
  cbn in E, Hs, Hev. subst r s1. cbn [length Nat.eqb].
  eexists. split; [reflexivity|].
  assert (G : filter isGenerate t1 = [])
    by (eapply filter_none; [exact Hev|absurd_class]).
  assert (W : filter isWrite t1 = [])
    by (eapply filter_none; [exact Hev|absurd_class]).
  split; [|split].
  - cbn. right. apply in_or_app. right. now left.
  - sift. now rewrite G.
  - sift. now rewrite W.
Qed.

End Listing.

(** ** Two runs in a row *)

Section Idempotence.

Variable cfg : Config.
Variable cwd : list string.
Variable generateContent : nat -> string -> string -> Response.

(** What [saveTranslatedFile] leaves under a key: what was there, or a new
    directory, or, at the output location, the new file. *)
Lemma saveTranslatedFile_frame (file content : string) (s : State)
    (k : list string) :
  let f' := fs (stateOf (saveTranslatedFile cfg cwd file content s)) in
  lookup f' k = lookup (fs s) k
  \/ (lookup (fs s) k = None /\ lookup f' k = Some (IDir (now s) true))
  \/ (k = Path.resolve cwd (outputLocation cfg cwd file)
      /\ lookup f' k = Some (IFile (now s) content)).
Proof.
  unfold saveTranslatedFile, tryCatch, bind, fs_mkdir, fs_writeFile,
    console_log, console_error, emit.
  fold (outputLocation cfg cwd file).
  pose proof (mkdirs_lookup (now s)
                (prefixes (Path.resolve cwd (OUTPUT_DIR cfg))) (fs s) k) as M1.
  destruct (mkdirs (now s) (prefixes (Path.resolve cwd (OUTPUT_DIR cfg))) (fs s))
    as [f1 ok1]. cbn [fst] in M1.
  destruct ok1; [|cbn; tauto].
  cbn [withFs fs now].
  pose proof (mkdirs_lookup (now s)
                (prefixes (Path.resolve cwd (Path.dirname (outputLocation cfg cwd file))))
                f1 k) as M2.
  destruct (mkdirs (now s)
              (prefixes (Path.resolve cwd (Path.dirname (outputLocation cfg cwd file)))) f1)
    as [f2 ok2]. cbn [fst] in M2.
  assert (M : lookup f2 k = lookup (fs s) k
              \/ (lookup (fs s) k = None /\ lookup f2 k = Some (IDir (now s) true))).
  { destruct M1 as [A|[A1 A2]], M2 as [B|[B1 B2]].
    - left. congruence.
    - right. split; congruence.
    - right. split; congruence.
    - congruence. }
  destruct ok2; [|cbn; tauto].
  cbn [withFs fs now].
  destruct (Path.resolve cwd (outputLocation cfg cwd file)) as [|k0 kr] eqn:Ek;
    [cbn; tauto|].
  destruct (lookup f2 (removelast (k0 :: kr))) as [[m c|m l|m|]|];
    try (cbn; tauto).
  assert (W : forall v,
            lookup (insert (k0 :: kr) v f2) k = lookup (fs s) k
            \/ (lookup (fs s) k = None
                /\ lookup (insert (k0 :: kr) v f2) k = Some (IDir (now s) true))
            \/ (k = k0 :: kr /\ lookup (insert (k0 :: kr) v f2) k = Some v)).
  { intros v. destruct (keyEqb k (k0 :: kr)) eqn:E.
    - apply keyEqb_eq in E. subst k. right. right.
      split; [reflexivity|]. now apply lookup_insert_same.
    - rewrite lookup_insert_other by assumption. tauto. }
  destruct (lookup f2 (k0 :: kr)) as [[m' c'|m' l'|m'|]|];
    cbn [stateOf traceOf fst snd withFs fs]; try tauto; apply W.
Qed.

Lemma statOf_lookup (f f' : FS) (k : list string) :
  lookup f' k = lookup f k -> statOf f' k = statOf f k.
Proof. intros H. unfold statOf. now rewrite H. Qed.

(** What an item leaves under a key, and the clock does not go back. *)
Lemma item_frame (g : string) (s : State) (k : list string) :
  let s' := afterItem cfg cwd generateContent g s in
  (lookup (fs s') k = lookup (fs s) k
   \/ (lookup (fs s) k = None /\ lookup (fs s') k = Some (IDir (now s) true))
   \/ (k = Path.resolve cwd (outputLocation cfg cwd g)
       /\ exists c, lookup (fs s') k = Some (IFile (now s) c)))
  /\ (now s <= now s')%Z.
Proof.
  unfold afterItem.
  destruct (processFile_shape cfg cwd generateContent g s)
    as (tc & e1 & e2 & ts & f' & _ & _ & _ & _ & _ & Es & E).
  rewrite E.
  destruct (outcome cfg cwd generateContent g s);
    cbn [stateOf fst snd fs now bumpSkipped bumpClock bumpCalls
         bumpTranslated withFs];
    try (split; [now left|lia]).
  split; [|lia].
  pose proof (saveTranslatedFile_frame g
                (toText (translationOf cfg cwd generateContent g s))
                (bumpCalls s) k) as F.
  unfold saveRun in Es. rewrite Es in F.
  cbn [stateOf fst snd fs now bumpCalls withFs] in F.
  destruct F as [F|[F|[F1 F2]]]; [now left|now right; left|].
  right. right. split; [exact F1|]. eexists. exact F2.
Qed.

Lemma fresh_step (f g : string) (s : State) :
  notFromTheFuture cwd s f ->
  Path.resolve cwd (outputLocation cfg cwd g) <> Path.resolve cwd f ->
  notFromTheFuture cwd (afterItem cfg cwd generateContent g s) f.
Proof.
  intros H A i Hi.
  destruct (item_frame g s (Path.resolve cwd f)) as [[F|[[_ F]|[F _]]] N].
  - rewrite (statOf_lookup _ _ _ F) in Hi. specialize (H i Hi). lia.
  - unfold statOf in Hi. rewrite F in Hi. injection Hi as <-. cbn. lia.
  - now elim A.
Qed.

Lemma upToDate_spec (f : FS) (out src : list string) :
  upToDate f out src = true
  <-> exists o i,
        statOf f out = Some o /\ statOf f src = Some i
        /\ isFile o = true /\ (mtime i <= mtime o)%Z.
Proof.
  unfold upToDate. split.
  - destruct (statOf f out) as [o|]; [|discriminate].
    destruct (statOf f src) as [i|]; [|discriminate].
    intros H. apply andb_true_iff in H as [H1 H2]. apply Z.leb_le in H2.
    now exists o, i.
  - intros (o & i & -> & -> & H1 & H2). rewrite H1. now apply Z.leb_le.
Qed.

Lemma statOf_present (f : FS) (k : list string) (i : Stats) :
  statOf f k = Some i -> lookup f k <> None.
Proof. unfold statOf. destruct (lookup f k); [discriminate|discriminate]. Qed.

(** A document found translated stays so through the processing of another
    item. *)
Lemma current_step (f g : string) (s : State) :
  current cfg cwd (fs s) f = true ->
  notFromTheFuture cwd s f ->
  Path.resolve cwd (outputLocation cfg cwd g) <> Path.resolve cwd f ->
  current cfg cwd (fs (afterItem cfg cwd generateContent g s)) f = true.
Proof.
  unfold current. intros C H A.
  apply upToDate_spec in C as (o & i & Ho & Hi & Fo & Le).
  apply upToDate_spec.
  assert (Si : statOf (fs (afterItem cfg cwd generateContent g s))
                 (Path.resolve cwd f) = Some i).
  { destruct (item_frame g s (Path.resolve cwd f)) as [[F|[[F _]|[F _]]] _].
    - now rewrite (statOf_lookup _ _ _ F).
    - now apply statOf_present in Hi.
    - now elim A. }
  destruct (item_frame g s (Path.resolve cwd (staleLocation cfg f)))
    as [[F|[[F _]|[_ [c F]]]] _].
  - exists o, i. rewrite (statOf_lookup _ _ _ F). auto.
  - now apply statOf_present in Ho.
  - exists {| kind := KFile; mtime := now s |}, i.
    unfold statOf at 1. rewrite F. repeat split; [exact Si|].
    cbn. now apply H.
Qed.

Lemma translated_source (file : string) (s : State) :
  outcome cfg cwd generateContent file s = Translated ->
  exists m c, lookup (fs s) (Path.resolve cwd file) = Some (IFile m c).
Proof.
  unfold outcome, contentOf, readOf.
  destruct (negb (FORCE_TRANSLATE cfg) && _); [discriminate|].
  destruct (lookup (fs s) (Path.resolve cwd file)) as [[m c|m l|m|]|];
    cbn; try discriminate.
  intros _. now exists m, c.
Qed.

Lemma skipped_current (file : string) (s : State) :
  outcome cfg cwd generateContent file s = Skipped ->
  current cfg cwd (fs s) file = true.
Proof.
  unfold outcome, current.
  destruct (upToDate _ _ _); [reflexivity|].
  rewrite andb_false_r.
  destruct (contentOf cwd file s =? ""); [discriminate|].
  destruct (truthy _); discriminate.
Qed.

(** A document that ends skipped or saved is found translated from then
    on, when the check looks where the translation was written. *)
Lemma settle_current (file : string) (s : State) :
  settled cfg cwd generateContent file s ->
  notFromTheFuture cwd s file ->
  Path.resolve cwd (outputLocation cfg cwd file) <> Path.resolve cwd file ->
  staleLocation cfg file = outputLocation cfg cwd file ->
  current cfg cwd (fs (afterItem cfg cwd generateContent file s)) file = true.
Proof.
  intros [Sk|[Tr Pe]] H A L.
  - apply current_step; try assumption. now apply skipped_current.
  - destruct (translated_source file s Tr) as (m & c & Src).
    destruct (processFile_shape cfg cwd generateContent file s)
      as (tc & e1 & e2 & ts & f' & _ & _ & _ & _ & _ & Es & E).
    destruct (saveTranslatedFile_persisted cfg cwd file
                (toText (translationOf cfg cwd generateContent file s))
                (bumpCalls s) Pe) as (St & _ & _).
    fold (saveRun cfg cwd generateContent file s) in St.
    assert (Fs : fs (afterItem cfg cwd generateContent file s)
                 = fs (stateOf (saveRun cfg cwd generateContent file s))).
    { unfold afterItem. rewrite E, Tr, Es. reflexivity. }
    unfold current. apply upToDate_spec.
    exists {| kind := KFile; mtime := now s |}, {| kind := KFile; mtime := m |}.
    rewrite L, Fs. split; [|split; [|split]].
    + unfold statOf. now rewrite St.
    + rewrite <- Fs.
      destruct (item_frame file s (Path.resolve cwd file)) as [[F|[[F _]|[F _]]] _].
      * unfold statOf. now rewrite F, Src.
      * congruence.
      * now elim A.
    + reflexivity.
    + cbn. apply (H {| kind := KFile; mtime := m |}).
      unfold statOf. now rewrite Src.
Qed.

(** The first run leaves every document that it skipped or saved found
    translated. *)
Lemma first_run_settles (all : list string) :
  apart cfg cwd all ->
  (forall f, In f all -> staleLocation cfg f = outputLocation cfg cwd f) ->
  forall files s done,
    (forall f, In f files -> In f all) ->
    (forall f, In f all -> notFromTheFuture cwd s f) ->
    allSettled cfg cwd generateContent files s ->
    (forall f, In f done -> In f all /\ current cfg cwd (fs s) f = true) ->
    forall f, In f (done ++ files) ->
      current cfg cwd (fs (afterItems cfg cwd generateContent files s)) f = true.
Proof.
  intros A L files. induction files as [|g r IH]; intros s done Sub Fr St Dn f Hin.
  - rewrite app_nil_r in Hin. now apply Dn.
  - destruct St as [Sg Sr]. cbn [afterItems fold_left].
    assert (Hg : In g all) by (apply Sub; now left).
    apply (IH (afterItem cfg cwd generateContent g s) (done ++ [g])).
    + intros f0 H0. apply Sub. now right.
    + intros f0 H0. apply fresh_step; [now apply Fr|now apply A].
    + exact Sr.
    + intros f0 H0. apply in_app_or in H0 as [H0|[<-|[]]].
      * destruct (Dn f0 H0) as [Ha Hc]. split; [exact Ha|].
        apply current_step; [exact Hc|now apply Fr|now apply A].
      * split; [exact Hg|].
        apply settle_current; [exact Sg|now apply Fr|now apply A|now apply L].
    + rewrite <- app_assoc. exact Hin.
Qed.

(** A run over documents found translated skips them all and touches
    nothing. *)
Lemma run_over_current (files : list string) (s : State) :
  FORCE_TRANSLATE cfg = false ->
  (forall f, In f files -> current cfg cwd (fs s) f = true) ->
  let s' := afterItems cfg cwd generateContent files s in
  let t := concat (itemTraces cfg cwd generateContent files s) in
  fs s' = fs s
  /\ translatedCount s' = translatedCount s
  /\ skippedCount s' = length files + skippedCount s
  /\ filter isGenerate t = []
  /\ filter isWrite t = [].
Proof.
  intros NF. revert s. induction files as [|g r IH]; intros s C; [now cbn|].
  cbn [afterItems fold_left itemTraces concat length].
  assert (O : outcome cfg cwd generateContent g s = Skipped).
  { unfold outcome. rewrite NF. cbn [negb andb].
    specialize (C g (or_introl eq_refl)). unfold current in C. now rewrite C. }
  destruct (processFile_shape cfg cwd generateContent g s)
    as (tc & e1 & e2 & ts & f' & Hc & _ & _ & _ & _ & _ & E).
  rewrite O in E.
  assert (A : afterItem cfg cwd generateContent g s = bumpSkipped s)
    by (unfold afterItem; now rewrite E).
  rewrite A, E. cbn [traceOf snd].
  destruct (IH (bumpSkipped s)) as (I1 & I2 & I3 & I4 & I5).
  { intros f Hf. cbn [bumpSkipped fs]. apply C. now right. }
  cbv zeta in *. unfold afterItems in *. rewrite I1, I2, I3.
  assert (G0 : filter isGenerate tc = [])
    by (eapply filter_none; [exact Hc|absurd_class]).
  assert (W0 : filter isWrite tc = [])
    by (eapply filter_none; [exact Hc|absurd_class]).
  cbn [bumpSkipped fs translatedCount skippedCount].
  repeat split; try lia; sift; rewrite ?G0, ?W0, ?I4, ?I5; reflexivity.
Qed.

(** X6. Two runs in a row over documents that lie directly under the source
    root, without force-mode: when no document is more recent than the
    clock, no translation is written over a document, and the first run ends
    every document skipped or saved without error, the second run, started
    in the state the first one left, translates nothing and skips every
    document; it asks the service nothing and asks for no change of the
    file system. *)
Theorem top_level_documents_idempotent (names : list string) (s : State) :
  FORCE_TRANSLATE cfg = false ->
  Forall (fun n => Path.isName n = true) names ->
  let files := map (fun n => Path.join [SOURCE_DIR cfg; n]) names in
  apart cfg cwd files ->
  (forall f, In f files -> notFromTheFuture cwd s f) ->
  allSettled cfg cwd generateContent files (startBatch s) ->
  let first := processBatchWithDelay cfg cwd generateContent files s in
  exists s' t,
    processBatchWithDelay cfg cwd generateContent files (stateOf first)
    = (Ok (0, length files), s', t)
    /\ fs s' = fs (stateOf first)
    /\ filter isGenerate t = []
    /\ filter isWrite t = [].
Proof.
  intros NF Hn files A Fr St first.
  assert (L : forall f, In f files ->
                staleLocation cfg f = outputLocation cfg cwd f).
  { intros f Hf. apply in_map_iff in Hf as (n & <- & Hin).
    apply top_level_locations. rewrite Forall_forall in Hn. now apply Hn. }
  assert (E1 : stateOf first
               = afterItems cfg cwd generateContent files (startBatch s))
    by (unfold first; now rewrite processBatchWithDelay_run).
  assert (C : forall f, In f files ->
                current cfg cwd (fs (startBatch (stateOf first))) f = true).
  { intros f Hf. rewrite E1. cbn [startBatch fs].
    apply (first_run_settles files A L files (startBatch s) []);
      try assumption; auto.
    intros f0 [].  }
  destruct (run_over_current files (startBatch (stateOf first)) NF C)
    as (R1 & R2 & R3 & R4 & R5).
  rewrite processBatchWithDelay_run. eexists _, _.
  split; [|split; [exact R1|split; [exact R4|exact R5]]].
  rewrite R2, R3. cbn [startBatch translatedCount skippedCount].
  now rewrite Nat.add_0_r.
Qed.

End Idempotence.

Lemma unexaminable_entry_empties_directory_witness :
  listing World.broken (Path.resolve World.cwd "./src")
  = Some ["first.md"; "gone"; "last.md"]
  /\ statOf World.broken (Path.resolve World.cwd (Path.join ["./src"; "gone"]))
     = None
  /\ resultOf (findMarkdownFiles World.cwd 3 "./src" (World.boot World.broken))
     = Ok [].
Proof.
  assert (L : listing (fs (World.boot World.broken)) (Path.resolve World.cwd "./src")
              = Some ["first.md"; "gone"; "last.md"]) by reflexivity.
  assert (N : statOf (fs (World.boot World.broken))
                (Path.resolve World.cwd (Path.join ["./src"; "gone"])) = None)
    by reflexivity.
  split; [exact L|]. split; [exact N|].
  apply (unexaminable_entry_empties_directory World.cwd 2 "./src"
           (World.boot World.broken) _ L).
  - exists "gone". split; [cbn; tauto|exact N].
  - vm_compute. discriminate.
Defined.

Lemma empty_tree_completes_witness :
  resultOf (findMarkdownFiles World.cwd 4 (SOURCE_DIR World.cfg)
              (World.boot World.bare)) = Ok []
  /\ exists t,
       translateMarkdownFiles World.cfg World.cwd World.obliging 4
         (World.boot World.bare)
       = (Ok tt, World.boot World.bare, t)
       /\ In (EvLog MsgNoneFound) t
       /\ filter isGenerate t = []
       /\ filter isWrite t = [].
Proof.
  assert (E : resultOf (findMarkdownFiles World.cwd 4 (SOURCE_DIR World.cfg)
                          (World.boot World.bare)) = Ok [])
    by (vm_compute; reflexivity).
  split; [exact E|].
  exact (empty_tree_completes World.cfg World.cwd World.obliging 4
           (World.boot World.bare) E).
Defined.

Lemma top_level_documents_idempotent_witness :
  let files := ["src/one.md"; "src/two.md"; "src/three.md"] in
  let first := processBatchWithDelay World.cfg World.cwd World.obliging files
                 (World.boot World.three) in
  FORCE_TRANSLATE World.cfg = false
  /\ Forall (fun n => Path.isName n = true) ["one.md"; "two.md"; "three.md"]
  /\ apart World.cfg World.cwd files
  /\ (forall f, In f files -> notFromTheFuture World.cwd (World.boot World.three) f)
  /\ allSettled World.cfg World.cwd World.obliging files
       (startBatch (World.boot World.three))
  /\ resultOf first = Ok (3, 0)
  /\ resultOf (processBatchWithDelay World.cfg World.cwd World.obliging files
                 (stateOf first)) = Ok (0, 3).
Proof.
  intros files first.
  assert (N : Forall (fun n => Path.isName n = true) ["one.md"; "two.md"; "three.md"])
    by (repeat constructor).
  assert (A : apart World.cfg World.cwd files).
  { intros f g [<-|[<-|[<-|[]]]] [<-|[<-|[<-|[]]]]; vm_compute; discriminate. }
  assert (Fr : forall f, In f files ->
                 notFromTheFuture World.cwd (World.boot World.three) f).
  { intros f [<-|[<-|[<-|[]]]] i H; vm_compute in H; injection H as <-;
      vm_compute; discriminate. }
  assert (St : allSettled World.cfg World.cwd World.obliging files
                 (startBatch (World.boot World.three))).
  { repeat split; right; split; vm_compute; reflexivity. }
  split; [reflexivity|]. split; [exact N|]. split; [exact A|].
  split; [exact Fr|]. split; [exact St|]. split; [vm_compute; reflexivity|].
  destruct (top_level_documents_idempotent World.cfg World.cwd World.obliging
              ["one.md"; "two.md"; "three.md"] (World.boot World.three)
              eq_refl N A Fr St) as (s' & t & E & _).
  exact (f_equal resultOf E).
Defined.

(** ** More on paths below a directory *)

Module PathBelow.
Import Path PathFacts.

(** The components of a relative path made of names, joined to a
    directory, lie below it. *)
Lemma resolve_join_names (cwd : list string) (d : string) (rel : list string) :
  Forall (fun n => isName n = true) rel -> rel <> [] ->
  resolve cwd (join [d; String.concat "/" rel]) = resolve cwd d ++ rel.
Proof.
  intros H Hne. set (y := String.concat "/" rel).
  assert (C : Forall (fun p => clean p = true) rel).
  { eapply Forall_impl; [|exact H]. intros a Ha. now apply isName_spec in Ha. }
  assert (Hy : y <> "").
  { unfold y. destruct rel as [|n r]; [congruence|].
    inversion C; subst. now apply concat_clean_not_empty. }
  assert (Hya : isAbsolute y = false).
  { unfold y. destruct rel as [|n r]; [congruence|].
    inversion C; subst. now apply concat_clean_not_absolute. }
  assert (Sy : segments y = rel) by now apply segments_concat.
  rewrite (join_two d y Hy), resolve_normalize.
  destruct (d =? "") eqn:Ed.
  - apply String.eqb_eq in Ed. subst d.
    unfold resolve. rewrite Hya, Sy. cbn [isAbsolute segments split filter nonEmpty].
    cbn [String.eqb negb]. rewrite app_nil_r. now apply normSegs_app_names.
  - apply String.eqb_neq in Ed.
    unfold resolve. rewrite (isAbsolute_app d _ Ed), segments_app_slash, Sy.
    destruct (isAbsolute d).
    + now apply normSegs_app_names.
    + rewrite app_assoc. now apply normSegs_app_names.
Qed.

Lemma under_app (d : string) (rel : list string) (n : string) :
  under d (rel ++ [n]) = join [under d rel; n].
Proof. unfold under. now rewrite fold_left_app. Qed.

End PathBelow.

Lemma forallb_impl {A} (P Q : A -> bool) (l : list A) :
  (forall x, P x = true -> Q x = true) ->
  forallb P l = true -> forallb Q l = true.
Proof.
  intros H. induction l as [|x r IH]; [reflexivity|].
  cbn. intros E. apply andb_true_iff in E as [E1 E2].
  now rewrite (H x E1), (IH E2).
Qed.

Ltac absurd_msg :=
  let e := fresh "e" in
  let m := fresh "m" in
  let H := fresh "H" in
  intros e H; destruct e as [| | | | | | | |m|m]; cbn in *;
  try reflexivity; try discriminate H;
  destruct m; cbn in *; try reflexivity; discriminate H.

(** ** The scanner, sound and complete *)

(** *** What the scanner returns

    A property of the paths below a directory holds of every path the
    scanner returns as soon as it holds of the listed entries that have the
    name of a document and are not directories, and goes up from a listed
    entry to the directory that lists it. *)

Section ScannerInduction.

Variable cwd : list string.
Variable s : State.
Variable P : string -> string -> Prop.

Hypothesis P_here :
  forall directory listed n st,
    listing (fs s) (Path.resolve cwd directory) = Some listed ->
    In n listed ->
    statOf (fs s) (Path.resolve cwd (Path.join [directory; n])) = Some st ->
    isDirectory st = false ->
    (Str.endsWith n ".md" || Str.endsWith n ".markdown") = true ->
    P directory (Path.join [directory; n]).

Hypothesis P_deeper :
  forall directory listed n f,
    listing (fs s) (Path.resolve cwd directory) = Some listed ->
    In n listed ->
    P (Path.join [directory; n]) f ->
    P directory f.

Lemma loop_scanned (fuel : nat) (directory : string) (listed : list string) :
  listing (fs s) (Path.resolve cwd directory) = Some listed ->
  (forall d files f,
     resultOf (findMarkdownFiles cwd fuel d s) = Ok files ->
     In f files -> P d f) ->
  forall names acc v,
    (forall n, In n names -> In n listed) ->
    (forall f, In f acc -> P directory f) ->
    resultOf (forOfPush names acc (visit cwd fuel directory) s) = Ok v ->
    forall f, In f v -> P directory f.
Proof.
  intros L IH names. induction names as [|n r IHr]; intros acc v Sub Hacc Hv f Hf.
  - cbn in Hv. injection Hv as <-. now apply Hacc.
  - cbn [forOfPush] in Hv. unfold bind at 1 in Hv. unfold visit at 1 in Hv.
    unfold bind at 1 in Hv. unfold fs_stat at 1 in Hv.
    destruct (statOf (fs s) (Path.resolve cwd (Path.join [directory; n])))
      as [st|] eqn:St; [|discriminate Hv].
    assert (Hn : In n listed) by (apply Sub; now left).
    assert (Hr : forall n0, In n0 r -> In n0 listed)
      by (intros n0 H0; apply Sub; now right).
    destruct (isDirectory st) eqn:D.
    + unfold bind at 1 in Hv.
      destruct (findMarkdownFiles_quiet cwd fuel (Path.join [directory; n]) s)
        as [Hs Hq].
      pose proof (IH (Path.join [directory; n])) as IHd.
      destruct (findMarkdownFiles cwd fuel (Path.join [directory; n]) s)
        as [[[l|e|c|] s1] t1]; cbn in Hs, Hq; try contradiction; subst s1;
        [|discriminate Hv].
      unfold ret in Hv. cbn [app resultOf fst] in *.
      destruct (forOfPush r (acc ++ l) (visit cwd fuel directory) s)
        as [[r2 s2] t2] eqn:E. cbn in Hv. subst r2.
      apply (IHr (acc ++ l) v Hr); [|now rewrite E|exact Hf].
      intros g Hg. apply in_app_or in Hg as [Hg|Hg]; [now apply Hacc|].
      apply (P_deeper directory listed n g L Hn). now apply (IHd l g).
    + destruct (Str.endsWith n ".md" || Str.endsWith n ".markdown") eqn:X;
        unfold ret in Hv; cbn [app] in Hv.
      * destruct (forOfPush r (acc ++ [Path.join [directory; n]])
                    (visit cwd fuel directory) s) as [[r2 s2] t2] eqn:E.
        cbn in Hv. subst r2.
        apply (IHr (acc ++ [Path.join [directory; n]]) v Hr);
          [|now rewrite E|exact Hf].
        intros g Hg. apply in_app_or in Hg as [Hg|[<-|[]]]; [now apply Hacc|].
        now apply (P_here directory listed n st).
      * destruct (forOfPush r acc (visit cwd fuel directory) s)
          as [[r2 s2] t2] eqn:E.
        cbn in Hv. subst r2.
        apply (IHr acc v Hr Hacc); [now rewrite E|exact Hf].
Qed.

Lemma findMarkdownFiles_scanned (fuel : nat) :
  forall directory files f,
    resultOf (findMarkdownFiles cwd fuel directory s) = Ok files ->
    In f files -> P directory f.
Proof.
  induction fuel as [|fuel IH]; intros directory files f Hv Hf;
    [discriminate Hv|].
  rewrite findMarkdownFiles_unfold in Hv.
  unfold tryCatch, bind at 1 in Hv. rewrite fs_readdir_run in Hv.
  destruct (listing (fs s) (Path.resolve cwd directory)) as [names|] eqn:L.
  - destruct (forOfPush names [] (visit cwd fuel directory) s)
      as [[[l|e|c|] s1] t1] eqn:E; cbn in Hv; try discriminate Hv.
    + injection Hv as <-.
      apply (loop_scanned fuel directory names L IH names [] l); auto.
      * intros g [].
      * now rewrite E.
    + injection Hv as <-. destruct Hf.
  - cbn in Hv. injection Hv as <-. destruct Hf.
Qed.

End ScannerInduction.

Section ScannerSound.

Variable cwd : list string.

(** X7. Whatever the scanner returns is a document below the directory it
    was given: the path is the directory joined with entry names, one after
    the other; the last name ends in [.md] or [.markdown]; the entry exists
    and is not a directory; and the directory that holds it lists it. *)
Theorem scanner_returns_documents
    (fuel : nat) (directory : string) (s : State) (files : list string)
    (f : string) :
  resultOf (findMarkdownFiles cwd fuel directory s) = Ok files ->
  In f files ->
  exists rel n st names,
    f = Path.under directory (rel ++ [n])
    /\ (Str.endsWith n ".md" || Str.endsWith n ".markdown") = true
    /\ statOf (fs s) (Path.resolve cwd f) = Some st
    /\ isDirectory st = false
    /\ listing (fs s) (Path.resolve cwd (Path.under directory rel)) = Some names
    /\ In n names.
Proof.
  apply (findMarkdownFiles_scanned cwd s
           (fun d g =>
              exists rel n st names,
                g = Path.under d (rel ++ [n])
                /\ (Str.endsWith n ".md" || Str.endsWith n ".markdown") = true
                /\ statOf (fs s) (Path.resolve cwd g) = Some st
                /\ isDirectory st = false
                /\ listing (fs s) (Path.resolve cwd (Path.under d rel)) = Some names
                /\ In n names)).
  - intros d listed n st L Hn St D X.
    exists [], n, st, listed. repeat split; assumption.
  - intros d listed n g _ _ (rel & m & st & names & E & X & St & D & L & I).
    exists (n :: rel), m, st, names. repeat split; assumption.
Qed.

(** In a well-formed file system, what the scanner returns lies below the
    directory, under names. *)
Lemma findMarkdownFiles_names
    (fuel : nat) (directory : string) (s : State) (files : list string)
    (f : string) :
  wellFormed (fs s) = true ->
  resultOf (findMarkdownFiles cwd fuel directory s) = Ok files ->
  In f files ->
  exists rel,
    rel <> []
    /\ Forall (fun n => Path.isName n = true) rel
    /\ f = Path.under directory rel.
Proof.
  intros W.
  assert (N : forall d listed n,
            listing (fs s) (Path.resolve cwd d) = Some listed ->
            In n listed -> Path.isName n = true).
  { intros d listed n L Hn. unfold listing in L.
    destruct (lookup (fs s) (Path.resolve cwd d)) as [[?|? [|]|?|]|];
      try discriminate L. injection L as <-.
    apply children_in in Hn as [v Hv].
    pose proof (wellFormed_in _ _ _ W Hv) as Hk.
    rewrite forallb_app in Hk. apply andb_true_iff in Hk as [_ Hk].
    cbn in Hk. now rewrite andb_true_r in Hk. }
  apply (findMarkdownFiles_scanned cwd s
           (fun d g =>
              exists rel,
                rel <> []
                /\ Forall (fun n => Path.isName n = true) rel
                /\ g = Path.under d rel)).
  - intros d listed n st L Hn _ _ _.
    exists [n]. split; [discriminate|]. split; [|reflexivity].
    constructor; [|constructor]. exact (N d listed n L Hn).
  - intros d listed n g L Hn (rel & Ne & F & E).
    exists (n :: rel). split; [discriminate|]. split; [|exact E].
    constructor; [exact (N d listed n L Hn)|exact F].
Qed.

End ScannerSound.

Section ScannerComplete.

Variable cwd : list string.

Lemma loop_sub_returns (fuel : nat) (directory : string) (s : State)
    (n0 : string) (st0 : Stats) :
  statOf (fs s) (Path.resolve cwd (Path.join [directory; n0])) = Some st0 ->
  isDirectory st0 = true ->
  forall names acc,
    (forall n, In n names ->
       statOf (fs s) (Path.resolve cwd (Path.join [directory; n])) <> None) ->
    In n0 names ->
    resultOf (forOfPush names acc (visit cwd fuel directory) s) <> Diverge ->
    resultOf (findMarkdownFiles cwd fuel (Path.join [directory; n0]) s) <> Diverge.
Proof.
  intros S0 D0 names. induction names as [|n r IHr]; intros acc Hst Hin Hv;
    [contradiction|].
  cbn [forOfPush] in Hv. unfold bind at 1 in Hv. unfold visit at 1 in Hv.
  unfold bind at 1 in Hv. unfold fs_stat at 1 in Hv.
  pose proof (Hst n (or_introl eq_refl)) as Hn.
  destruct (statOf (fs s) (Path.resolve cwd (Path.join [directory; n])))
    as [st|] eqn:St; [|congruence].
  assert (Hr : forall n1, In n1 r ->
             statOf (fs s) (Path.resolve cwd (Path.join [directory; n1])) <> None)
    by (intros n1 H1; apply Hst; now right).
  destruct (isDirectory st) eqn:D.
  - unfold bind at 1 in Hv.
    destruct (findMarkdownFiles_quiet cwd fuel (Path.join [directory; n]) s)
      as [Hs Hq].
    destruct (findMarkdownFiles cwd fuel (Path.join [directory; n]) s)
      as [[[l|e|c|] s1] t1] eqn:F; cbn in Hs, Hq; try contradiction; subst s1.
    destruct Hin as [<-|Hin]; [now rewrite F|].
    unfold ret in Hv. cbn [app] in Hv.
    apply (IHr (acc ++ l) Hr Hin).
    destruct (forOfPush r (acc ++ l) (visit cwd fuel directory) s)
      as [[r2 s2] t2]. exact Hv.
  - destruct Hin as [<-|Hin]; [congruence|].
    destruct (Str.endsWith n ".md" || Str.endsWith n ".markdown");
      unfold ret in Hv; cbn [app] in Hv;
      match type of Hv with
      | context [forOfPush r ?a _ s] =>
          apply (IHr a Hr Hin);
          destruct (forOfPush r a (visit cwd fuel directory) s)
            as [[r2 s2] t2]; exact Hv
      end.
Qed.

Lemma findMarkdownFiles_sub_returns (fuel : nat) (directory n : string)
    (s : State) (files : list string) :
  examinable cwd s directory ->
  lists cwd s directory n true ->
  resultOf (findMarkdownFiles cwd (S fuel) directory s) = Ok files ->
  exists sub,
    resultOf (findMarkdownFiles cwd fuel (Path.join [directory; n]) s) = Ok sub.
Proof.
  intros (names & L & Hst) (names' & st & L' & Hin & St & D) Hv.
  rewrite L in L'. injection L' as <-.
  assert (N : resultOf (findMarkdownFiles cwd fuel (Path.join [directory; n]) s)
              <> Diverge).
  { apply (loop_sub_returns fuel directory s n st St D names [] Hst Hin).
    rewrite findMarkdownFiles_unfold in Hv.
    unfold tryCatch, bind at 1 in Hv. rewrite fs_readdir_run, L in Hv.
    destruct (forOfPush names [] (visit cwd fuel directory) s)
      as [[[l|e|c|] s1] t1]; cbn in Hv |- *; congruence. }
  destruct (findMarkdownFiles_quiet cwd fuel (Path.join [directory; n]) s)
    as [_ Hq].
  destruct (resultOf (findMarkdownFiles cwd fuel (Path.join [directory; n]) s))
    as [l|e|c|]; try contradiction; try congruence.
  now exists l.
Qed.

Lemma findMarkdownFiles_finds (rel : list string) :
  forall fuel directory s files n,
    resultOf (findMarkdownFiles cwd fuel directory s) = Ok files ->
    leadsTo cwd s directory rel ->
    lists cwd s (Path.under directory rel) n false ->
    (Str.endsWith n ".md" || Str.endsWith n ".markdown") = true ->
    In (Path.under directory (rel ++ [n])) files.
Proof.
  induction rel as [|n0 r IH]; intros fuel directory s files n Hv Lead Hl X;
    (destruct fuel as [|fuel]; [discriminate Hv|]).
  - destruct Lead as [(names & L & Hst) _].
    destruct Hl as (names' & st & L' & Hin & St & D).
    cbn [Path.under fold_left] in L'. rewrite L in L'. injection L' as <-.
    rewrite (findMarkdownFiles_contributions cwd fuel directory s names files L Hst Hv).
    apply in_flat_map. exists n. split; [exact Hin|].
    unfold contribution. cbn [Path.under fold_left] in St.
    rewrite St, D, X. now left.
  - destruct Lead as [Ex [Ld Lead]].
    destruct (findMarkdownFiles_sub_returns fuel directory n0 s files Ex Ld Hv)
      as [sub Hsub].
    pose proof (IH fuel (Path.join [directory; n0]) s sub n Hsub Lead Hl X) as Hin.
    destruct Ex as (names & L & Hst).
    destruct Ld as (names' & st & L' & Hin0 & St & D).
    rewrite L in L'. injection L' as <-.
    rewrite (findMarkdownFiles_contributions cwd fuel directory s names files L Hst Hv).
    apply in_flat_map. exists n0. split; [exact Hin0|].
    unfold contribution. rewrite St, D. unfold found. rewrite Hsub.
    exact Hin.
Qed.

(** X8. The scanner misses no document: when every directory on the way
    down from the directory it was given can be listed and holds only
    entries that can be examined, a listed entry at the end of the way that
    is not a directory and whose name ends in [.md] or [.markdown] is among
    the files returned. *)
Theorem scanner_finds_documents
    (fuel : nat) (directory : string) (s : State) (files rel : list string)
    (n : string) :
  resultOf (findMarkdownFiles cwd fuel directory s) = Ok files ->
  leadsTo cwd s directory rel ->
  lists cwd s (Path.under directory rel) n false ->
  (Str.endsWith n ".md" || Str.endsWith n ".markdown") = true ->
  In (Path.under directory (rel ++ [n])) files.
Proof. apply findMarkdownFiles_finds. Qed.

(** X9. The scanner only looks: it leaves the state as it was and asks for
    nothing but [readdir] and [stat]; it reads no file, asks for no change
    of the file system, asks the service nothing and does not wait; all it
    says are the diagnostics of directories it could not read. *)
Theorem scanner_only_reads (fuel : nat) (directory : string) (s : State) :
  let run := findMarkdownFiles cwd fuel directory s in
  stateOf run = s
  /\ forallb isScanEvent (traceOf run) = true
  /\ filter isRead (traceOf run) = []
  /\ filter isWrite (traceOf run) = []
  /\ filter isGenerate (traceOf run) = []
  /\ filter isTimeout (traceOf run) = [].
Proof.
  intros run. subst run.
  destruct (findMarkdownFiles_quiet cwd fuel directory s) as [Hs _].
  pose proof (findMarkdownFiles_scan_events cwd fuel directory s) as H.
  split; [exact Hs|]. split; [exact H|].
  repeat split; (eapply filter_none; [exact H|absurd_class]).
Qed.

End ScannerComplete.

(** ** Where the check looks and where the translation goes *)

Section Locations.

Variable cfg : Config.
Variable cwd : list string.

(** What [saveTranslatedFile] asks to write, it asks to write at the
    output location. *)
Lemma saveTranslatedFile_writes (file content : string) (s : State) (q c : string) :
  In (EvWriteFile q c) (traceOf (saveTranslatedFile cfg cwd file content s)) ->
  q = outputLocation cfg cwd file /\ c = content.
Proof.
  intros Hin.
  destruct (saveTranslatedFile_run cfg cwd file content s) as (f' & t & Es & Ht).
  rewrite Es in Hin. cbn [traceOf snd] in Hin.
  pose proof (forallb_In _ _ _ Ht Hin) as H. cbn in H.
  apply andb_true_iff in H as [H1 H2].
  apply String.eqb_eq in H1, H2. now split.
Qed.

(** X1. For a document directly under the source root, the first thing
    [isAlreadyTranslated] asks is the [stat] of a path which is the only
    path [saveTranslatedFile] asks to write to for that document, with the
    content it was given; when [saveTranslatedFile] reports no error it
    did ask for that write, the path holds the file, and
    [isAlreadyTranslated] then answers [true] for the document, provided
    the document is not more recent than the clock and does not lie at
    that path itself. *)
Theorem top_level_checked_where_written
    (n content : string) (s s' : State) :
  Path.isName n = true ->
  let file := Path.join [SOURCE_DIR cfg; n] in
  let save := saveTranslatedFile cfg cwd file content s' in
  exists p rest,
    traceOf (isAlreadyTranslated cfg cwd file s) = EvStat p :: rest
    /\ p = staleLocation cfg file
    /\ p = outputLocation cfg cwd file
    /\ (forall q c, In (EvWriteFile q c) (traceOf save) -> q = p /\ c = content)
    /\ (existsb isErrorEv (traceOf save) = false ->
        In (EvWriteFile p content) (traceOf save)
        /\ lookup (fs (stateOf save)) (Path.resolve cwd p)
           = Some (IFile (now s') content)
        /\ forall i,
             statOf (fs s') (Path.resolve cwd file) = Some i ->
             (mtime i <= now s')%Z ->
             Path.resolve cwd p <> Path.resolve cwd file ->
             resultOf (isAlreadyTranslated cfg cwd file (stateOf save)) = Ok true).
Proof.
  intros Hn file save.
  pose proof (top_level_locations cfg cwd n Hn) as L. fold file in L.
  exists (staleLocation cfg file).
  rewrite isAlreadyTranslated_run. cbn [traceOf snd]. eexists.
  split; [reflexivity|]. split; [reflexivity|]. split; [exact L|].
  split.
  - intros q c Hin. rewrite L. now apply (saveTranslatedFile_writes file content s').
  - intros Ok0.
    destruct (saveTranslatedFile_persisted cfg cwd file content s' Ok0)
      as (St & W & _).
    fold save in St, W. rewrite <- L in St, W.
    split; [exact W|]. split; [exact St|].
    intros i Hi Le Ne.
    rewrite isAlreadyTranslated_run. cbn [resultOf fst]. f_equal.
    apply upToDate_spec.
    exists {| kind := KFile; mtime := now s' |}, i.
    split; [unfold statOf; now rewrite St|].
    split; [|split; [reflexivity|exact Le]].
    destruct (saveTranslatedFile_frame cfg cwd file content s' (Path.resolve cwd file))
      as [F|[[F _]|[F _]]].
    + fold save in F. now rewrite (statOf_lookup _ _ _ F).
    + now apply statOf_present in Hi.
    + rewrite <- L in F. now elim Ne.
Qed.

(** X11. For a document in a subdirectory of the source root, the first
    thing [isAlreadyTranslated] asks is the [stat] of the entry of the
    document's name directly under [OUTPUT_DIR], while every write
    [saveTranslatedFile] asks for goes to the end of the same way down from
    [OUTPUT_DIR] as leads from the source root to the document, another
    entry; a call of [saveTranslatedFile] for the document (which, when it
    reports no error, did write the file) leaves the entry that the check
    examines as it was, or makes it a directory; so when that entry was
    not a file before the call, [isAlreadyTranslated] answers [false] for
    the document after it. *)
Theorem nested_document_checked_elsewhere
    (rel : list string) (n content : string) (s s' : State) :
  Forall (fun x => Path.isName x = true) rel ->
  rel <> [] ->
  Path.isName n = true ->
  let file := Path.under (SOURCE_DIR cfg) (rel ++ [n]) in
  let save := saveTranslatedFile cfg cwd file content s' in
  exists p rest,
    traceOf (isAlreadyTranslated cfg cwd file s) = EvStat p :: rest
    /\ Path.resolve cwd p = Path.resolve cwd (OUTPUT_DIR cfg) ++ [n]
    /\ (forall q c,
          In (EvWriteFile q c) (traceOf save) ->
          Path.resolve cwd q = Path.resolve cwd (OUTPUT_DIR cfg) ++ rel ++ [n]
          /\ Path.resolve cwd q <> Path.resolve cwd p)
    /\ (existsb isErrorEv (traceOf save) = false ->
        exists q,
          In (EvWriteFile q content) (traceOf save)
          /\ lookup (fs (stateOf save)) (Path.resolve cwd q)
             = Some (IFile (now s') content))
    /\ (lookup (fs (stateOf save)) (Path.resolve cwd p)
        = lookup (fs s') (Path.resolve cwd p)
        \/ (lookup (fs s') (Path.resolve cwd p) = None
            /\ lookup (fs (stateOf save)) (Path.resolve cwd p)
               = Some (IDir (now s') true)))
    /\ ((forall o, statOf (fs s') (Path.resolve cwd p) = Some o -> isFile o = false) ->
        resultOf (isAlreadyTranslated cfg cwd file (stateOf save)) = Ok false).
Proof.
  intros Hrel Hne Hn file save.
  assert (All : Forall (fun x => Path.isName x = true) (rel ++ [n])).
  { apply Forall_app. split; [exact Hrel|now constructor]. }
  assert (E1 : Path.resolve cwd (staleLocation cfg file)
               = Path.resolve cwd (OUTPUT_DIR cfg) ++ [n]).
  { unfold staleLocation, file. rewrite PathBelow.under_app.
    rewrite PathFacts.basename_join_name by assumption.
    now apply PathFacts.resolve_join_name. }
  assert (E2 : Path.resolve cwd (outputLocation cfg cwd file)
               = Path.resolve cwd (OUTPUT_DIR cfg) ++ rel ++ [n]).
  { unfold outputLocation, file.
    rewrite PathFacts.relative_under by assumption.
    apply PathBelow.resolve_join_names; [assumption|].
    destruct rel; discriminate. }
  assert (Ne : Path.resolve cwd (outputLocation cfg cwd file)
               <> Path.resolve cwd (staleLocation cfg file)).
  { rewrite E1, E2. intros E. apply app_inv_head in E.
    apply (f_equal (@length string)) in E. rewrite length_app in E. cbn in E.
    destruct rel; [congruence|cbn in E; lia]. }
  assert (Fr : lookup (fs (stateOf save)) (Path.resolve cwd (staleLocation cfg file))
               = lookup (fs s') (Path.resolve cwd (staleLocation cfg file))
               \/ (lookup (fs s') (Path.resolve cwd (staleLocation cfg file)) = None
                   /\ lookup (fs (stateOf save))
                        (Path.resolve cwd (staleLocation cfg file))
                      = Some (IDir (now s') true))).
  { destruct (saveTranslatedFile_frame cfg cwd file content s'
                (Path.resolve cwd (staleLocation cfg file))) as [F|[F|[F _]]];
      [now left|now right|]. now elim Ne. }
  exists (staleLocation cfg file).
  rewrite isAlreadyTranslated_run. cbn [traceOf snd]. eexists.
  split; [reflexivity|]. split; [exact E1|]. split; [|split; [|split]].
  - intros q c Hin.
    destruct (saveTranslatedFile_writes file content s' q c Hin) as [-> _].
    split; [exact E2|exact Ne].
  - intros Ok0.
    destruct (saveTranslatedFile_persisted cfg cwd file content s' Ok0)
      as (St & W & _).
    exists (outputLocation cfg cwd file). now split.
  - exact Fr.
  - intros NoFile. rewrite isAlreadyTranslated_run. cbn [resultOf fst]. f_equal.
    unfold upToDate.
    destruct (statOf (fs (stateOf save)) (Path.resolve cwd (staleLocation cfg file)))
      as [o|] eqn:So; [|reflexivity].
    assert (Fo : isFile o = false).
    { destruct Fr as [F|[_ F]].
      - apply NoFile. now rewrite <- (statOf_lookup _ _ _ F).
      - unfold statOf in So. rewrite F in So. now injection So as <-. }
    rewrite Fo.
    destruct (statOf (fs (stateOf save)) (Path.resolve cwd file)); reflexivity.
Qed.

(** X10. For a document directly under the source root the staleness check
    is right: it never throws, changes nothing, and answers [true] exactly
    when the place where the translation of the document is written holds
    a file whose modification time is not earlier than the document's. *)
Theorem top_level_staleness_is_correct (n : string) (s : State) :
  Path.isName n = true ->
  let file := Path.join [SOURCE_DIR cfg; n] in
  let out := Path.resolve cwd (outputLocation cfg cwd file) in
  exists answer t,
    isAlreadyTranslated cfg cwd file s = (Ok answer, s, t)
    /\ (answer = true
        <-> exists o i,
              statOf (fs s) out = Some o
              /\ statOf (fs s) (Path.resolve cwd file) = Some i
              /\ isFile o = true
              /\ (mtime i <= mtime o)%Z).
Proof.
  intros Hn file out. subst out file.
  rewrite <- (top_level_locations cfg cwd n Hn).
  rewrite isAlreadyTranslated_run. eexists _, _. split; [reflexivity|].
  apply upToDate_spec.
Qed.

End Locations.

(** ** The directory of the model *)

Lemma sanitized_valid (m : string) :
  forallb (fun c => negb (invalidChar c))
    (Str.toChars (Str.replaceAll invalidChar "_" m)) = true.
Proof.
  rewrite replaceAll_chars.
  induction m as [|c r IH]; [reflexivity|].
  cbn [Str.toChars map forallb]. rewrite IH, andb_true_r.
  destruct (invalidChar c) eqn:E; [reflexivity|now rewrite E].
Qed.

Lemma sanitized_noSlash (m : string) :
  Path.noSlash (Str.replaceAll invalidChar "_" m) = true.
Proof.
  unfold Path.noSlash. eapply forallb_impl; [|apply sanitized_valid].
  intros c H. cbn beta in H.
  destruct (Ascii.eqb c Path.slash) eqn:E; [|reflexivity].
  apply Ascii.eqb_eq in E. subst c. discriminate H.
Qed.

Lemma sanitized_length (m : string) :
  String.length (Str.replaceAll invalidChar "_" m) = String.length m.
Proof.
  induction m as [|c r IH]; [reflexivity|].
  cbn [Str.replaceAll]. destruct (invalidChar c); cbn; now rewrite IH.
Qed.

(** A string without underscore is the sanitised form of itself only. *)
Lemma sanitized_inv (m t : string) :
  Str.replaceAll invalidChar "_" m = t ->
  forallb (fun c => negb (Ascii.eqb c "_")) (Str.toChars t) = true ->
  m = t.
Proof.
  revert t. induction m as [|c r IH]; intros t E U; [exact E|].
  cbn [Str.replaceAll] in E.
  destruct (invalidChar c) eqn:Ec; cbn in E; subst t; cbn in U.
  - discriminate U.
  - apply andb_true_iff in U as [_ U]. f_equal. now apply IH.
Qed.

Lemma sanitized_isName (m : string) :
  m <> "" -> m <> "." -> m <> ".." ->
  Path.isName (Str.replaceAll invalidChar "_" m) = true.
Proof.
  intros N0 N1 N2. unfold Path.isName, Path.clean, Path.nonEmpty.
  rewrite sanitized_noSlash.
  assert (A : forall t,
            forallb (fun c => negb (Ascii.eqb c "_")) (Str.toChars t) = true ->
            m <> t -> (Str.replaceAll invalidChar "_" m =? t) = false).
  { intros t U Ne. apply String.eqb_neq. intros E. apply Ne.
    now apply sanitized_inv. }
  rewrite (A "" eq_refl N0), (A "." eq_refl N1), (A ".." eq_refl N2).
  reflexivity.
Qed.

(** X12. Whatever characters the model name holds, the directory of the
    model is one component: it holds no separator and is as long as the
    model name, and, unless the model name is empty, [.] or [..],
    [OUTPUT_DIR] is the entry of that name directly under the output
    root. *)
Theorem output_dir_directly_under_root (cfg : Config) (cwd : list string) :
  MODEL_NAME cfg <> "" -> MODEL_NAME cfg <> "." -> MODEL_NAME cfg <> ".." ->
  Path.noSlash (MODEL_DIR_NAME cfg) = true
  /\ String.length (MODEL_DIR_NAME cfg) = String.length (MODEL_NAME cfg)
  /\ Path.resolve cwd (OUTPUT_DIR cfg)
     = Path.resolve cwd (BASE_OUTPUT_DIR cfg) ++ [MODEL_DIR_NAME cfg].
Proof.
  intros N0 N1 N2. unfold OUTPUT_DIR, MODEL_DIR_NAME.
  split; [apply sanitized_noSlash|]. split; [apply sanitized_length|].
  apply PathFacts.resolve_join_name. now apply sanitized_isName.
Qed.

(** X13. Replacing the invalid characters is idempotent: a run for the
    model whose name is the directory name of another model uses the same
    directory name and the same [OUTPUT_DIR], so that two models whose
    names differ only by invalid characters share their translations. *)
Theorem sanitized_name_is_fixed (cfg : Config) :
  let cfg' := {| MODEL_NAME := MODEL_DIR_NAME cfg;
                 SOURCE_DIR := SOURCE_DIR cfg;
                 BASE_OUTPUT_DIR := BASE_OUTPUT_DIR cfg;
                 FORCE_TRANSLATE := FORCE_TRANSLATE cfg |} in
  MODEL_DIR_NAME cfg' = MODEL_DIR_NAME cfg
  /\ OUTPUT_DIR cfg' = OUTPUT_DIR cfg.
Proof.
  intros cfg'.
  assert (E : MODEL_DIR_NAME cfg' = MODEL_DIR_NAME cfg).
  { unfold MODEL_DIR_NAME, cfg'. cbn [MODEL_NAME].
    apply (replaceAll_fixed invalidChar "_"); [reflexivity|].
    apply sanitized_valid. }
  split; [exact E|]. unfold OUTPUT_DIR. now rewrite E.
Qed.

(** ** What [saveTranslatedFile] does to the file system *)

Lemma mkdirs_made (date : Z) (ks : list (list string)) :
  forall f f',
    mkdirs date ks f = (f', true) ->
    forall k, In k ks -> exists m l, lookup f' k = Some (IDir m l).
Proof.
  induction ks as [|k1 r IH]; intros f f' E k Hin; [contradiction|].
  cbn [mkdirs] in E.
  assert (Keep : forall g m l,
            mkdirs date r g = (f', true) ->
            lookup g k1 = Some (IDir m l) ->
            exists m' l', lookup f' k1 = Some (IDir m' l')).
  { intros g m l Eg Hg.
    pose proof (mkdirs_lookup date r g k1) as H.
    rewrite Eg in H. cbn [fst] in H.
    destruct H as [H|[H _]]; [|congruence].
    exists m, l. congruence. }
  destruct (lookup f k1) as [[m c|m l|m|]|] eqn:E1; try discriminate E.
  - destruct Hin as [<-|Hin]; [now apply (Keep f m l)|now apply (IH f f')].
  - destruct Hin as [<-|Hin]; [|now apply (IH _ f' E)].
    apply (Keep _ date true E).
    apply lookup_insert_same. intros ->. discriminate E1.
Qed.


Section Saves.

Variable cfg : Config.
Variable cwd : list string.
Variable generateContent : nat -> string -> string -> Response.

(** X14. When [saveTranslatedFile] reports no error, [OUTPUT_DIR], the
    directory of the output file and all their ancestors are directories
    in the file system it leaves, whether they existed before or not. *)
Theorem save_creates_missing_directories (file content : string) (s : State) :
  let run := saveTranslatedFile cfg cwd file content s in
  let out := outputLocation cfg cwd file in
  existsb isErrorEv (traceOf run) = false ->
  forall k,
    In k (prefixes (Path.resolve cwd (OUTPUT_DIR cfg)))
    \/ In k (prefixes (Path.resolve cwd (Path.dirname out)))
    \/ k = removelast (Path.resolve cwd out) ->
    exists m l, lookup (fs (stateOf run)) k = Some (IDir m l).
Proof.
  intros run out. subst run out.
  unfold saveTranslatedFile, tryCatch, bind, fs_mkdir, fs_writeFile,
    console_log, console_error, emit.
  fold (outputLocation cfg cwd file).
  destruct (mkdirs (now s) (prefixes (Path.resolve cwd (OUTPUT_DIR cfg))) (fs s))
    as [f1 ok1] eqn:M1.
  destruct ok1; [|cbn; discriminate].
  cbn [withFs fs now].
  destruct (mkdirs (now s)
              (prefixes (Path.resolve cwd (Path.dirname (outputLocation cfg cwd file)))) f1)
    as [f2 ok2] eqn:M2.
  destruct ok2; [|cbn; discriminate].
  cbn [withFs fs now].
  destruct (Path.resolve cwd (outputLocation cfg cwd file)) as [|k0 kr] eqn:Ek;
    [cbn; discriminate|].
  destruct (lookup f2 (removelast (k0 :: kr))) as [[m c|m l|m|]|] eqn:Ep;
    try (cbn; discriminate).
  assert (D2 : forall k,
            In k (prefixes (Path.resolve cwd (OUTPUT_DIR cfg)))
            \/ In k (prefixes (Path.resolve cwd
                                 (Path.dirname (outputLocation cfg cwd file))))
            \/ k = removelast (k0 :: kr) ->
            exists m' l', lookup f2 k = Some (IDir m' l')).
  { intros k [H|[H|H]].
    - destruct (mkdirs_made _ _ _ _ M1 k H) as (m1 & l1 & E1).
      pose proof (mkdirs_lookup (now s)
                    (prefixes (Path.resolve cwd
                                 (Path.dirname (outputLocation cfg cwd file)))) f1 k)
        as K.
      rewrite M2 in K. cbn [fst] in K.
      destruct K as [K|[K _]]; [|congruence].
      exists m1, l1. congruence.
    - exact (mkdirs_made _ _ _ _ M2 k H).
    - subst k. now exists m, l. }
  assert (W : forall v,
            (forall m' l', lookup f2 (k0 :: kr) <> Some (IDir m' l')) ->
            forall k,
              In k (prefixes (Path.resolve cwd (OUTPUT_DIR cfg)))
              \/ In k (prefixes (Path.resolve cwd
                                   (Path.dirname (outputLocation cfg cwd file))))
              \/ k = removelast (k0 :: kr) ->
              exists m' l', lookup (insert (k0 :: kr) v f2) k = Some (IDir m' l')).
  { intros v ND k Hk. destruct (D2 k Hk) as (m' & l' & E').
    destruct (keyEqb k (k0 :: kr)) eqn:Eq.
    - apply keyEqb_eq in Eq. subst k. now elim (ND m' l').
    - rewrite lookup_insert_other by assumption. now exists m', l'. }
  destruct (lookup f2 (k0 :: kr)) as [[m' c'|m' l'|m'|]|] eqn:Ef;
    try (cbn; discriminate); intros _;
    cbn [stateOf traceOf fst snd withFs fs]; apply W; discriminate.
Qed.


End Saves.

(** ** The items of a batch *)

Section Items.

Variable cfg : Config.
Variable cwd : list string.
Variable generateContent : nat -> string -> string -> Response.


Lemma save_events_are_item_events (file content : string) (e : Event) :
  isSaveEvent cfg cwd file content e = true -> isItemEvent e = true.
Proof.
  destruct e as [| | | | | | | |m|m]; cbn; try discriminate; try reflexivity;
    destruct m; cbn; try discriminate; reflexivity.
Qed.

(** What an item asks and says, whatever its outcome. *)
Lemma processFile_item_events (file : string) (s : State) :
  forallb isItemEvent (traceOf (processFile cfg cwd generateContent file s)) = true.
Proof.
  rewrite processFile_run.
  assert (C : forallb isItemEvent (checkTrace cfg cwd file s) = true).
  { unfold checkTrace. destruct (FORCE_TRANSLATE cfg); [reflexivity|].
    rewrite isAlreadyTranslated_run. cbn [traceOf snd].
    destruct (statOf _ _); reflexivity. }
  assert (R : forallb isItemEvent (readTrace cwd file s) = true).
  { unfold readTrace. rewrite readMarkdownFile_run.
    destruct (readOf _ _); reflexivity. }
  assert (T : forallb isItemEvent (translateTrace cfg cwd generateContent file s) = true).
  { unfold translateTrace. rewrite translateToJapanese_run. cbn [traceOf snd].
    destruct (nextResponse _ _ _ _); reflexivity. }
  assert (V : forallb isItemEvent (traceOf (saveRun cfg cwd generateContent file s)) = true).
  { unfold saveRun.
    destruct (saveTranslatedFile_run cfg cwd file
                (toText (translationOf cfg cwd generateContent file s))
                (bumpCalls s)) as (f' & ts & Es & Hs).
    rewrite Es. cbn [traceOf snd].
    eapply forallb_impl; [|exact Hs].
    intros e. apply save_events_are_item_events. }
  destruct (outcome cfg cwd generateContent file s); cbn [traceOf snd forallb isItemEvent andb];
    rewrite ?forallb_app, ?C, ?R, ?T, ?V; reflexivity.
Qed.

Lemma batch_item_events (files : list string) (s : State) :
  forallb isItemEvent (concat (itemTraces cfg cwd generateContent files s)) = true.
Proof.
  revert s. induction files as [|file rest IH]; intros s; [reflexivity|].
  cbn [itemTraces concat]. rewrite forallb_app, processFile_item_events.
  apply IH.
Qed.

(** The parts of the trace of an item that [processFile_shape] leaves
    open hold no event of a class [Q] that sets apart from the [stat]
    requests, the diagnostics and what [saveTranslatedFile] asks and says. *)
Lemma shape_sifted (Q : Event -> bool) (file : string) (s : State)
    (tc e1 e2 ts : list Event) :
  forallb isStat tc = true ->
  forallb isErrorEv e1 = true ->
  forallb isErrorEv e2 = true ->
  forallb (isSaveEvent cfg cwd file
             (toText (translationOf cfg cwd generateContent file s))) ts = true ->
  (forall e, isStat e = true -> Q e = false) ->
  (forall e, isErrorEv e = true -> Q e = false) ->
  (forall e, isSaveEvent cfg cwd file
               (toText (translationOf cfg cwd generateContent file s)) e = true ->
             Q e = false) ->
  filter Q tc = [] /\ filter Q e1 = [] /\ filter Q e2 = [] /\ filter Q ts = [].
Proof.
  intros Hc H1 H2 Hs Q0 Q1 Q2.
  repeat split; eapply filter_none; eauto.
Qed.

(** An item is announced once, before anything is done for it. *)
Lemma processFile_announced (file : string) (s : State) :
  filter isProcessingMsg (traceOf (processFile cfg cwd generateContent file s))
  = [EvLog (MsgProcessing file)].
Proof.
  destruct (processFile_shape cfg cwd generateContent file s)
    as (tc & e1 & e2 & ts & f' & Hc & _ & H1 & H2 & Hs & _ & E).
  rewrite E. clear E.
  destruct (shape_sifted isProcessingMsg file s tc e1 e2 ts Hc H1 H2 Hs)
    as (P0 & P1 & P2 & P3); [absurd_class|absurd_class|absurd_msg|].
  destruct (outcome cfg cwd generateContent file s); cbn [traceOf snd filter isProcessingMsg];
    rewrite ?filter_app; cbn [filter isProcessingMsg];
    rewrite ?filter_app; cbn [filter isProcessingMsg];
    rewrite ?filter_app; cbn [filter isProcessingMsg];
    rewrite ?filter_app; cbn [filter isProcessingMsg];
    rewrite ?P0, ?P1, ?P2, ?P3; reflexivity.
Qed.

Lemma batch_announced (files : list string) (s : State) :
  filter isProcessingMsg (concat (itemTraces cfg cwd generateContent files s))
  = map (fun file => EvLog (MsgProcessing file)) files.
Proof.
  revert s. induction files as [|file rest IH]; intros s; [reflexivity|].
  cbn [itemTraces concat map]. rewrite filter_app, processFile_announced, IH.
  reflexivity.
Qed.

(** The requests of an item, and what they cost. *)
Lemma processFile_requests (file : string) (s : State) :
  let k := length (requestOf cfg cwd generateContent file s) in
  filter isGenerate (traceOf (processFile cfg cwd generateContent file s))
  = requestOf cfg cwd generateContent file s
  /\ filter isTimeout (traceOf (processFile cfg cwd generateContent file s)) = repeat (EvTimeout 1000) k
  /\ k <= 1
  /\ calls (afterItem cfg cwd generateContent file s) = calls s + k
  /\ now (afterItem cfg cwd generateContent file s) = (now s + 1000 * Z.of_nat k)%Z.
Proof.
  unfold afterItem, requestOf.
  destruct (processFile_shape cfg cwd generateContent file s)
    as (tc & e1 & e2 & ts & f' & Hc & _ & H1 & H2 & Hs & _ & E).
  rewrite E. clear E.
  destruct (shape_sifted isGenerate file s tc e1 e2 ts Hc H1 H2 Hs)
    as (G0 & G1 & G2 & G3); try absurd_class.
  destruct (shape_sifted isTimeout file s tc e1 e2 ts Hc H1 H2 Hs)
    as (T0 & T1 & T2 & T3); try absurd_class.
  destruct (outcome cfg cwd generateContent file s);
    cbn [traceOf stateOf fst snd length calls now bumpSkipped bumpClock
         bumpCalls bumpTranslated withFs repeat];
    sift; rewrite ?G0, ?G1, ?G2, ?G3, ?T0, ?T1, ?T2, ?T3;
    cbn [app]; repeat split; try reflexivity; try lia.
Qed.

Lemma batch_requests (files : list string) (s : State) :
  let k := length (requests cfg cwd generateContent files s) in
  filter isGenerate (concat (itemTraces cfg cwd generateContent files s))
  = requests cfg cwd generateContent files s
  /\ filter isTimeout (concat (itemTraces cfg cwd generateContent files s)) = repeat (EvTimeout 1000) k
  /\ k <= length files
  /\ calls (afterItems cfg cwd generateContent files s) = calls s + k
  /\ now (afterItems cfg cwd generateContent files s) = (now s + 1000 * Z.of_nat k)%Z.
Proof.
  revert s. induction files as [|file rest IH]; intros s.
  - cbn. repeat split; lia.
  - cbn [itemTraces concat requests afterItems fold_left length].
    destruct (processFile_requests file s) as (G1 & T1 & L1 & C1 & N1).
    destruct (IH (afterItem cfg cwd generateContent file s)) as (G2 & T2 & L2 & C2 & N2).
    cbv zeta in *. unfold afterItems in C2, N2.
    rewrite !filter_app, G1, G2, T1, T2, C2, N2, C1, N1, length_app.
    rewrite repeat_app.
    repeat split; lia.
Qed.

(** X19. The requests of a batch to the service are those of its items, in
    the order of the items, at most one for each: one for every item that
    is not skipped and whose content is not empty, made for the model as
    named on the command line, with the instruction followed by the
    content.  Each request is matched by one delay of 1000 ms: the service
    has received that many more requests when the batch returns, and the
    clock has advanced by 1000 ms for each of them. *)
Theorem batch_requests_in_order (files : list string) (s : State) :
  let run := processBatchWithDelay cfg cwd generateContent files s in
  let asked := requests cfg cwd generateContent files (startBatch s) in
  filter isGenerate (traceOf run) = asked
  /\ filter isTimeout (traceOf run) = repeat (EvTimeout 1000) (length asked)
  /\ length asked <= length files
  /\ calls (stateOf run) = calls s + length asked
  /\ now (stateOf run) = (now s + 1000 * Z.of_nat (length asked))%Z.
Proof.
  intros run asked. subst run asked. rewrite processBatchWithDelay_run.
  cbn [traceOf stateOf fst snd].
  exact (batch_requests files (startBatch s)).
Qed.

(** X20. A batch announces every document it is given once, in the order
    given, whatever becomes of the document. *)
Theorem documents_announced_in_order (files : list string) (s : State) :
  filter isProcessingMsg
    (traceOf (processBatchWithDelay cfg cwd generateContent files s))
  = map (fun file => EvLog (MsgProcessing file)) files.
Proof.
  rewrite processBatchWithDelay_run. cbn [traceOf snd]. apply batch_announced.
Qed.

(** A document that is due and read as empty is not translated. *)
Lemma outcome_unread (file : string) (s : State) :
  due cfg cwd file s = true -> contentOf cwd file s = "" ->
  outcome cfg cwd generateContent file s = Unread.
Proof.
  unfold outcome, due. intros D C. rewrite C. cbn [String.eqb].
  destruct (FORCE_TRANSLATE cfg); cbn in *; [reflexivity|].
  apply negb_true_iff in D. now rewrite D.
Qed.

(** X17. A document that is due and whose content is read as empty, because
    it is empty or because it cannot be read, is passed over: the state,
    counters included, is left as it was, the service is not asked, there
    is no delay and no change of the file system is asked for.  A
    diagnostic is written when the document could not be read, and none
    when it is empty. *)
Theorem empty_document_passed_over (file : string) (s : State) :
  due cfg cwd file s = true ->
  contentOf cwd file s = "" ->
  let run := processFile cfg cwd generateContent file s in
  resultOf run = Ok tt
  /\ stateOf run = s
  /\ In (EvReadFile file) (traceOf run)
  /\ filter isGenerate (traceOf run) = []
  /\ filter isTimeout (traceOf run) = []
  /\ filter isWrite (traceOf run) = []
  /\ existsb isErrorEv (traceOf run)
     = match readOf (fs s) (Path.resolve cwd file) with
       | inl _ => false
       | inr _ => true
       end.
Proof.
  intros D C run. subst run. pose proof (outcome_unread file s D C) as O.
  rewrite processFile_run, O. cbn [resultOf stateOf traceOf fst snd].
  assert (Hc : forallb isStat (checkTrace cfg cwd file s) = true).
  { unfold checkTrace. destruct (FORCE_TRANSLATE cfg); [reflexivity|].
    rewrite isAlreadyTranslated_run. cbn [traceOf snd].
    destruct (statOf _ _); reflexivity. }
  assert (F : forall Q, (forall e, isStat e = true -> Q e = false) ->
                        filter Q (checkTrace cfg cwd file s) = []).
  { intros Q HQ. eapply filter_none; eauto. }
  unfold readTrace. rewrite readMarkdownFile_run.
  split; [reflexivity|]. split; [reflexivity|].
  split.
  { right. apply in_or_app. right.
    destruct (readOf _ _); cbn; tauto. }
  rewrite existsb_filter.
  destruct (readOf (fs s) (Path.resolve cwd file)) as [c|e];
    cbn [traceOf snd];
    (split; [|split; [|split]]); sift;
    rewrite F by absurd_class; reflexivity.
Qed.

(** X16. Without force-mode, a document the staleness check finds
    translated costs the check and nothing else: it is reported as skipped
    and counted once in [skippedCount]; it is not read, the service is not
    asked, there is no delay and no change of the file system is asked
    for. *)
Theorem skipped_document_is_not_read (file : string) (s : State) :
  FORCE_TRANSLATE cfg = false ->
  resultOf (isAlreadyTranslated cfg cwd file s) = Ok true ->
  let run := processFile cfg cwd generateContent file s in
  resultOf run = Ok tt
  /\ stateOf run = bumpSkipped s
  /\ In (EvLog (MsgSkipped file)) (traceOf run)
  /\ filter isRead (traceOf run) = []
  /\ filter isGenerate (traceOf run) = []
  /\ filter isTimeout (traceOf run) = []
  /\ filter isWrite (traceOf run) = [].
Proof.
  intros NF A run. subst run.
  rewrite isAlreadyTranslated_run in A. cbn in A. injection A as A.
  assert (O : outcome cfg cwd generateContent file s = Skipped).
  { unfold outcome. now rewrite NF, A. }
  destruct (processFile_shape cfg cwd generateContent file s)
    as (tc & e1 & e2 & ts & f' & Hc & _ & _ & _ & _ & _ & E).
  rewrite E, O. cbn [resultOf stateOf traceOf fst snd].
  assert (F : forall Q, (forall e, isStat e = true -> Q e = false) ->
                        filter Q tc = []).
  { intros Q HQ. eapply filter_none; eauto. }
  split; [reflexivity|]. split; [reflexivity|].
  split; [right; apply in_or_app; right; now left|].
  repeat split; sift; rewrite F by absurd_class; reflexivity.
Qed.

End Items.

Section Writes.

Variable cfg : Config.
Variable cwd : list string.
Variable generateContent : nat -> string -> string -> Response.

Lemma outcome_translated (file : string) (s : State) :
  outcome cfg cwd generateContent file s = Translated ->
  exists c,
    nextResponse cfg generateContent (contentOf cwd file s) s = Responded (Some c)
    /\ c <> ""
    /\ toText (translationOf cfg cwd generateContent file s) = c.
Proof.
  unfold outcome, translationOf.
  destruct (negb (FORCE_TRANSLATE cfg) && _); [discriminate|].
  destruct (contentOf cwd file s =? ""); [discriminate|].
  destruct (nextResponse cfg generateContent (contentOf cwd file s) s)
    as [e|[c|]]; cbn; try discriminate.
  destruct (c =? "") eqn:E; cbn; [discriminate|].
  intros _. exists c. apply String.eqb_neq in E. auto.
Qed.

(** What an item asks to be written. *)
Lemma processFile_writes (file : string) (s : State) (p c : string) :
  In (EvWriteFile p c) (traceOf (processFile cfg cwd generateContent file s)) ->
  p = outputLocation cfg cwd file
  /\ c <> ""
  /\ generateContent (calls s) (MODEL_NAME cfg) (instruction ++ contentOf cwd file s)
     = Responded (Some c)
  /\ In (EvGenerate (MODEL_NAME cfg) (instruction ++ contentOf cwd file s))
        (traceOf (processFile cfg cwd generateContent file s)).
Proof.
  destruct (processFile_shape cfg cwd generateContent file s)
    as (tc & e1 & e2 & ts & f' & Hc & _ & H1 & H2 & Hs & _ & E).
  rewrite E. clear E.
  assert (N0 : ~ In (EvWriteFile p c) tc)
    by (intros H; now pose proof (forallb_In _ _ _ Hc H)).
  assert (N1 : ~ In (EvWriteFile p c) e1)
    by (intros H; now pose proof (forallb_In _ _ _ H1 H)).
  assert (N2 : ~ In (EvWriteFile p c) e2)
    by (intros H; now pose proof (forallb_In _ _ _ H2 H)).
  destruct (outcome cfg cwd generateContent file s) eqn:O; cbn [traceOf snd];
    intros Hin; pose proof Hin as Hin';
    repeat (apply in_app_or in Hin as [Hin|Hin]
            || destruct Hin as [Hin|Hin]); try contradiction;
    try discriminate Hin.
  pose proof (forallb_In _ _ _ Hs Hin) as S. cbn in S.
  apply andb_true_iff in S as [S1 S2]. apply String.eqb_eq in S1, S2.
  destruct (outcome_translated file s O) as (c' & R & Ne & T).
  split; [exact S1|]. rewrite S2, T. split; [exact Ne|]. split; [exact R|].
  right. apply in_or_app. right. right. apply in_or_app. right. now left.
Qed.

Lemma in_batch (files : list string) (e : Event) :
  forall s,
    In e (concat (itemTraces cfg cwd generateContent files s)) ->
    exists pre file post,
      files = pre ++ file :: post
      /\ In e (traceOf (processFile cfg cwd generateContent file
                          (afterItems cfg cwd generateContent pre s))).
Proof.
  induction files as [|file rest IH]; intros s H; [contradiction|].
  cbn [itemTraces concat] in H. apply in_app_or in H as [H|H].
  - exists [], file, rest. split; [reflexivity|exact H].
  - destruct (IH _ H) as (pre & g & post & E & He).
    exists (file :: pre), g, post. split; [now rewrite E|exact He].
Qed.

Lemma batch_in (pre post : list string) (file : string) (e : Event) (s : State) :
  In e (traceOf (processFile cfg cwd generateContent file
                   (afterItems cfg cwd generateContent pre s))) ->
  In e (concat (itemTraces cfg cwd generateContent (pre ++ file :: post) s)).
Proof.
  intros H. rewrite itemTraces_app, concat_app. apply in_or_app. right.
  cbn [itemTraces concat]. apply in_or_app. now left.
Qed.

(** X18. All that a batch asks to be written are translations of its
    documents: the content of a [writeFile] is never empty; it comes from
    the processing of one document of the batch, in the state the
    documents before it left, and goes to the output location of that
    document; it is the text of the response of the service, as the
    service gave it, to the request made then for that document, the
    instruction followed by the content read from it, a request that the
    trace of the batch holds. *)
Theorem only_translations_are_written
    (files : list string) (s : State) (p c : string) :
  In (EvWriteFile p c)
     (traceOf (processBatchWithDelay cfg cwd generateContent files s)) ->
  c <> ""
  /\ exists pre file post content,
       files = pre ++ file :: post
       /\ p = outputLocation cfg cwd file
       /\ resultOf (readMarkdownFile cwd file
                      (stateOf (processBatchWithDelay cfg cwd generateContent pre s)))
          = Ok content
       /\ generateContent
            (calls (stateOf (processBatchWithDelay cfg cwd generateContent pre s)))
            (MODEL_NAME cfg) (instruction ++ content)
          = Responded (Some c)
       /\ In (EvGenerate (MODEL_NAME cfg) (instruction ++ content))
             (traceOf (processBatchWithDelay cfg cwd generateContent files s))
       /\ In (EvWriteFile p c)
             (traceOf (processFile cfg cwd generateContent file
                         (stateOf (processBatchWithDelay cfg cwd generateContent
                                     pre s)))).
Proof.
  rewrite (processBatchWithDelay_run cfg cwd generateContent files).
  cbn [traceOf snd]. intros H.
  destruct (in_batch files _ _ H) as (pre & file & post & E & He).
  destruct (processFile_writes file _ p c He) as (P & Ne & R & G).
  split; [exact Ne|]. exists pre, file, post, (contentOf cwd file
    (afterItems cfg cwd generateContent pre (startBatch s))).
  rewrite (processBatchWithDelay_run cfg cwd generateContent pre).
  cbn [stateOf fst snd].
  split; [exact E|]. split; [exact P|]. split.
  { rewrite readMarkdownFile_run. unfold contentOf.
    destruct (readOf _ _); reflexivity. }
  split; [exact R|]. split; [|exact He].
  rewrite E. now apply batch_in.
Qed.

Lemma batch_frame (files : list string) (k : list string) :
  forall s v,
    lookup (fs s) k = Some v ->
    (exists v', lookup (fs (afterItems cfg cwd generateContent files s)) k = Some v')
    /\ ((forall f, In f files ->
           k <> Path.resolve cwd (outputLocation cfg cwd f)) ->
        lookup (fs (afterItems cfg cwd generateContent files s)) k = Some v).
Proof.
  induction files as [|g rest IH]; intros s v H.
  - cbn. split; [now exists v|auto].
  - cbn [afterItems fold_left].
    destruct (item_frame cfg cwd generateContent g s k) as [[F|[[F _]|[F1 [c F2]]]] _].
    + rewrite <- F in H. destruct (IH _ _ H) as [I1 I2].
      split; [exact I1|]. intros A. apply I2. intros f Hf. apply A. now right.
    + congruence.
    + destruct (IH _ _ F2) as [I1 _]. split; [exact I1|].
      intros A. now elim (A g (or_introl eq_refl)).
Qed.

(** X21. A batch removes nothing: an entry of the file system still exists
    when the batch returns, and is exactly as it was unless it lies at the
    output location of a document of the batch. *)
Theorem batch_leaves_other_entries
    (files : list string) (s : State) (k : list string) (v : Inode) :
  lookup (fs s) k = Some v ->
  let after := fs (stateOf (processBatchWithDelay cfg cwd generateContent files s)) in
  (exists v', lookup after k = Some v')
  /\ ((forall f, In f files ->
         k <> Path.resolve cwd (outputLocation cfg cwd f)) ->
      lookup after k = Some v).
Proof.
  intros H after. subst after. rewrite processBatchWithDelay_run.
  cbn [stateOf fst snd]. now apply batch_frame.
Qed.

End Writes.

Section Lines.

Variable cfg : Config.
Variable cwd : list string.
Variable generateContent : nat -> string -> string -> Response.

(** A call of [saveTranslatedFile] ends with one line, of success or of
    failure. *)
Lemma saveTranslatedFile_one_line (file content : string) (s : State) :
  length (filter isSaveLine (traceOf (saveTranslatedFile cfg cwd file content s)))
  = 1.
Proof.
  unfold saveTranslatedFile, tryCatch, bind, fs_mkdir, fs_writeFile,
    console_log, console_error, emit.
  destruct (mkdirs (now s) (prefixes (Path.resolve cwd (OUTPUT_DIR cfg))) (fs s))
    as [f1 [|]]; [|reflexivity].
  cbn [withFs fs now].
  destruct (mkdirs (now s) _ f1) as [f2 [|]]; [|reflexivity].
  cbn [withFs fs now].
  destruct (Path.resolve cwd _) as [|k0 kr]; [reflexivity|].
  destruct (lookup f2 (removelast (k0 :: kr))) as [[m c|m l|m|]|];
    try reflexivity.
  destruct (lookup f2 (k0 :: kr)) as [[m' c'|m' l'|m'|]|]; reflexivity.
Qed.

Lemma processFile_lines (file : string) (s : State) :
  let t := traceOf (processFile cfg cwd generateContent file s) in
  translatedCount (afterItem cfg cwd generateContent file s)
  = translatedCount s + length (filter isSaveLine t)
  /\ skippedCount (afterItem cfg cwd generateContent file s)
     = skippedCount s + length (filter isSkippedMsg t).
Proof.
  unfold afterItem. rewrite processFile_run.
  assert (C : filter isSaveLine (checkTrace cfg cwd file s) = []
              /\ filter isSkippedMsg (checkTrace cfg cwd file s) = []).
  { unfold checkTrace. destruct (FORCE_TRANSLATE cfg); [now split|].
    rewrite isAlreadyTranslated_run. cbn [traceOf snd].
    destruct (statOf _ _); now split. }
  assert (R : filter isSaveLine (readTrace cwd file s) = []
              /\ filter isSkippedMsg (readTrace cwd file s) = []).
  { unfold readTrace. rewrite readMarkdownFile_run.
    destruct (readOf _ _); now split. }
  assert (T : filter isSaveLine (translateTrace cfg cwd generateContent file s) = []
              /\ filter isSkippedMsg (translateTrace cfg cwd generateContent file s) = []).
  { unfold translateTrace. rewrite translateToJapanese_run. cbn [traceOf snd].
    destruct (nextResponse _ _ _ _); now split. }
  assert (V : length (filter isSaveLine (traceOf (saveRun cfg cwd generateContent file s))) = 1
              /\ filter isSkippedMsg (traceOf (saveRun cfg cwd generateContent file s)) = []).
  { unfold saveRun. split; [apply saveTranslatedFile_one_line|].
    destruct (saveTranslatedFile_run cfg cwd file
                (toText (translationOf cfg cwd generateContent file s))
                (bumpCalls s)) as (f' & ts & Es & Hs).
    rewrite Es. cbn [traceOf snd].
    eapply filter_none; [exact Hs|].
    intros e H. destruct e as [| | | | | | | |m|m]; cbn in *;
      try reflexivity; try discriminate H.
    destruct m; cbn in *; try reflexivity; discriminate H. }
  destruct C as [C1 C2], R as [R1 R2], T as [T1 T2], V as [V1 V2].
  destruct (outcome cfg cwd generateContent file s);
    cbn [traceOf stateOf fst snd translatedCount skippedCount bumpSkipped
         bumpClock bumpCalls bumpTranslated];
    cbn [filter isSaveLine isSkippedMsg];
    rewrite ?filter_app, ?C1, ?C2, ?R1, ?R2, ?T1, ?T2, ?V2;
    cbn [filter isSaveLine isSkippedMsg app length];
    rewrite ?length_app, ?V1; cbn [length]; try lia.
  destruct (saveTranslatedFile_run cfg cwd file
              (toText (translationOf cfg cwd generateContent file s))
              (bumpCalls s)) as (f' & ts & Es & _).
  unfold saveRun. rewrite Es. cbn. lia.
Qed.

Lemma batch_lines (files : list string) (s : State) :
  let t := concat (itemTraces cfg cwd generateContent files s) in
  translatedCount (afterItems cfg cwd generateContent files s)
  = translatedCount s + length (filter isSaveLine t)
  /\ skippedCount (afterItems cfg cwd generateContent files s)
     = skippedCount s + length (filter isSkippedMsg t).
Proof.
  revert s. induction files as [|file rest IH]; intros s; [cbn; lia|].
  cbn [itemTraces concat afterItems fold_left].
  destruct (processFile_lines file s) as [A1 A2].
  destruct (IH (afterItem cfg cwd generateContent file s)) as [B1 B2].
  cbv zeta in *. unfold afterItems in B1, B2.
  rewrite !filter_app, !length_app, B1, B2, A1, A2. lia.
Qed.

(** X26. The two counters a batch returns agree with what it logged:
    [translatedCount] is the number of lines that end a call of
    [saveTranslatedFile], of success and of failure alike, and
    [skippedCount] is the number of documents reported as skipped. *)
Theorem counters_match_log (files : list string) (s : State) :
  let run := processBatchWithDelay cfg cwd generateContent files s in
  resultOf run
  = Ok (length (filter isSaveLine (traceOf run)),
        length (filter isSkippedMsg (traceOf run))).
Proof.
  intros run. subst run. rewrite processBatchWithDelay_run.
  cbn [resultOf traceOf fst snd].
  destruct (batch_lines files (startBatch s)) as [A B]. cbv zeta in A, B.
  rewrite A, B. reflexivity.
Qed.

(** X27. The staleness check depends on nothing but what [stat] reports of
    the two entries it examines: in two states where these reports are the
    same, whatever the contents of the files, it answers the same and asks
    the same. *)
Theorem staleness_depends_on_stats_only (p : string) (s1 s2 : State) :
  statOf (fs s1) (Path.resolve cwd (staleLocation cfg p))
  = statOf (fs s2) (Path.resolve cwd (staleLocation cfg p)) ->
  statOf (fs s1) (Path.resolve cwd p) = statOf (fs s2) (Path.resolve cwd p) ->
  resultOf (isAlreadyTranslated cfg cwd p s1)
  = resultOf (isAlreadyTranslated cfg cwd p s2)
  /\ traceOf (isAlreadyTranslated cfg cwd p s1)
     = traceOf (isAlreadyTranslated cfg cwd p s2).
Proof.
  intros H1 H2. rewrite !isAlreadyTranslated_run. unfold upToDate.
  cbn [resultOf traceOf fst snd]. now rewrite H1, H2.
Qed.

End Lines.

(** ** Force-mode *)

Section Force.

Variable cfg : Config.
Variable cwd : list string.
Variable generateContent : nat -> string -> string -> Response.

Hypothesis forced : FORCE_TRANSLATE cfg = true.

Lemma due_forced (file : string) (s : State) : due cfg cwd file s = true.
Proof. unfold due. now rewrite forced. Qed.

Lemma checkTrace_forced (file : string) (s : State) : checkTrace cfg cwd file s = [].
Proof. unfold checkTrace. now rewrite forced. Qed.

Lemma outcome_forced_empty (file : string) (s : State) :
  contentOf cwd file s = "" -> outcome cfg cwd generateContent file s = Unread.
Proof.
  intros C. unfold outcome. now rewrite forced, C.
Qed.

Lemma requestOf_forced (file : string) (s : State) (content : string) :
  resultOf (readMarkdownFile cwd file s) = Ok content ->
  requestOf cfg cwd generateContent file s
  = if content =? "" then []
    else [EvGenerate (MODEL_NAME cfg) (instruction ++ content)].
Proof.
  intros R. destruct (readMarkdownFile_content cwd file s content R) as [-> _].
  unfold requestOf, outcome. rewrite forced. cbn [negb andb].
  destruct (contentOf cwd file s =? ""); [reflexivity|].
  destruct (truthy _); reflexivity.
Qed.

(** C8. With force-mode the batch asks for no [stat] at all, and [stat] is
    all [isAlreadyTranslated] does: the staleness check is never made; no
    document is reported as skipped and [skippedCount] is 0 at the end.
    Every document of the batch is read, in order, and goes on to its
    translation whatever the file system holds at the output locations:
    the requests of the batch to the service are those of its documents,
    in order, one for every document whose content is not empty, for that
    content; a document read as empty is left there; a document for which
    the service gives no text is followed by the delay and by nothing
    else; and a document for which the service gives a text has that text
    handed to [saveTranslatedFile], which writes it at the output location
    over what was there, and is counted: [translatedCount] is the number
    of calls of [saveTranslatedFile]. *)
Theorem force_bypasses_staleness :
  (forall files s,
     exists n s' t,
       processBatchWithDelay cfg cwd generateContent files s = (Ok (n, 0), s', t)
       /\ filter isStat t = []
       /\ filter isRead t = map EvReadFile files
       /\ filter isSkippedMsg t = []
       /\ filter isGenerate t
          = requests cfg cwd generateContent files (startBatch s)
       /\ n = length (filter isSaveLine t))
  /\ (forall file s content,
        resultOf (readMarkdownFile cwd file s) = Ok content ->
        requestOf cfg cwd generateContent file s
        = if content =? "" then []
          else [EvGenerate (MODEL_NAME cfg) (instruction ++ content)])
  /\ (forall file s,
        resultOf (readMarkdownFile cwd file s) = Ok "" ->
        processFile cfg cwd generateContent file s
        = (Ok tt, s,
           EvLog (MsgProcessing file) :: traceOf (readMarkdownFile cwd file s)))
  /\ (forall file s content,
        resultOf (readMarkdownFile cwd file s) = Ok content ->
        content <> "" ->
        unusable (generateContent (calls s) (MODEL_NAME cfg)
                    (instruction ++ content)) = true ->
        exists e2,
          forallb isErrorEv e2 = true
          /\ processFile cfg cwd generateContent file s
             = (Ok tt, bumpClock 1000 (bumpCalls s),
                [EvLog (MsgProcessing file); EvReadFile file;
                 EvGenerate (MODEL_NAME cfg) (instruction ++ content)]
                  ++ e2 ++ [EvTimeout 1000]))
  /\ (forall file s content text,
        resultOf (readMarkdownFile cwd file s) = Ok content ->
        content <> "" ->
        generateContent (calls s) (MODEL_NAME cfg) (instruction ++ content)
        = Responded (Some text) ->
        text <> "" ->
        let save := saveTranslatedFile cfg cwd file text (bumpCalls s) in
        processFile cfg cwd generateContent file s
        = (Ok tt, bumpClock 1000 (bumpTranslated (stateOf save)),
           [EvLog (MsgProcessing file); EvReadFile file;
            EvGenerate (MODEL_NAME cfg) (instruction ++ content)]
             ++ traceOf save ++ [EvTimeout 1000])
        /\ (existsb isErrorEv (traceOf save) = false ->
            In (EvWriteFile (outputLocation cfg cwd file) text) (traceOf save)
            /\ lookup (fs (stateOf save))
                 (Path.resolve cwd (outputLocation cfg cwd file))
               = Some (IFile (now s) text))).
Proof.
  split; [|split; [|split; [|split]]].
  - intros files s. rewrite processBatchWithDelay_run.
    destruct (batch_forced cfg cwd generateContent files (startBatch s) forced)
      as (C & S1 & R1 & K1).
    destruct (batch_requests cfg cwd generateContent files (startBatch s))
      as (G & _).
    destruct (batch_lines cfg cwd generateContent files (startBatch s)) as [T _].
    cbv zeta in S1, R1, K1, G, T.
    eexists _, _, _. split; [rewrite C; reflexivity|].
    repeat split; assumption.
  - exact requestOf_forced.
  - intros file s R.
    destruct (readMarkdownFile_content cwd file s "" R) as [C _].
    rewrite processFile_run, (outcome_forced_empty file s (eq_sym C)).
    now rewrite checkTrace_forced.
  - intros file s content R Nc U.
    destruct (processFile_untranslated cfg cwd generateContent file s content
                (due_forced file s) R Nc U) as (e2 & H2 & E).
    exists e2. split; [exact H2|]. now rewrite checkTrace_forced in E.
  - intros file s content text R Nc G Nt save. split.
    + rewrite (processFile_translated cfg cwd generateContent file s content text
                 (due_forced file s) R Nc G Nt).
      now rewrite checkTrace_forced.
    + intros Ok0.
      destruct (saveTranslatedFile_persisted cfg cwd file text (bumpCalls s) Ok0)
        as (St & W & _).
      split; [exact W|exact St].
Qed.

End Force.

(** ** The run, from the access check to the summary *)

Section WholeRun.

Variable cfg : Config.
Variable cwd : list string.
Variable generateContent : nat -> string -> string -> Response.

Lemma translateMarkdownFiles_run (fuel : nat) (s : State) :
  translateMarkdownFiles cfg cwd generateContent fuel s
  = let scan := traceOf (findMarkdownFiles cwd fuel (SOURCE_DIR cfg) s) in
    match resultOf (findMarkdownFiles cwd fuel (SOURCE_DIR cfg) s) with
    | Ok [] =>
        (Ok tt, s, EvLog (MsgSearching (SOURCE_DIR cfg)) :: scan ++ [EvLog MsgNoneFound])
    | Ok files =>
        let s' := afterItems cfg cwd generateContent files (startBatch s) in
        (Ok tt, s',
         EvLog (MsgSearching (SOURCE_DIR cfg)) :: scan
           ++ header cfg (length files)
           ++ concat (itemTraces cfg cwd generateContent files (startBatch s))
           ++ summary (length files) (translatedCount s') (skippedCount s'))
    | _ => (Diverge, s, EvLog (MsgSearching (SOURCE_DIR cfg)) :: scan)
    end.
Proof.
  unfold translateMarkdownFiles, tryCatch, bind, console_log, emit.
  destruct (findMarkdownFiles_quiet cwd fuel (SOURCE_DIR cfg) s) as [Hs Hq].
  destruct (findMarkdownFiles cwd fuel (SOURCE_DIR cfg) s)
    as [[[l|e|c|] s1] t1]; cbn in Hs, Hq; try contradiction; subst s1;
    [|reflexivity].
  cbn [resultOf traceOf fst snd].
  destruct l as [|f0 l0]; [reflexivity|].
  cbn [length Nat.eqb]. unfold header, summary.
  destruct (FORCE_TRANSLATE cfg); unfold ret;
    rewrite processBatchWithDelay_run; cbn [fst snd app];
    rewrite ?app_nil_r, <- ?app_assoc; reflexivity.
Qed.

Lemma main_run (fuel : nat) (s : State) :
  main cfg cwd generateContent fuel s
  = if accessible (fs s) (Path.resolve cwd (SOURCE_DIR cfg))
    then (resultOf (translateMarkdownFiles cfg cwd generateContent fuel s),
          stateOf (translateMarkdownFiles cfg cwd generateContent fuel s),
          EvAccess (SOURCE_DIR cfg)
            :: traceOf (translateMarkdownFiles cfg cwd generateContent fuel s))
    else (Exit 1, s,
          [EvAccess (SOURCE_DIR cfg);
           EvError (MsgNoSourceDir (SOURCE_DIR cfg));
           EvLog MsgHint]).
Proof.
  pose proof (translateMarkdownFiles_result cfg cwd generateContent fuel s) as T.
  unfold main, checkSourceDirectory, tryCatch, bind, fs_access, accessible.
  destruct (lookup (fs s) (Path.resolve cwd (SOURCE_DIR cfg)))
    as [[m c|m l|m|]|]; try reflexivity;
    destruct (translateMarkdownFiles cfg cwd generateContent fuel s)
      as [[[u|e|c0|] s1] t1]; try reflexivity;
    cbn in T;
    destruct (resultOf (findMarkdownFiles cwd fuel (SOURCE_DIR cfg) s));
    discriminate T.
Qed.

(** X22. When the scanner finds documents, [translateMarkdownFiles] scans
    the whole tree before it processes anything, processes the files found
    in the state the scan left, and ends with the summary of that batch:
    the number of files found and the two counters the batch returned,
    which together do not exceed that number. *)
Theorem summary_reports_batch
    (fuel : nat) (s : State) (files : list string) :
  resultOf (findMarkdownFiles cwd fuel (SOURCE_DIR cfg) s) = Ok files ->
  files <> [] ->
  let scan := traceOf (findMarkdownFiles cwd fuel (SOURCE_DIR cfg) s) in
  let batch := processBatchWithDelay cfg cwd generateContent files s in
  exists t k,
    resultOf batch = Ok (t, k)
    /\ t + k <= length files
    /\ translateMarkdownFiles cfg cwd generateContent fuel s
       = (Ok tt, stateOf batch,
          EvLog (MsgSearching (SOURCE_DIR cfg)) :: scan
            ++ header cfg (length files)
            ++ traceOf batch
            ++ summary (length files) t k).
Proof.
  intros E Ne scan batch. subst scan batch.
  rewrite translateMarkdownFiles_run, E, processBatchWithDelay_run.
  cbn [resultOf stateOf traceOf fst snd].
  eexists _, _. split; [reflexivity|].
  split.
  - pose proof (batch_counts cfg cwd generateContent files (startBatch s)) as H.
    cbn in H. lia.
  - destruct files; [congruence|reflexivity].
Qed.

Lemma scan_no_outer_catch (t : list Event) :
  forallb isScanEvent t = true -> filter isOuterCatchMsg t = [].
Proof.
  intros H. eapply filter_none; [exact H|].
  intros e He. destruct e as [| | | | | | | |m|m]; cbn in *;
    try reflexivity; try discriminate He.
  destruct m; cbn in *; try reflexivity; discriminate He.
Qed.

Lemma items_no_outer_catch (t : list Event) :
  forallb isItemEvent t = true -> filter isOuterCatchMsg t = [].
Proof.
  intros H. eapply filter_none; [exact H|].
  intros e He. destruct e as [| | | | | | | |m|m]; cbn in *;
    try reflexivity; try discriminate He;
    destruct m; cbn in *; try reflexivity; discriminate He.
Qed.

(** X23. The [catch] blocks of the loop body, of [translateMarkdownFiles]
    and of [main] are never entered: every function they guard handles its
    own errors, so that none of their three lines is ever written. *)
Theorem outer_catches_never_reached (fuel : nat) (s : State) :
  filter isOuterCatchMsg (traceOf (main cfg cwd generateContent fuel s)) = [].
Proof.
  rewrite main_run.
  destruct (accessible (fs s) (Path.resolve cwd (SOURCE_DIR cfg)));
    [|reflexivity].
  cbn [traceOf snd filter isOuterCatchMsg].
  rewrite translateMarkdownFiles_run. cbv zeta.
  pose proof (scan_no_outer_catch _
                (findMarkdownFiles_scan_events cwd fuel (SOURCE_DIR cfg) s)) as S.
  destruct (resultOf (findMarkdownFiles cwd fuel (SOURCE_DIR cfg) s))
    as [[|f0 l0]|e|c|]; cbn [traceOf snd filter isOuterCatchMsg];
    rewrite ?filter_app, ?S; try reflexivity.
  rewrite (items_no_outer_catch _
             (batch_item_events cfg cwd generateContent (f0 :: l0) (startBatch s))).
  unfold header. destruct (FORCE_TRANSLATE cfg); reflexivity.
Qed.

(** X24. A source root that exists and cannot be listed (a plain file, a
    directory without read permission) passes the access check: the run
    writes the diagnostic of the scanner, reports that no document was
    found and ends normally, the state unchanged. *)
Theorem unreadable_root_is_not_fatal (fuel : nat) (s : State) :
  accessible (fs s) (Path.resolve cwd (SOURCE_DIR cfg)) = true ->
  listing (fs s) (Path.resolve cwd (SOURCE_DIR cfg)) = None ->
  exists e,
    main cfg cwd generateContent (S fuel) s
    = (Ok tt, s,
       [EvAccess (SOURCE_DIR cfg);
        EvLog (MsgSearching (SOURCE_DIR cfg));
        EvReaddir (SOURCE_DIR cfg);
        EvError (MsgDirReadError (SOURCE_DIR cfg) e);
        EvLog MsgNoneFound]).
Proof.
  intros A L.
  destruct (findMarkdownFiles_unreadable cwd fuel (SOURCE_DIR cfg) s L) as [e E].
  exists e. rewrite main_run, A, translateMarkdownFiles_run, E. reflexivity.
Qed.

End WholeRun.

Section Below.

Variable cfg : Config.
Variable cwd : list string.
Variable generateContent : nat -> string -> string -> Response.

Lemma main_writes (fuel : nat) (s : State) (p c : string) :
  In (EvWriteFile p c) (traceOf (main cfg cwd generateContent fuel s)) ->
  exists files file,
    resultOf (findMarkdownFiles cwd fuel (SOURCE_DIR cfg) s) = Ok files
    /\ In file files
    /\ p = outputLocation cfg cwd file
    /\ c <> "".
Proof.
  rewrite main_run.
  destruct (accessible (fs s) (Path.resolve cwd (SOURCE_DIR cfg)));
    [|cbn; intuition discriminate].
  cbn [traceOf snd]. rewrite translateMarkdownFiles_run. cbv zeta.
  pose proof (findMarkdownFiles_scan_events cwd fuel (SOURCE_DIR cfg) s) as Sc.
  assert (N : ~ In (EvWriteFile p c)
                (traceOf (findMarkdownFiles cwd fuel (SOURCE_DIR cfg) s)))
    by (intros H; now pose proof (forallb_In _ _ _ Sc H)).
  destruct (resultOf (findMarkdownFiles cwd fuel (SOURCE_DIR cfg) s))
    as [[|f0 l0]|e|c0|]; cbn [traceOf snd]; intros Hin;
    repeat (destruct Hin as [Hin|Hin]; [discriminate Hin|]);
    try (apply in_app_or in Hin as [Hin|Hin]; [contradiction|]);
    try contradiction;
    try (cbn in Hin; intuition discriminate).
  unfold header in Hin.
  apply in_app_or in Hin as [Hin|Hin].
  { destruct (FORCE_TRANSLATE cfg); cbn in Hin; intuition discriminate. }
  apply in_app_or in Hin as [Hin|Hin]; [|cbn in Hin; intuition discriminate].
  destruct (in_batch cfg cwd generateContent _ _ _ Hin)
    as (pre & file & post & E & He).
  destruct (processFile_writes cfg cwd generateContent file _ p c He)
    as (P & Ne & _).
  exists (f0 :: l0), file. split; [reflexivity|]. split; [|now split].
  rewrite E. apply in_or_app. right. now left.
Qed.

(** X25. In a file system whose entries are stored under names, every file
    a run asks to write lies below [OUTPUT_DIR], at the end of the same way
    down as leads from the source root to a document the scanner
    returned. *)
Theorem writes_stay_below_output_dir
    (fuel : nat) (s : State) (p c : string) :
  wellFormed (fs s) = true ->
  In (EvWriteFile p c) (traceOf (main cfg cwd generateContent fuel s)) ->
  exists rel,
    rel <> []
    /\ Forall (fun n => Path.isName n = true) rel
    /\ p = outputLocation cfg cwd (Path.under (SOURCE_DIR cfg) rel)
    /\ Path.resolve cwd p = Path.resolve cwd (OUTPUT_DIR cfg) ++ rel
    /\ exists files,
         resultOf (findMarkdownFiles cwd fuel (SOURCE_DIR cfg) s) = Ok files
         /\ In (Path.under (SOURCE_DIR cfg) rel) files.
Proof.
  intros W H.
  destruct (main_writes fuel s p c H) as (files & file & Hv & Hf & P & _).
  destruct (findMarkdownFiles_names cwd fuel (SOURCE_DIR cfg) s files file W Hv Hf)
    as (rel & Ne & F & E).
  subst file p. exists rel. split; [exact Ne|]. split; [exact F|].
  split; [reflexivity|]. split; [|now exists files].
  unfold outputLocation. rewrite PathFacts.relative_under by assumption.
  now apply PathBelow.resolve_join_names.
Qed.

End Below.

(** ** The further properties at work *)

Lemma scanner_returns_documents_witness :
  let s := World.boot World.tree in
  resultOf (findMarkdownFiles World.cwd 4 "./src" s)
  = Ok ["src/a/doc.md"; "src/top.md"]
  /\ In "src/a/doc.md" ["src/a/doc.md"; "src/top.md"]
  /\ exists rel n st names,
       "src/a/doc.md" = Path.under "./src" (rel ++ [n])
       /\ (Str.endsWith n ".md" || Str.endsWith n ".markdown") = true
       /\ statOf (fs s) (Path.resolve World.cwd "src/a/doc.md") = Some st
       /\ isDirectory st = false
       /\ listing (fs s) (Path.resolve World.cwd (Path.under "./src" rel))
          = Some names
       /\ In n names.
Proof.
  intros s.
  assert (E : resultOf (findMarkdownFiles World.cwd 4 "./src" s)
              = Ok ["src/a/doc.md"; "src/top.md"]) by (vm_compute; reflexivity).
  assert (I : In "src/a/doc.md" ["src/a/doc.md"; "src/top.md"]) by now left.
  split; [exact E|]. split; [exact I|].
  exact (scanner_returns_documents World.cwd 4 "./src" s _ "src/a/doc.md" E I).
Defined.

Lemma scanner_finds_documents_witness :
  let s := World.boot World.tree in
  resultOf (findMarkdownFiles World.cwd 4 "./src" s)
  = Ok ["src/a/doc.md"; "src/top.md"]
  /\ leadsTo World.cwd s "./src" ["a"]
  /\ lists World.cwd s (Path.under "./src" ["a"]) "doc.md" false
  /\ In (Path.under "./src" ["a"; "doc.md"]) ["src/a/doc.md"; "src/top.md"].
Proof.
  intros s.
  assert (E : resultOf (findMarkdownFiles World.cwd 4 "./src" s)
              = Ok ["src/a/doc.md"; "src/top.md"]) by (vm_compute; reflexivity).
  assert (L : leadsTo World.cwd s "./src" ["a"]).
  { split; [|split; [|split; [|exact I]]].
    - exists ["a"; "top.md"; "notes.txt"]. split; [reflexivity|].
      intros n [<-|[<-|[<-|[]]]]; vm_compute; discriminate.
    - exists ["a"; "top.md"; "notes.txt"], {| kind := KDir; mtime := 2 |}.
      repeat split. now left.
    - exists ["doc.md"]. split; [reflexivity|].
      intros n [<-|[]]; vm_compute; discriminate. }
  assert (D : lists World.cwd s (Path.under "./src" ["a"]) "doc.md" false).
  { exists ["doc.md"], {| kind := KFile; mtime := 10 |}.
    repeat split. now left. }
  split; [exact E|]. split; [exact L|]. split; [exact D|].
  exact (scanner_finds_documents World.cwd 4 "./src" s _ ["a"] "doc.md"
           E L D eq_refl).
Defined.

Lemma top_level_staleness_is_correct_witness :
  Path.isName "top.md" = true
  /\ exists answer t,
       isAlreadyTranslated World.cfg World.cwd "src/top.md" (World.boot World.half)
       = (Ok answer, World.boot World.half, t)
       /\ (answer = true
           <-> exists o i,
                 statOf World.half
                   (Path.resolve World.cwd
                      (outputLocation World.cfg World.cwd "src/top.md")) = Some o
                 /\ statOf World.half (Path.resolve World.cwd "src/top.md") = Some i
                 /\ isFile o = true
                 /\ (mtime i <= mtime o)%Z).
Proof.
  split; [reflexivity|].
  exact (top_level_staleness_is_correct World.cfg World.cwd "top.md"
           (World.boot World.half) eq_refl).
Defined.

Lemma output_dir_directly_under_root_witness :
  MODEL_NAME World.qualified <> ""
  /\ MODEL_NAME World.qualified <> "."
  /\ MODEL_NAME World.qualified <> ".."
  /\ Path.noSlash (MODEL_DIR_NAME World.qualified) = true
  /\ String.length (MODEL_DIR_NAME World.qualified) = 23
  /\ Path.resolve World.cwd (OUTPUT_DIR World.qualified)
     = ["home"; "u"; "out"; "models_gemini-2.0-flash"].
Proof.
  assert (N0 : MODEL_NAME World.qualified <> "") by discriminate.
  assert (N1 : MODEL_NAME World.qualified <> ".") by discriminate.
  assert (N2 : MODEL_NAME World.qualified <> "..") by discriminate.
  split; [exact N0|]. split; [exact N1|]. split; [exact N2|].
  exact (output_dir_directly_under_root World.qualified World.cwd N0 N1 N2).
Defined.

Lemma save_creates_missing_directories_witness :
  let run := saveTranslatedFile World.cfg World.cwd "src/a/doc.md" "JA"
               (World.boot World.tree) in
  existsb isErrorEv (traceOf run) = false
  /\ lookup World.tree ["home"; "u"; "out"] = None
  /\ exists m l,
       lookup (fs (stateOf run)) ["home"; "u"; "out"; "gemini-2.0-flash"; "a"]
       = Some (IDir m l).
Proof.
  intros run. split; [reflexivity|]. split; [reflexivity|].
  apply (save_creates_missing_directories World.cfg World.cwd "src/a/doc.md" "JA"
           (World.boot World.tree) eq_refl).
  right. left. vm_compute. tauto.
Defined.


Lemma skipped_document_is_not_read_witness :
  let s := World.boot World.half in
  let run := processFile World.cfg World.cwd World.obliging "src/top.md" s in
  FORCE_TRANSLATE World.cfg = false
  /\ resultOf (isAlreadyTranslated World.cfg World.cwd "src/top.md" s) = Ok true
  /\ resultOf run = Ok tt
  /\ stateOf run = bumpSkipped s
  /\ In (EvLog (MsgSkipped "src/top.md")) (traceOf run)
  /\ filter isRead (traceOf run) = []
  /\ filter isGenerate (traceOf run) = []
  /\ filter isTimeout (traceOf run) = []
  /\ filter isWrite (traceOf run) = [].
Proof.
  intros s run. split; [reflexivity|]. split; [reflexivity|].
  exact (skipped_document_is_not_read World.cfg World.cwd World.obliging
           "src/top.md" s eq_refl eq_refl).
Defined.

Lemma empty_document_passed_over_witness :
  let s := World.boot World.blank in
  let run := processFile World.cfg World.cwd World.obliging "src/empty.md" s in
  due World.cfg World.cwd "src/empty.md" s = true
  /\ contentOf World.cwd "src/empty.md" s = ""
  /\ resultOf run = Ok tt
  /\ stateOf run = s
  /\ In (EvReadFile "src/empty.md") (traceOf run)
  /\ filter isGenerate (traceOf run) = []
  /\ filter isTimeout (traceOf run) = []
  /\ filter isWrite (traceOf run) = []
  /\ existsb isErrorEv (traceOf run) = false.
Proof.
  intros s run. split; [reflexivity|]. split; [reflexivity|].
  exact (empty_document_passed_over World.cfg World.cwd World.obliging
           "src/empty.md" s eq_refl eq_refl).
Defined.

Lemma batch_leaves_other_entries_witness :
  let files := ["src/one.md"; "src/two.md"; "src/three.md"] in
  let s := World.boot World.three in
  let k := ["home"; "u"; "src"; "one.md"] in
  let after := fs (stateOf (processBatchWithDelay World.cfg World.cwd
                              World.obliging files s)) in
  lookup (fs s) k = Some (IFile 10 "1")
  /\ (forall f, In f files ->
        k <> Path.resolve World.cwd (outputLocation World.cfg World.cwd f))
  /\ lookup after k = Some (IFile 10 "1").
Proof.
  intros files s k after.
  assert (H : lookup (fs s) k = Some (IFile 10 "1")) by reflexivity.
  assert (A : forall f, In f files ->
                k <> Path.resolve World.cwd (outputLocation World.cfg World.cwd f)).
  { intros f [<-|[<-|[<-|[]]]]; vm_compute; discriminate. }
  split; [exact H|]. split; [exact A|].
  exact (proj2 (batch_leaves_other_entries World.cfg World.cwd World.obliging
                  files s k _ H) A).
Defined.

Lemma summary_reports_batch_witness :
  let files := ["src/one.md"; "src/two.md"; "src/three.md"] in
  let s := World.boot World.three in
  let scan := traceOf (findMarkdownFiles World.cwd 4 (SOURCE_DIR World.cfg) s) in
  let batch := processBatchWithDelay World.cfg World.cwd World.secondFails files s in
  resultOf (findMarkdownFiles World.cwd 4 (SOURCE_DIR World.cfg) s) = Ok files
  /\ files <> []
  /\ resultOf batch = Ok (2, 0)
  /\ exists t k,
       resultOf batch = Ok (t, k)
       /\ t + k <= length files
       /\ translateMarkdownFiles World.cfg World.cwd World.secondFails 4 s
          = (Ok tt, stateOf batch,
             EvLog (MsgSearching (SOURCE_DIR World.cfg)) :: scan
               ++ header World.cfg (length files)
               ++ traceOf batch
               ++ summary (length files) t k).
Proof.
  intros files s scan batch.
  assert (E : resultOf (findMarkdownFiles World.cwd 4 (SOURCE_DIR World.cfg) s)
              = Ok files) by (vm_compute; reflexivity).
  assert (N : files <> []) by discriminate.
  split; [exact E|]. split; [exact N|]. split; [vm_compute; reflexivity|].
  exact (summary_reports_batch World.cfg World.cwd World.secondFails 4 s files E N).
Defined.

Lemma unreadable_root_is_not_fatal_witness :
  let s := World.boot World.sealed in
  accessible (fs s) (Path.resolve World.cwd (SOURCE_DIR World.cfg)) = true
  /\ listing (fs s) (Path.resolve World.cwd (SOURCE_DIR World.cfg)) = None
  /\ resultOf (main World.cfg World.cwd World.obliging 4 s) = Ok tt
  /\ exists e,
       main World.cfg World.cwd World.obliging 4 s
       = (Ok tt, s,
          [EvAccess (SOURCE_DIR World.cfg);
           EvLog (MsgSearching (SOURCE_DIR World.cfg));
           EvReaddir (SOURCE_DIR World.cfg);
           EvError (MsgDirReadError (SOURCE_DIR World.cfg) e);
           EvLog MsgNoneFound]).
Proof.
  intros s. split; [reflexivity|]. split; [reflexivity|].
  split; [vm_compute; reflexivity|].
  exact (unreadable_root_is_not_fatal World.cfg World.cwd World.obliging 3 s
           eq_refl eq_refl).
Defined.

Lemma writes_stay_below_output_dir_witness :
  let s := World.boot World.tree in
  let p := "out/gemini-2.0-flash/a/doc.md" in
  wellFormed (fs s) = true
  /\ In (EvWriteFile p "JA") (traceOf (main World.cfg World.cwd World.obliging 4 s))
  /\ exists rel,
       rel <> []
       /\ Forall (fun n => Path.isName n = true) rel
       /\ p = outputLocation World.cfg World.cwd
                (Path.under (SOURCE_DIR World.cfg) rel)
       /\ Path.resolve World.cwd p
          = Path.resolve World.cwd (OUTPUT_DIR World.cfg) ++ rel
       /\ exists files,
            resultOf (findMarkdownFiles World.cwd 4 (SOURCE_DIR World.cfg) s)
            = Ok files
            /\ In (Path.under (SOURCE_DIR World.cfg) rel) files.
Proof.
  intros s p.
  assert (W : wellFormed (fs s) = true) by reflexivity.
  assert (H : In (EvWriteFile p "JA")
                (traceOf (main World.cfg World.cwd World.obliging 4 s))).
  { vm_compute. tauto. }
  split; [exact W|]. split; [exact H|].
  exact (writes_stay_below_output_dir World.cfg World.cwd World.obliging 4 s
           p "JA" W H).
Defined.

Lemma staleness_depends_on_stats_only_witness :
  let s1 := World.boot World.half in
  let s2 := World.boot World.edited in
  readOf (fs s1) (Path.resolve World.cwd "src/top.md") = inl "world"
  /\ readOf (fs s2) (Path.resolve World.cwd "src/top.md") = inl "world, again"
  /\ statOf (fs s1) (Path.resolve World.cwd (staleLocation World.cfg "src/top.md"))
     = statOf (fs s2) (Path.resolve World.cwd (staleLocation World.cfg "src/top.md"))
  /\ statOf (fs s1) (Path.resolve World.cwd "src/top.md")
     = statOf (fs s2) (Path.resolve World.cwd "src/top.md")
  /\ resultOf (isAlreadyTranslated World.cfg World.cwd "src/top.md" s2) = Ok true
  /\ resultOf (isAlreadyTranslated World.cfg World.cwd "src/top.md" s1)
     = resultOf (isAlreadyTranslated World.cfg World.cwd "src/top.md" s2).
Proof.
  intros s1 s2. split; [reflexivity|]. split; [reflexivity|].
  split; [reflexivity|]. split; [reflexivity|]. split; [reflexivity|].
  exact (proj1 (staleness_depends_on_stats_only World.cfg World.cwd "src/top.md"
                  s1 s2 eq_refl eq_refl)).
Defined.

Lemma force_bypasses_staleness_witness :
  let files := ["src/a/doc.md"; "src/top.md"] in
  let s := World.boot World.half in
  let save := saveTranslatedFile World.forced World.cwd "src/top.md" "JA"
                (bumpCalls s) in
  FORCE_TRANSLATE World.forced = true
  /\ resultOf (isAlreadyTranslated World.forced World.cwd "src/top.md" s) = Ok true
  /\ resultOf (processBatchWithDelay World.forced World.cwd World.obliging files s)
     = Ok (2, 0)
  /\ (exists n s' t,
        processBatchWithDelay World.forced World.cwd World.obliging files s
        = (Ok (n, 0), s', t)
        /\ filter isStat t = []
        /\ filter isRead t = map EvReadFile files
        /\ filter isSkippedMsg t = []
        /\ filter isGenerate t
           = requests World.forced World.cwd World.obliging files (startBatch s)
        /\ n = length (filter isSaveLine t))
  /\ requestOf World.forced World.cwd World.obliging "src/top.md" s
     = [EvGenerate "gemini-2.0-flash" (instruction ++ "world")]
  /\ processFile World.forced World.cwd World.obliging "src/top.md" s
     = (Ok tt, bumpClock 1000 (bumpTranslated (stateOf save)),
        [EvLog (MsgProcessing "src/top.md"); EvReadFile "src/top.md";
         EvGenerate "gemini-2.0-flash" (instruction ++ "world")]
          ++ traceOf save ++ [EvTimeout 1000])
  /\ In (EvWriteFile (outputLocation World.forced World.cwd "src/top.md") "JA")
        (traceOf save)
  /\ lookup (fs (stateOf save))
       (Path.resolve World.cwd (outputLocation World.forced World.cwd "src/top.md"))
     = Some (IFile 100 "JA").
Proof.
  intros files s save.
  destruct (force_bypasses_staleness World.forced World.cwd World.obliging eq_refl)
    as (B & Q & _ & _ & T).
  assert (R : resultOf (readMarkdownFile World.cwd "src/top.md" s) = Ok "world")
    by reflexivity.
  assert (Nc : "world" <> "") by discriminate.
  assert (Nt : "JA" <> "") by discriminate.
  destruct (T "src/top.md" s "world" "JA" R Nc eq_refl Nt) as [P W].
  destruct (W eq_refl) as [W1 W2].
  split; [reflexivity|]. split; [reflexivity|].
  split; [vm_compute; reflexivity|]. split; [exact (B files s)|].
  split; [exact (Q "src/top.md" s "world" R)|].
  split; [exact P|]. split; [exact W1|exact W2].
Defined.

Lemma translation_counted_once_handed_over_witness :
  let s := startBatch (World.boot World.blocked) in
  let save := saveTranslatedFile World.cfg World.cwd "src/one.md" "JA" (bumpCalls s) in
  translationSucceeds World.cfg World.cwd World.obliging "src/one.md" s
  /\ existsb isErrorEv (traceOf save) = true
  /\ lookup (fs (afterItem World.cfg World.cwd World.obliging "src/one.md" s))
       (Path.resolve World.cwd (outputLocation World.cfg World.cwd "src/one.md"))
     = None
  /\ translatedCount (afterItem World.cfg World.cwd World.obliging "src/one.md" s)
     = 1
  /\ exists text tc,
       World.obliging (calls s) (MODEL_NAME World.cfg)
         (instruction ++ contentOf World.cwd "src/one.md" s)
       = Responded (Some text)
       /\ forallb isStat tc = true
       /\ processFile World.cfg World.cwd World.obliging "src/one.md" s
          = (Ok tt,
             bumpClock 1000
               (bumpTranslated
                  (stateOf (saveTranslatedFile World.cfg World.cwd "src/one.md"
                              text (bumpCalls s)))),
             EvLog (MsgProcessing "src/one.md") :: tc
               ++ [EvReadFile "src/one.md";
                   EvGenerate (MODEL_NAME World.cfg)
                     (instruction ++ contentOf World.cwd "src/one.md" s)]
               ++ traceOf (saveTranslatedFile World.cfg World.cwd "src/one.md"
                             text (bumpCalls s))
               ++ [EvTimeout 1000])
       /\ (exists rest,
             traceOf (saveTranslatedFile World.cfg World.cwd "src/one.md"
                        text (bumpCalls s))
             = EvMkdir (OUTPUT_DIR World.cfg) :: rest)
       /\ translatedCount (afterItem World.cfg World.cwd World.obliging
                             "src/one.md" s) = S (translatedCount s)
       /\ skippedCount (afterItem World.cfg World.cwd World.obliging
                          "src/one.md" s) = skippedCount s.
Proof.
  intros s save.
  assert (T : translationSucceeds World.cfg World.cwd World.obliging "src/one.md" s)
    by (vm_compute; repeat split; discriminate).
  split; [exact T|]. split; [reflexivity|]. split; [reflexivity|].
  split; [reflexivity|].
  exact (translation_counted_once_handed_over World.cfg World.cwd World.obliging
           "src/one.md" s T).
Defined.

Lemma top_level_checked_where_written_witness :
  let s := World.boot World.three in
  let save := saveTranslatedFile World.cfg World.cwd "src/one.md" "JA" s in
  Path.isName "one.md" = true
  /\ resultOf (isAlreadyTranslated World.cfg World.cwd "src/one.md" s) = Ok false
  /\ existsb isErrorEv (traceOf save) = false
  /\ resultOf (isAlreadyTranslated World.cfg World.cwd "src/one.md" (stateOf save))
     = Ok true
  /\ exists p rest,
       traceOf (isAlreadyTranslated World.cfg World.cwd "src/one.md" s)
       = EvStat p :: rest
       /\ p = staleLocation World.cfg "src/one.md"
       /\ p = outputLocation World.cfg World.cwd "src/one.md"
       /\ (forall q c, In (EvWriteFile q c) (traceOf save) -> q = p /\ c = "JA")
       /\ (existsb isErrorEv (traceOf save) = false ->
           In (EvWriteFile p "JA") (traceOf save)
           /\ lookup (fs (stateOf save)) (Path.resolve World.cwd p)
              = Some (IFile (now s) "JA")
           /\ forall i,
                statOf (fs s) (Path.resolve World.cwd "src/one.md") = Some i ->
                (mtime i <= now s)%Z ->
                Path.resolve World.cwd p <> Path.resolve World.cwd "src/one.md" ->
                resultOf (isAlreadyTranslated World.cfg World.cwd "src/one.md"
                            (stateOf save)) = Ok true).
Proof.
  intros s save. split; [reflexivity|]. split; [reflexivity|].
  split; [reflexivity|]. split; [reflexivity|].
  exact (top_level_checked_where_written World.cfg World.cwd "one.md" "JA" s s
           eq_refl).
Defined.

Lemma nested_document_checked_elsewhere_witness :
  let s := World.boot World.tree in
  let save := saveTranslatedFile World.cfg World.cwd "src/a/doc.md" "JA" s in
  Forall (fun x => Path.isName x = true) ["a"]
  /\ ["a"] <> []
  /\ Path.isName "doc.md" = true
  /\ existsb isErrorEv (traceOf save) = false
  /\ exists p rest,
       traceOf (isAlreadyTranslated World.cfg World.cwd "src/a/doc.md" s)
       = EvStat p :: rest
       /\ Path.resolve World.cwd p
          = Path.resolve World.cwd (OUTPUT_DIR World.cfg) ++ ["doc.md"]
       /\ (forall q c,
             In (EvWriteFile q c) (traceOf save) ->
             Path.resolve World.cwd q
             = Path.resolve World.cwd (OUTPUT_DIR World.cfg) ++ ["a"] ++ ["doc.md"]
             /\ Path.resolve World.cwd q <> Path.resolve World.cwd p)
       /\ (existsb isErrorEv (traceOf save) = false ->
           exists q,
             In (EvWriteFile q "JA") (traceOf save)
             /\ lookup (fs (stateOf save)) (Path.resolve World.cwd q)
                = Some (IFile (now s) "JA"))
       /\ (lookup (fs (stateOf save)) (Path.resolve World.cwd p)
           = lookup (fs s) (Path.resolve World.cwd p)
           \/ (lookup (fs s) (Path.resolve World.cwd p) = None
               /\ lookup (fs (stateOf save)) (Path.resolve World.cwd p)
                  = Some (IDir (now s) true)))
       /\ ((forall o, statOf (fs s) (Path.resolve World.cwd p) = Some o ->
                      isFile o = false) ->
           resultOf (isAlreadyTranslated World.cfg World.cwd "src/a/doc.md"
                       (stateOf save)) = Ok false).
Proof.
  intros s save.
  assert (F : Forall (fun x => Path.isName x = true) ["a"]) by (repeat constructor).
  assert (N : ["a"] <> []) by discriminate.
  split; [exact F|]. split; [exact N|]. split; [reflexivity|].
  split; [reflexivity|].
  exact (nested_document_checked_elsewhere World.cfg World.cwd ["a"] "doc.md" "JA"
           s s F N eq_refl).
Defined.

Lemma only_translations_are_written_witness :
  let files := ["src/one.md"; "src/two.md"; "src/three.md"] in
  let s := World.boot World.three in
  In (EvWriteFile "out/gemini-2.0-flash/two.md" "JA")
     (traceOf (processBatchWithDelay World.cfg World.cwd World.obliging files s))
  /\ "JA" <> ""
  /\ exists pre file post content,
       files = pre ++ file :: post
       /\ "out/gemini-2.0-flash/two.md" = outputLocation World.cfg World.cwd file
       /\ resultOf (readMarkdownFile World.cwd file
                      (stateOf (processBatchWithDelay World.cfg World.cwd
                                  World.obliging pre s)))
          = Ok content
       /\ World.obliging
            (calls (stateOf (processBatchWithDelay World.cfg World.cwd
                               World.obliging pre s)))
            (MODEL_NAME World.cfg) (instruction ++ content)
          = Responded (Some "JA")
       /\ In (EvGenerate (MODEL_NAME World.cfg) (instruction ++ content))
             (traceOf (processBatchWithDelay World.cfg World.cwd World.obliging
                         files s))
       /\ In (EvWriteFile "out/gemini-2.0-flash/two.md" "JA")
             (traceOf (processFile World.cfg World.cwd World.obliging file
                         (stateOf (processBatchWithDelay World.cfg World.cwd
                                     World.obliging pre s)))).
Proof.
  intros files s.
  assert (H : In (EvWriteFile "out/gemini-2.0-flash/two.md" "JA")
                (traceOf (processBatchWithDelay World.cfg World.cwd World.obliging
                            files s))).
  { vm_compute. tauto. }
  split; [exact H|].
  exact (only_translations_are_written World.cfg World.cwd World.obliging
           files s _ _ H).
Defined.
